(** * actual-mcp: the authentication-context builder (src/auth/auth.ts)

    A shallow embedding of the functions of [src/auth/auth.ts] and of the
    configuration constants of [src/auth/config.ts] they read, followed by
    the properties proved about them.

    Conventions of the embedding.
    - A JS value that comes out of [JSON.parse] (discovery documents,
      introspection responses, JWT payloads) is a [value]; objects are finite
      maps from property names to values, and reading a property that is
      absent gives [VUndefined], as in JS.
    - A function that may throw returns a [result]; [try]/[catch] is
      [catch].  A function that calls [fetch], [setTimeout], [Date.now] or the
      jose library runs in the monad [M], which threads a [World]: the answers
      of the environment and the list of calls made so far.
    - The module-level constants imported from [config.ts] are the fields of
      an [AuthConfig] record that is passed explicitly.
    - Diagnostics written with [console.error] are left out: they do not
      influence any result. *)

From Stdlib Require Import ZArith Lia Ascii String List Bool.
From stdpp Require Import gmap strings list fin_maps pretty.

Set Default Proof Using "Type".
#[local] Set Warnings "-register-all".


(** ** JavaScript values, strings and exceptions *)

Module Js.

(** Values as [JSON.parse] produces them, plus [undefined].  Numbers are the
    integers: the module only tests [typeof x === 'number'] and passes such
    values on. *)
Inductive value : Type :=
  | VUndefined
  | VNull
  | VBool (b : bool)
  | VNum (n : Z)
  | VStr (s : string)
  | VArr (items : list value)
  | VObj (members : gmap string value).

(** [o.k] on an object: the member, or [undefined]. *)
Definition prop (o : gmap string value) (k : string) : value :=
  default VUndefined (o !! k).

(** [a ?? b]: [b] when [a] is [null] or [undefined]. *)
Definition nullish (v : value) : bool :=
  match v with
  | VUndefined | VNull => true
  | _ => false
  end.

Definition coalesce (a b : value) : value :=
  if nullish a then b else a.

(** An optional string of the configuration ([string | undefined]) as a
    value. *)
Definition ofOption (o : option string) : value :=
  match o with
  | Some s => VStr s
  | None => VUndefined
  end.

(** [o === undefined || o === ''] on a [string | undefined]. *)
Definition missing (o : option string) : bool :=
  match o with
  | None => true
  | Some s => String.eqb s ""
  end.

(** [s.endsWith(c)] for a one-character [c]. *)
Fixpoint endsWith (c : ascii) (s : string) : bool :=
  match s with
  | EmptyString => false
  | String a EmptyString => Ascii.eqb a c
  | String _ rest => endsWith c rest
  end.

(** [s.split(c)] for a one-character separator: never the empty list. *)
Fixpoint split (c : ascii) (s : string) : list string :=
  match s with
  | EmptyString => [""]
  | String a rest =>
      if Ascii.eqb a c then "" :: split c rest
      else match split c rest with
           | piece :: pieces => String a piece :: pieces
           | [] => [String a ""]
           end
  end.

(** [xs.join(sep)]. *)
Fixpoint join (sep : string) (xs : list string) : string :=
  match xs with
  | [] => ""
  | [x] => x
  | x :: rest => x +:+ sep +:+ join sep rest
  end.

(** [s.includes(needle)]. *)
Definition includes (needle s : string) : bool :=
  match String.index 0 needle s with
  | Some _ => true
  | None => false
  end.

(** The error classes the module throws or tests with [instanceof]. *)
Inductive ErrorClass : Type :=
  | ClsError
  | ClsTypeError
  | ClsSyntaxError
  | ClsInvalidTokenError.

Record exn : Type := Exn { cls : ErrorClass; message : string }.

Definition className (c : ErrorClass) : string :=
  match c with
  | ClsError => "Error"
  | ClsTypeError => "TypeError"
  | ClsSyntaxError => "SyntaxError"
  | ClsInvalidTokenError => "InvalidTokenError"
  end.

(** [String(error)] for an [Error] object. *)
Definition errorToString (e : exn) : string :=
  if String.eqb (message e) "" then className (cls e)
  else className (cls e) +:+ ": " +:+ message e.

Inductive result (A : Type) : Type :=
  | Return (a : A)
  | Throw (e : exn).
Arguments Return {A} a.
Arguments Throw {A} e.

#[global] Instance result_ret : MRet result := fun A a => Return a.
#[global] Instance result_bind : MBind result := fun A B k r =>
  match r with
  | Return a => k a
  | Throw e => Throw e
  end.

(** [try { body } catch (e) { handler(e) }]. *)
Definition catch {A : Type} (body : result A) (handler : exn -> result A) : result A :=
  match body with
  | Return a => Return a
  | Throw e => handler e
  end.

Definition throwError {A : Type} (msg : string) : result A :=
  Throw (Exn ClsError msg).

(** [v.k] on any value: a [TypeError] on [null] and [undefined], the
    member on an object, and [undefined] on the other values (none of the
    property names the module reads exists on a string, a number, a
    boolean or an array). *)
Definition member (v : value) (k : string) : result value :=
  match v with
  | VObj o => Return (prop o k)
  | VUndefined | VNull =>
      Throw (Exn ClsTypeError ("Cannot read properties of null or undefined (reading '" +:+ k +:+ "')"))
  | _ => Return VUndefined
  end.

(** [String(v)]: the coercion [new URL(v)] applies to its argument. *)
Fixpoint toStr (v : value) : string :=
  match v with
  | VUndefined => "undefined"
  | VNull => "null"
  | VBool true => "true"
  | VBool false => "false"
  | VNum n => pretty n
  | VStr s => s
  | VArr items =>
      join "," (map (fun item => if nullish item then "" else toStr item) items)
  | VObj _ => "[object Object]"
  end.

(** The own enumerable properties [{...v}] copies. *)
Definition spread (v : value) : gmap string value :=
  match v with
  | VObj o => o
  | VArr items => list_to_map (imap (fun i item => (pretty i, item)) items)
  | VStr s =>
      list_to_map (imap (fun i a => (pretty i, VStr (String a ""))) (list_ascii_of_string s))
  | _ => ∅
  end.

End Js.

(** ** The URL class

    The part of the WHATWG URL class the module uses, for [http] and [https]
    URLs written in plain form: lower-case scheme, and no character that the
    parser would strip, percent-encode or normalise (spaces, control
    characters, backslashes, dot segments, upper-case host names, default
    ports).  On such input the standard's parser splits the string at
    delimiters, which is what [parseURL] does: the scheme ends at the first
    colon, any run of slashes after it is skipped, the authority ends at the
    first slash, question mark or hash, the path at the first question mark or
    hash, the query at the first hash.  User information, host and port are
    kept together, as written, in [authority]; they are not validated.
    Strings with another scheme are rejected by the model.  The predicate
    [Spec.plain] delimits URLs on which the model and the URL class agree by
    construction; properties that depend on what a string parses to are
    stated for them. *)

Module Url.
Import Js.

Record URL : Type := {
  scheme : string;
  authority : string;
  path : string;
  query : option string;
  fragment : option string
}.

Definition isSlash (a : ascii) : bool := Ascii.eqb a "/".
Definition isColon (a : ascii) : bool := Ascii.eqb a ":".
Definition isHash (a : ascii) : bool := Ascii.eqb a "#".
Definition endsPath (a : ascii) : bool := Ascii.eqb a "?" || Ascii.eqb a "#".
Definition endsAuthority (a : ascii) : bool := Ascii.eqb a "/" || endsPath a.

(** The longest prefix of [s] without a [stop] character, and what follows. *)
Fixpoint span (stop : ascii -> bool) (s : string) : string * string :=
  match s with
  | EmptyString => ("", "")
  | String a rest =>
      if stop a then ("", s)
      else let '(before, after) := span stop rest in (String a before, after)
  end.

Fixpoint skip (p : ascii -> bool) (s : string) : string :=
  match s with
  | EmptyString => ""
  | String a rest => if p a then skip p rest else s
  end.

(** Query and fragment of what follows the path. *)
Definition parseQueryFragment (s : string) : option string * option string :=
  match s with
  | String "?" rest =>
      let '(q, after) := span isHash rest in
      (Some q, match after with String "#" f => Some f | _ => None end)
  | String "#" f => (None, Some f)
  | _ => (None, None)
  end.

(** What follows [scheme:]: slashes, authority, path, query, fragment. *)
Definition parseAfterScheme (sch rest : string) : option URL :=
  let '(auth, afterAuth) := span endsAuthority (skip isSlash rest) in
  if String.eqb auth "" then None
  else
    let '(p, afterPath) := span endsPath afterAuth in
    let '(q, f) := parseQueryFragment afterPath in
    Some {| scheme := sch; authority := auth;
            path := if String.eqb p "" then "/" else p;
            query := q; fragment := f |}.

Definition specialScheme (sch : string) : bool :=
  String.eqb sch "http" || String.eqb sch "https".

(** The parser without a base URL. *)
Definition parseURL (s : string) : option URL :=
  let '(sch, rest) := span isColon s in
  match rest with
  | String ":" after => if specialScheme sch then parseAfterScheme sch after else None
  | _ => None
  end.

Fixpoint hasSlash (s : string) : bool :=
  match s with
  | EmptyString => false
  | String a rest => isSlash a || hasSlash rest
  end.

(** The path of the base URL up to and including its last slash. *)
Fixpoint directory (p : string) : string :=
  match p with
  | EmptyString => ""
  | String a rest =>
      if hasSlash rest then String a (directory rest)
      else if isSlash a then "/" else ""
  end.

(** The parser with a base URL: an absolute reference stands alone, [//...]
    keeps the scheme of the base, [/...] its scheme and authority, an empty
    path its path as well, and a relative path is appended to the directory
    of the base path. *)
Definition parseRelative (ref : string) (base : URL) : option URL :=
  match parseURL ref with
  | Some u => Some u
  | None =>
      let '(p, afterPath) := span endsPath ref in
      let '(q, f) := parseQueryFragment afterPath in
      match p with
      | EmptyString =>
          Some {| scheme := scheme base; authority := authority base; path := path base;
                  query := match q with Some _ => q | None => query base end;
                  fragment := f |}
      | String "/" (String "/" _) => parseAfterScheme (scheme base) ref
      | String "/" _ =>
          Some {| scheme := scheme base; authority := authority base; path := p;
                  query := q; fragment := f |}
      | _ =>
          Some {| scheme := scheme base; authority := authority base;
                  path := directory (path base) +:+ p;
                  query := q; fragment := f |}
      end
  end.

Definition invalidUrl {A : Type} : result A := Throw (Exn ClsTypeError "Invalid URL").

(** [new URL(s)] and [new URL(ref, base)]. *)
Definition newURL (s : string) : result URL :=
  match parseURL s with
  | Some u => Return u
  | None => invalidUrl
  end.

Definition newURLFrom (ref : string) (base : URL) : result URL :=
  match parseRelative ref base with
  | Some u => Return u
  | None => invalidUrl
  end.

(** The getters [href], [pathname], [search] and [hash]. *)
Definition href (u : URL) : string :=
  scheme u +:+ "://" +:+ authority u +:+ path u
  +:+ match query u with Some q => "?" +:+ q | None => "" end
  +:+ match fragment u with Some f => "#" +:+ f | None => "" end.

Definition pathname (u : URL) : string := path u.

Definition search (u : URL) : string :=
  match query u with
  | Some q => if String.eqb q "" then "" else "?" +:+ q
  | None => ""
  end.

Definition hash (u : URL) : string :=
  match fragment u with
  | Some f => if String.eqb f "" then "" else "#" +:+ f
  | None => ""
  end.

(** The setters [pathname], [search] and [hash]. *)
Definition setPathname (u : URL) (v : string) : URL :=
  {| scheme := scheme u; authority := authority u;
     path := match v with String "/" _ => v | _ => "/" +:+ v end;
     query := query u; fragment := fragment u |}.

Definition setSearch (u : URL) (v : string) : URL :=
  {| scheme := scheme u; authority := authority u; path := path u;
     query := match v with
              | EmptyString => None
              | String "?" q => Some q
              | _ => Some v
              end;
     fragment := fragment u |}.

Definition setHash (u : URL) (v : string) : URL :=
  {| scheme := scheme u; authority := authority u; path := path u; query := query u;
     fragment := match v with
                 | EmptyString => None
                 | String "#" f => Some f
                 | _ => Some v
                 end |}.

End Url.

(** ** The environment: network, timers, clock and the jose library *)

Module Env.
Import Js Url.

(** What [fetch] is called with.  The introspection request is kept in
    structured form: the pair behind the [Authorization: Basic] header and
    the fields of the url-encoded body. *)
Inductive Request : Type :=
  | Get (url : string)
  | PostForm (url : string) (basicUser basicPassword : string) (form : list (string * string)).

Record Response : Type := {
  status : Z;
  json : result value
}.

(** [response.ok]. *)
Definition ok (r : Response) : bool := (200 <=? status r)%Z && (status r <=? 299)%Z.

Inductive FetchOutcome : Type :=
  | Rejected (e : exn)
  | Responded (r : Response).

Inductive Event : Type :=
  | CallFetch (req : Request)
  | CallSleep (ms : Z)
  | CallJwtVerify (token : string) (jwks : URL) (issuer : value) (audience : option string).

(** [network n req] is the outcome of [fetch(req)] when [n] calls of [fetch]
    came before it; [jose] is the outcome of [jwtVerify]; [clock] is
    [Date.now()], in milliseconds; [calls] lists the calls made, oldest
    first. *)
Record World : Type := {
  network : nat -> Request -> FetchOutcome;
  jose : string -> URL -> value -> option string -> result (gmap string value);
  clock : Z;
  calls : list Event
}.

Definition record (e : Event) (w : World) : World :=
  {| network := network w; jose := jose w; clock := clock w; calls := calls w ++ [e] |}.

Definition isFetch (e : Event) : bool :=
  match e with
  | CallFetch _ => true
  | _ => false
  end.

Definition fetchCount (w : World) : nat := length (List.filter isFetch (calls w)).

Definition M (A : Type) : Type := World -> result A * World.

#[global] Instance M_ret : MRet M := fun A a w => (Return a, w).
#[global] Instance M_bind : MBind M := fun A B k m w =>
  match m w with
  | (Return a, w') => k a w'
  | (Throw e, w') => (Throw e, w')
  end.

Definition lift {A : Type} (r : result A) : M A := fun w => (r, w).

Definition throw {A : Type} (c : ErrorClass) (msg : string) : M A :=
  lift (Throw (Exn c msg)).

Definition tryCatch {A : Type} (body : M A) (handler : exn -> M A) : M A := fun w =>
  match body w with
  | (Return a, w') => (Return a, w')
  | (Throw e, w') => handler e w'
  end.

Definition fetch (req : Request) : M Response := fun w =>
  let w' := record (CallFetch req) w in
  match network w (fetchCount w) req with
  | Rejected e => (Throw e, w')
  | Responded r => (Return r, w')
  end.

Definition sleep (ms : Z) : M unit := fun w => (Return tt, record (CallSleep ms) w).

Definition dateNow : M Z := fun w => (Return (clock w), w).

Definition jwtVerify (token : string) (jwks : URL) (issuer : value) (audience : option string)
    : M (gmap string value) := fun w =>
  (jose w token jwks issuer audience, record (CallJwtVerify token jwks issuer audience) w).

End Env.

(** ** The configuration constants of config.ts *)

Module Config.

Inductive OAuthValidationMethod : Type :=
  | MethodIntrospection
  | MethodJwt
  | MethodAuto.

(** One field per constant, named as in [config.ts].  [MCP_AUTH_MODE] is a
    lower-cased string that the source casts to [AuthMode] unchecked.
    [env_MCP_PUBLIC_URL] is [process.env.MCP_PUBLIC_URL], which
    [buildAuthContext] reads directly. *)
Record AuthConfig : Type := {
  env_MCP_PUBLIC_URL : option string;
  MCP_AUTH_MODE : string;
  MCP_BEARER_TOKEN : option string;
  MCP_PUBLIC_URL : string;
  MCP_OAUTH_INTERNAL_ISSUER_URL : option string;
  MCP_OAUTH_PUBLIC_ISSUER_URL : option string;
  MCP_OAUTH_CLIENT_ID : option string;
  MCP_OAUTH_CLIENT_SECRET : option string;
  MCP_OAUTH_INTROSPECTION_URL : option string;
  MCP_OAUTH_AUDIENCE : option string;
  MCP_OAUTH_VALIDATION_METHOD : OAuthValidationMethod;
  MCP_OAUTH_JWKS_URL : option string;
  MCP_OAUTH_EXPECTED_ISSUER : option string;
  MCP_OAUTH_DISCOVERY_RETRIES : Z;
  MCP_OAUTH_DISCOVERY_RETRY_DELAY_MS : Z
}.

End Config.

(** ** auth.ts *)

Module Auth.
Import Js Url Env Config.

Inductive AuthMode : Type :=
  | ModeNone
  | ModeBearer
  | ModeOauth.

Inductive ValidationMethod : Type :=
  | Introspection
  | Jwt.

Record AuthOptions : Type := {
  enableOauth : option bool;
  enableBearer : option bool;
  port : option Z
}.

Record TokenVerifierResult : Type := {
  token : string;
  clientId : string;
  scopes : list string;
  expiresAt : option Z
}.

Record TokenVerifier : Type := {
  verifyAccessToken : string -> M TokenVerifierResult
}.

(** The options [requireBearerAuth] is called with.  [resourceServer] is the
    URL given to [getOAuthProtectedResourceMetadataUrl] for the
    [resourceMetadataUrl] option. *)
Record Middleware : Type := {
  verifier : TokenVerifier;
  requiredScopes : list string;
  resourceServer : option URL
}.

Record AuthContext : Type := {
  mode : AuthMode;
  middleware : option Middleware;
  oauthMetadata : option value;
  validationMethod : option ValidationMethod
}.

(** Truthiness of an optional boolean flag. *)
Definition truthy (flag : option bool) : bool :=
  match flag with
  | Some true => true
  | _ => false
  end.

(** [resolveAuthMode]: the result has the static type [AuthMode] but is
    the string of [MCP_AUTH_MODE] when neither flag is set. *)
Definition resolveAuthMode (cfg : AuthConfig) (options : AuthOptions) : string :=
  if truthy (enableOauth options) then "oauth"
  else if truthy (enableBearer options) then "bearer"
  else MCP_AUTH_MODE cfg.

(** [new URL(issuer.href)] copies the issuer before its path is changed. *)
Definition ensureTrailingSlash (issuer : URL) : result URL :=
  if endsWith "/" (href issuer) then Return issuer
  else
    withSlash ← newURL (href issuer);
    Return (setPathname withSlash
              (if endsWith "/" (pathname withSlash) then pathname withSlash
               else pathname withSlash +:+ "/")).

Definition buildWellKnownCandidates (issuer : URL) : result (list URL) :=
  issuerWithSlash ← ensureTrailingSlash issuer;
  scoped ← mapM (fun path => newURL (href issuerWithSlash +:+ path))
              [".well-known/openid-configuration"; ".well-known/oauth-authorization-server"];
  root1 ← newURLFrom "/.well-known/openid-configuration" issuer;
  root2 ← newURLFrom "/.well-known/oauth-authorization-server" issuer;
  Return (scoped ++ [root1; root2]).

(** One candidate of the inner loop of [discoverOAuthMetadata]: the parsed
    body, or the entry pushed on [attempts]. *)
Definition tryCandidate (candidate : URL) : M (string + value) :=
  tryCatch
    (response ← fetch (Get (href candidate));
     if negb (ok response) then
       mret (inl (href candidate +:+ " (HTTP " +:+ pretty (status response) +:+ ")"))
     else
       body ← lift (json response);
       mret (inr body))
    (fun error => mret (inl (href candidate +:+ " (" +:+ errorToString error +:+ ")"))).

(** The inner loop: the first body found, if any, and [attempts]. *)
Fixpoint tryCandidates (candidates : list URL) (attempts : list string)
    : M (option value * list string) :=
  match candidates with
  | [] => mret (None, attempts)
  | candidate :: rest =>
      outcome ← tryCandidate candidate;
      match outcome with
      | inr body => mret (Some body, attempts)
      | inl entry => tryCandidates rest (attempts ++ [entry])
      end
  end.

(** The outer loop, with [remaining] rounds to go from round [attempt]. *)
Fixpoint discoveryRounds (cfg : AuthConfig) (issuer : URL) (remaining : nat) (attempt : Z)
    (attempts : list string) : M value :=
  match remaining with
  | O =>
      throw ClsError ("Unable to load OAuth metadata from issuer " +:+ href issuer
                      +:+ ". Tried: " +:+ join "; " attempts)
  | S remaining' =>
      candidates ← lift (buildWellKnownCandidates issuer);
      '(found, attempts') ← tryCandidates candidates attempts;
      match found with
      | Some body => mret body
      | None =>
          _ ← (if (attempt <? MCP_OAUTH_DISCOVERY_RETRIES cfg)%Z
               then sleep (MCP_OAUTH_DISCOVERY_RETRY_DELAY_MS cfg)
               else mret tt);
          discoveryRounds cfg issuer remaining' (attempt + 1)%Z attempts'
      end
  end.

(** [for (attempt = 1; attempt <= RETRIES; attempt++)] runs
    [Z.to_nat RETRIES] rounds. *)
Definition discoverOAuthMetadata (cfg : AuthConfig) (issuer : URL) : M value :=
  discoveryRounds cfg issuer (Z.to_nat (MCP_OAUTH_DISCOVERY_RETRIES cfg)) 1%Z [].

Fixpoint audienceMatches (aud : value) (expected : option string) : bool :=
  match expected with
  | None => true
  | Some e =>
      if String.eqb e "" then true
      else match aud with
           | VStr s => String.eqb s e
           | VArr items => existsb (fun item => audienceMatches item expected) items
           | _ => false
           end
  end.

(** The local function [remap] of [rewriteOAuthMetadataIssuer]. *)
Definition remap (issuerUrl : URL) (v : value) : result value :=
  match v with
  | VStr s =>
      if String.eqb s "" then Return VUndefined
      else
        original ← newURL s;
        rewritten ← newURLFrom (pathname original) issuerUrl;
        let rewritten := setSearch rewritten (search original) in
        let rewritten := setHash rewritten (hash original) in
        Return (VStr (href rewritten))
  | _ => Return VUndefined
  end.

(** [remap(metadata.k) ?? metadata.k]. *)
Definition remapped (issuerUrl : URL) (metadata : value) (k : string) : result value :=
  v ← member metadata k;
  r ← remap issuerUrl v;
  Return (coalesce r v).

Definition rewriteOAuthMetadataIssuer (metadata : value) (publicIssuer : option string)
    : result value :=
  match publicIssuer with
  | None => Return metadata
  | Some publicIssuer =>
      if String.eqb publicIssuer "" then Return metadata
      else
        catch
          (parsed ← newURL publicIssuer;
           issuerUrl ← ensureTrailingSlash parsed;
           authorization_endpoint ← remapped issuerUrl metadata "authorization_endpoint";
           token_endpoint ← remapped issuerUrl metadata "token_endpoint";
           introspection_endpoint ← remapped issuerUrl metadata "introspection_endpoint";
           userinfo_endpoint ← remapped issuerUrl metadata "userinfo_endpoint";
           revocation_endpoint ← remapped issuerUrl metadata "revocation_endpoint";
           end_session_endpoint ← remapped issuerUrl metadata "end_session_endpoint";
           jwks_uri ← remapped issuerUrl metadata "jwks_uri";
           Return (VObj (<["jwks_uri" := jwks_uri]>
                        (<["end_session_endpoint" := end_session_endpoint]>
                        (<["revocation_endpoint" := revocation_endpoint]>
                        (<["userinfo_endpoint" := userinfo_endpoint]>
                        (<["introspection_endpoint" := introspection_endpoint]>
                        (<["token_endpoint" := token_endpoint]>
                        (<["authorization_endpoint" := authorization_endpoint]>
                        (<["issuer" := VStr (href issuerUrl)]>
                        (spread metadata)))))))))))
          (fun _ => Return metadata)
  end.

Definition buildBearerAuthContext (cfg : AuthConfig) : result AuthContext :=
  match MCP_BEARER_TOKEN cfg with
  | None => throwError "MCP_BEARER_TOKEN (or BEARER_TOKEN) is required when auth mode is bearer."
  | Some configured =>
      if String.eqb configured "" then
        throwError "MCP_BEARER_TOKEN (or BEARER_TOKEN) is required when auth mode is bearer."
      else
        Return {|
          mode := ModeBearer;
          middleware := Some {|
            verifier := {|
              verifyAccessToken := fun accessToken =>
                if negb (String.eqb accessToken configured) then
                  throw ClsInvalidTokenError "Invalid token"
                else
                  now ← dateNow;
                  mret {| token := accessToken;
                          clientId := "local-user";
                          scopes := ["mcp:tools"];
                          expiresAt := Some (now / 1000 + 24 * 60 * 60)%Z |}
            |};
            requiredScopes := [];
            resourceServer := None
          |};
          oauthMetadata := None;
          validationMethod := None
        |}
  end.

Definition resolveValidationMethod (method : OAuthValidationMethod)
    (hasClientCredentials hasIntrospectionEndpoint hasJwksUri : bool)
    : result ValidationMethod :=
  match method with
  | MethodIntrospection =>
      if negb hasClientCredentials then
        throwError "MCP_OAUTH_CLIENT_ID and MCP_OAUTH_CLIENT_SECRET are required for introspection validation."
      else if negb hasIntrospectionEndpoint then
        throwError "Introspection endpoint not available. Set MCP_OAUTH_INTROSPECTION_URL or use jwt validation."
      else Return Introspection
  | MethodJwt =>
      if negb hasJwksUri then
        throwError "JWKS URI not available. Set MCP_OAUTH_JWKS_URL or ensure issuer metadata includes jwks_uri."
      else Return Jwt
  | MethodAuto =>
      if hasClientCredentials && hasIntrospectionEndpoint then Return Introspection
      else if hasJwksUri then Return Jwt
      else if hasClientCredentials then
        throwError ("OAuth auto-detection failed: client credentials provided but no introspection endpoint available. " +:+
                    "Set MCP_OAUTH_INTROSPECTION_URL or use MCP_OAUTH_VALIDATION_METHOD=jwt with JWKS.")
      else
        throwError ("OAuth auto-detection failed: no client credentials and no JWKS URI available. " +:+
                    "Configure either client credentials for introspection or ensure jwks_uri is in issuer metadata.")
  end.

Definition extractClientId (payload : gmap string value) : string :=
  let clientId :=
    coalesce (coalesce (coalesce (prop payload "client_id") (prop payload "azp"))
                       (prop payload "cid"))
             (prop payload "sub") in
  match clientId with
  | VStr s => s
  | _ => "unknown-client"
  end.

(** [xs.filter(Boolean)] on strings keeps the non-empty ones. *)
Definition nonEmpty (s : string) : bool := negb (String.eqb s "").

(** [xs.filter((s) => typeof s === 'string')]. *)
Fixpoint stringsOf (items : list value) : list string :=
  match items with
  | [] => []
  | VStr s :: rest => s :: stringsOf rest
  | _ :: rest => stringsOf rest
  end.

Definition extractScopes (payload : gmap string value) : list string :=
  let scopeClaim := coalesce (prop payload "scope") (prop payload "scp") in
  match scopeClaim with
  | VStr s => List.filter nonEmpty (split " " s)
  | VArr items => stringsOf items
  | _ => []
  end.

(** [typeof v === 'number' ? v : undefined]; jose only returns payloads
    whose [exp] is a number or absent. *)
Definition numberOf (v : value) : option Z :=
  match v with
  | VNum n => Some n
  | _ => None
  end.

(** The [catch] branch of the JWT verifier. *)
Definition classifyJwtError (error : exn) : M TokenVerifierResult :=
  let message := message error in
  if includes "expired" message then throw ClsInvalidTokenError "Token has expired"
  else if includes "audience" message then throw ClsInvalidTokenError "Token audience does not match"
  else if includes "issuer" message then throw ClsInvalidTokenError "Token issuer does not match"
  else if includes "signature" message then throw ClsInvalidTokenError "Invalid token signature"
  else throw ClsInvalidTokenError "Token validation failed".

(** [expectedIssuer] is declared a string; the caller may pass a member of
    the discovery document, unchecked. *)
Definition buildJwtVerifier (jwksUrl : URL) (expectedIssuer : value)
    (expectedAudience : option string) : TokenVerifier :=
  {| verifyAccessToken := fun token =>
       tryCatch
         (payload ← jwtVerify token jwksUrl expectedIssuer expectedAudience;
          mret {| token := token;
                  clientId := extractClientId payload;
                  scopes := extractScopes payload;
                  expiresAt := numberOf (prop payload "exp") |})
         classifyJwtError |}.

(** The object the introspection verifier returns for an active token of
    the right audience (lines 395-400). *)
Definition introspectionResult (token clientId : string) (data : value)
    : result TokenVerifierResult :=
  client_id ← member data "client_id";
  scope ← member data "scope";
  exp ← member data "exp";
  Return {| token := token;
            clientId := match client_id with VStr s => s | _ => clientId end;
            scopes := match scope with VStr s => split " " s | _ => [] end;
            expiresAt := numberOf exp |}.

(** [introspectionEndpoint] is declared a string; the caller passes a member
    of the discovery document, unchecked, and [fetch] coerces it. *)
Definition buildIntrospectionVerifier (cfg : AuthConfig) (introspectionEndpoint : value)
    (clientId clientSecret : string) (mcpPublicUrl : URL) : TokenVerifier :=
  {| verifyAccessToken := fun token =>
       tryCatch
         (response ← fetch (PostForm (toStr introspectionEndpoint) clientId clientSecret
                              [("token", token);
                               ("token_type_hint", "access_token");
                               ("resource", href mcpPublicUrl)]);
          if negb (ok response) then
            throw ClsInvalidTokenError
                  ("Token introspection failed: HTTP " +:+ pretty (status response))
          else
            data ← lift (json response);
            active ← lift (member data "active");
            match active with
            | VBool true =>
                aud ← lift (member data "aud");
                if negb (audienceMatches aud (MCP_OAUTH_AUDIENCE cfg)) then
                  throw ClsInvalidTokenError "Token audience does not match MCP_OAUTH_AUDIENCE"
                else lift (introspectionResult token clientId data)
            | _ => throw ClsInvalidTokenError "Token is not active"
            end)
         (fun error =>
            match cls error with
            | ClsInvalidTokenError => lift (Throw error)
            | _ => throw ClsInvalidTokenError "Token introspection failed"
            end) |}.

(** [v !== undefined && v !== ''] on a member of the discovery document. *)
Definition present (v : value) : bool :=
  match v with
  | VUndefined => false
  | VStr s => negb (String.eqb s "")
  | _ => true
  end.

Definition buildOAuthAuthContext (cfg : AuthConfig) (mcpPublicUrl : URL) : M AuthContext :=
  match MCP_OAUTH_INTERNAL_ISSUER_URL cfg with
  | None =>
      throw ClsError "MCP_OAUTH_INTERNAL_ISSUER_URL (or MCP_OAUTH_ISSUER_URL) is required when auth mode is oauth."
  | Some internalIssuerString =>
      if String.eqb internalIssuerString "" then
        throw ClsError "MCP_OAUTH_INTERNAL_ISSUER_URL (or MCP_OAUTH_ISSUER_URL) is required when auth mode is oauth."
      else
        issuer ← lift (newURL internalIssuerString);
        discoveredMetadata ← discoverOAuthMetadata cfg issuer;
        oauthMetadata ← lift (rewriteOAuthMetadataIssuer discoveredMetadata
                                (MCP_OAUTH_PUBLIC_ISSUER_URL cfg));
        introspectionEndpoint ←
          match MCP_OAUTH_INTROSPECTION_URL cfg with
          | Some url => mret (VStr url)
          | None => lift (member discoveredMetadata "introspection_endpoint")
          end;
        jwksUri ←
          match MCP_OAUTH_JWKS_URL cfg with
          | Some url => mret (VStr url)
          | None => lift (member discoveredMetadata "jwks_uri")
          end;
        let hasClientCredentials :=
          negb (missing (MCP_OAUTH_CLIENT_ID cfg)) && negb (missing (MCP_OAUTH_CLIENT_SECRET cfg)) in
        let hasIntrospectionEndpoint := present introspectionEndpoint in
        let hasJwksUri := present jwksUri in
        validationMethod ← lift (resolveValidationMethod (MCP_OAUTH_VALIDATION_METHOD cfg)
                                   hasClientCredentials hasIntrospectionEndpoint hasJwksUri);
        verifier ←
          match validationMethod with
          | Jwt =>
              jwksUrl ← lift (newURL (toStr jwksUri));
              expectedIssuer ←
                match MCP_OAUTH_EXPECTED_ISSUER cfg with
                | Some expected => mret (VStr expected)
                | None =>
                    discovered ← lift (member discoveredMetadata "issuer");
                    mret (coalesce discovered (VStr internalIssuerString))
                end;
              mret (buildJwtVerifier jwksUrl expectedIssuer (MCP_OAUTH_AUDIENCE cfg))
          | Introspection =>
              mret (buildIntrospectionVerifier cfg introspectionEndpoint
                      (default "" (MCP_OAUTH_CLIENT_ID cfg))
                      (default "" (MCP_OAUTH_CLIENT_SECRET cfg))
                      mcpPublicUrl)
          end;
        mret {| mode := ModeOauth;
                middleware := Some {| verifier := verifier;
                                      requiredScopes := [];
                                      resourceServer := Some mcpPublicUrl |};
                oauthMetadata := Some oauthMetadata;
                validationMethod := Some validationMethod |}
  end.

(** The branch the [switch (mode)] of [buildAuthContext] takes; its
    [default] branch returns a context of mode none. *)
Definition switchMode (mode : string) : AuthMode :=
  if String.eqb mode "none" then ModeNone
  else if String.eqb mode "bearer" then ModeBearer
  else if String.eqb mode "oauth" then ModeOauth
  else ModeNone.

(** [process.env.MCP_PUBLIC_URL ?? MCP_PUBLIC_URL ?? ...]: the constant is
    never nullish, so the third operand is not evaluated. *)
Definition buildAuthContext (cfg : AuthConfig) (options : AuthOptions) : M AuthContext :=
  let mode := resolveAuthMode cfg options in
  let mcpPublicUrlString := default (MCP_PUBLIC_URL cfg) (env_MCP_PUBLIC_URL cfg) in
  mcpPublicUrl ← lift (newURL mcpPublicUrlString);
  match switchMode mode with
  | ModeNone =>
      mret {| mode := ModeNone; middleware := None;
              oauthMetadata := None; validationMethod := None |}
  | ModeBearer => lift (buildBearerAuthContext cfg)
  | ModeOauth => buildOAuthAuthContext cfg mcpPublicUrl
  end.

End Auth.

(** ** Notions used to state the properties *)

Module Spec.
Import Js Url Env Config Auth.

(** [e] occurs in an array-valued audience: as one of its string entries, or
    in an array nested in it, at any depth. *)
Inductive presentIn (e : string) : list value -> Prop :=
  | present_here (items : list value) :
      In (VStr e) items -> presentIn e items
  | present_nested (items sub : list value) :
      In (VArr sub) items -> presentIn e sub -> presentIn e items.

(** The first claim of a JWT payload, among [keys] in order, that is present
    and not [null]. *)
Fixpoint firstClaim (payload : gmap string value) (keys : list string) : option value :=
  match keys with
  | [] => None
  | k :: rest =>
      match payload !! k with
      | Some v => if nullish v then firstClaim payload rest else Some v
      | None => firstClaim payload rest
      end
  end.

(** No character of [s] satisfies [stop]. *)
Fixpoint clean (stop : ascii -> bool) (s : string) : bool :=
  match s with
  | EmptyString => true
  | String a rest => negb (stop a) && clean stop rest
  end.

Definition startsWithSlash (s : string) : bool :=
  match s with
  | String a _ => isSlash a
  | EmptyString => false
  end.

Definition startsWithTwoSlashes (s : string) : bool :=
  match s with
  | String a rest => isSlash a && startsWithSlash rest
  | EmptyString => false
  end.

(** The URL records the parser produces: an http or https scheme, a
    non-empty authority, a path that begins with a slash, and no delimiter
    inside a component that would end it. *)
Definition wellFormed (u : URL) : bool :=
  specialScheme (scheme u)
  && negb (String.eqb (authority u) "")
  && clean endsAuthority (authority u)
  && startsWithSlash (path u)
  && clean endsPath (path u)
  && match query u with
     | Some q => clean isHash q
     | None => true
     end.

(** [u] with [suffix] appended to its last component: what parsing
    [u.href + suffix] gives. *)
Definition extend (u : URL) (suffix : string) : URL :=
  match fragment u, query u with
  | Some f, _ =>
      {| scheme := scheme u; authority := authority u; path := path u; query := query u;
         fragment := Some (f +:+ suffix) |}
  | None, Some q =>
      {| scheme := scheme u; authority := authority u; path := path u;
         query := Some (q +:+ suffix); fragment := None |}
  | None, None =>
      {| scheme := scheme u; authority := authority u; path := path u +:+ suffix;
         query := None; fragment := None |}
  end.

(** The issuer with a trailing slash ensured: unchanged when its href ends
    with a slash, and otherwise with a path that ends with one. *)
Definition withTrailingSlash (issuer : URL) : URL :=
  if endsWith "/" (href issuer) then issuer
  else if endsWith "/" (path issuer) then issuer
  else {| scheme := scheme issuer; authority := authority issuer;
          path := path issuer +:+ "/";
          query := query issuer; fragment := fragment issuer |}.

(** The candidate at the origin root of [issuer] for a well-known path. *)
Definition rootCandidate (issuer : URL) (wellKnown : string) : URL :=
  {| scheme := scheme issuer; authority := authority issuer; path := wellKnown;
     query := None; fragment := None |}.

(** An empty query or fragment reads as none through [search] and [hash]. *)
Definition dropEmpty (component : option string) : option string :=
  match component with
  | Some c => if String.eqb c "" then None else Some c
  | None => None
  end.

(** [original] moved to the scheme and authority of [issuerUrl]. *)
Definition rebased (issuerUrl original : URL) : URL :=
  {| scheme := scheme issuerUrl; authority := authority issuerUrl;
     path := path original;
     query := dropEmpty (query original);
     fragment := dropEmpty (fragment original) |}.

(** The endpoint members [rewriteOAuthMetadataIssuer] remaps. *)
Definition endpointKeys : list string :=
  ["authorization_endpoint"; "token_endpoint"; "introspection_endpoint";
   "userinfo_endpoint"; "revocation_endpoint"; "end_session_endpoint"; "jwks_uri"].

(** A member that is a non-empty string naming a URL whose path does not
    begin with two slashes, or that is no non-empty string at all. *)
Definition rewritable (v : value) : Prop :=
  match v with
  | VStr s =>
      s = "" \/ exists u, parseURL s = Some u /\ startsWithTwoSlashes (path u) = false
  | _ => True
  end.

(** The member as rewritten for [issuerUrl]. *)
Definition rewrittenMember (issuerUrl : URL) (v : value) : value :=
  match v with
  | VStr s =>
      if String.eqb s "" then v
      else match parseURL s with
           | Some u => VStr (href (rebased issuerUrl u))
           | None => v
           end
  | _ => v
  end.

(** A member that is a non-empty string that does not parse as a URL. *)
Definition unparsable (v : value) : Prop :=
  match v with
  | VStr s => s <> "" /\ parseURL s = None
  | _ => False
  end.

(** [w] after the calls [events]. *)
Definition after (w : World) (events : list Event) : World :=
  {| network := network w; jose := jose w; clock := clock w; calls := calls w ++ events |}.

(** A discovery attempt succeeds when the response is a 2xx response whose
    body parses as JSON; [succeeded] is then the parsed body. *)
Definition succeeded (outcome : FetchOutcome) : option value :=
  match outcome with
  | Responded r =>
      if ok r then match json r with
                   | Return body => Some body
                   | Throw _ => None
                   end
      else None
  | Rejected _ => None
  end.

(** Why an attempt failed: the HTTP status, or the error of [fetch] or of
    [response.json()]. *)
Definition failureReason (outcome : FetchOutcome) : string :=
  match outcome with
  | Rejected e => errorToString e
  | Responded r =>
      if ok r then match json r with
                   | Throw e => errorToString e
                   | Return _ => ""
                   end
      else "HTTP " +:+ pretty (status r)
  end.

(** The entry of the aggregated error for one failed attempt. *)
Definition attemptEntry (candidate : URL) (outcome : FetchOutcome) : string :=
  href candidate +:+ " (" +:+ failureReason outcome +:+ ")".

Definition fetchOf (candidate : URL) : Event := CallFetch (Get (href candidate)).

(** The outcome of fetching [candidate] as fetch number [n]. *)
Definition outcomeAt (w : World) (n : nat) (candidate : URL) : FetchOutcome :=
  network w n (Get (href candidate)).

(** The entries of one round whose first fetch is fetch number [start]. *)
Definition roundEntries (w : World) (start : nat) (candidates : list URL) : list string :=
  imap (fun j candidate => attemptEntry candidate (outcomeAt w (start + j) candidate)) candidates.

(** The entries of [rounds] failed rounds. *)
Fixpoint allEntries (w : World) (start : nat) (candidates : list URL) (rounds : nat)
    : list string :=
  match rounds with
  | O => []
  | S rounds' =>
      roundEntries w start candidates
      ++ allEntries w (start + length candidates) candidates rounds'
  end.

(** The calls of [rounds] failed rounds: every candidate in order, and a
    sleep between two rounds but not after the last. *)
Fixpoint failedSchedule (candidates : list URL) (delay : Z) (rounds : nat) : list Event :=
  match rounds with
  | O => []
  | S rounds' =>
      map fetchOf candidates
      ++ match rounds' with
         | O => []
         | S _ => CallSleep delay :: failedSchedule candidates delay rounds'
         end
  end.

(** The calls up to a success at candidate number [j] of round number [r]
    (both counted from 0): [r] failed rounds, each followed by a sleep, and
    the candidates up to and including number [j]. *)
Fixpoint successSchedule (candidates : list URL) (delay : Z) (r j : nat) : list Event :=
  match r with
  | O => map fetchOf (take (S j) candidates)
  | S r' => map fetchOf candidates ++ CallSleep delay :: successSchedule candidates delay r' j
  end.

(** A configuration with the issuer https://auth.example.com/realms/main,
    two discovery rounds and the default delay. *)
Definition twoRoundConfig : AuthConfig :=
  {| env_MCP_PUBLIC_URL := None; MCP_AUTH_MODE := "oauth"; MCP_BEARER_TOKEN := None;
     MCP_PUBLIC_URL := "http://localhost:3000/mcp";
     MCP_OAUTH_INTERNAL_ISSUER_URL := Some "https://auth.example.com/realms/main";
     MCP_OAUTH_PUBLIC_ISSUER_URL := None;
     MCP_OAUTH_CLIENT_ID := None; MCP_OAUTH_CLIENT_SECRET := None;
     MCP_OAUTH_INTROSPECTION_URL := None; MCP_OAUTH_AUDIENCE := None;
     MCP_OAUTH_VALIDATION_METHOD := MethodAuto; MCP_OAUTH_JWKS_URL := None;
     MCP_OAUTH_EXPECTED_ISSUER := None; MCP_OAUTH_DISCOVERY_RETRIES := 2;
     MCP_OAUTH_DISCOVERY_RETRY_DELAY_MS := 2000 |}.

Definition noJose : string -> URL -> value -> option string -> result (gmap string value) :=
  fun _ _ _ _ => Throw (Exn ClsError "no key set").

(** A provider that answers every request with 404. *)
Definition notFoundWorld : World :=
  {| network := fun _ _ => Responded {| status := 404; json := Throw (Exn ClsSyntaxError "Unexpected end of JSON input") |};
     jose := noJose; clock := 1700000000000; calls := [] |}.

Definition sampleDocument : gmap string value :=
  <["issuer" := VStr "https://auth.example.com/realms/main"]>
  (<["jwks_uri" := VStr "https://auth.example.com/realms/main/certs"]> ∅).

Definition sampleMetadata : value := VObj sampleDocument.

Definition localhostMcp : URL :=
  {| scheme := "http"; authority := "localhost:3000"; path := "/mcp";
     query := None; fragment := None |}.

(** A provider whose first answer is 200 with a body that is not JSON, and
    whose later answers are 200 with a discovery document. *)
Definition htmlThenJsonWorld : World :=
  {| network := fun n _ =>
       match n with
       | O => Responded {| status := 200; json := Throw (Exn ClsSyntaxError "Unexpected token '<'") |}
       | S _ => Responded {| status := 200; json := Return sampleMetadata |}
       end;
     jose := noJose; clock := 1700000000000; calls := [] |}.

(** [cfg] with another value of MCP_OAUTH_PUBLIC_ISSUER_URL. *)
Definition withPublicIssuer (cfg : AuthConfig) (publicIssuer : option string) : AuthConfig :=
  {| env_MCP_PUBLIC_URL := env_MCP_PUBLIC_URL cfg;
     MCP_AUTH_MODE := MCP_AUTH_MODE cfg;
     MCP_BEARER_TOKEN := MCP_BEARER_TOKEN cfg;
     MCP_PUBLIC_URL := MCP_PUBLIC_URL cfg;
     MCP_OAUTH_INTERNAL_ISSUER_URL := MCP_OAUTH_INTERNAL_ISSUER_URL cfg;
     MCP_OAUTH_PUBLIC_ISSUER_URL := publicIssuer;
     MCP_OAUTH_CLIENT_ID := MCP_OAUTH_CLIENT_ID cfg;
     MCP_OAUTH_CLIENT_SECRET := MCP_OAUTH_CLIENT_SECRET cfg;
     MCP_OAUTH_INTROSPECTION_URL := MCP_OAUTH_INTROSPECTION_URL cfg;
     MCP_OAUTH_AUDIENCE := MCP_OAUTH_AUDIENCE cfg;
     MCP_OAUTH_VALIDATION_METHOD := MCP_OAUTH_VALIDATION_METHOD cfg;
     MCP_OAUTH_JWKS_URL := MCP_OAUTH_JWKS_URL cfg;
     MCP_OAUTH_EXPECTED_ISSUER := MCP_OAUTH_EXPECTED_ISSUER cfg;
     MCP_OAUTH_DISCOVERY_RETRIES := MCP_OAUTH_DISCOVERY_RETRIES cfg;
     MCP_OAUTH_DISCOVERY_RETRY_DELAY_MS := MCP_OAUTH_DISCOVERY_RETRY_DELAY_MS cfg |}.

(** The introspection endpoint and the JWKS URI of oauth mode: the override
    of the configuration, else the member of the discovered document. *)
Definition chosenIntrospectionEndpoint (cfg : AuthConfig) (discovered : gmap string value)
    : value :=
  coalesce (ofOption (MCP_OAUTH_INTROSPECTION_URL cfg)) (prop discovered "introspection_endpoint").

Definition chosenJwksUri (cfg : AuthConfig) (discovered : gmap string value) : value :=
  coalesce (ofOption (MCP_OAUTH_JWKS_URL cfg)) (prop discovered "jwks_uri").

Definition hasCredentials (cfg : AuthConfig) : bool :=
  negb (missing (MCP_OAUTH_CLIENT_ID cfg)) && negb (missing (MCP_OAUTH_CLIENT_SECRET cfg)).

(** The request the introspection verifier sends for [tok]. *)
Definition introspectionRequest (endpoint : value) (id secret : string) (url : URL)
    (tok : string) : Request :=
  PostForm (toStr endpoint) id secret
    [("token", tok); ("token_type_hint", "access_token"); ("resource", href url)].

(** The issuer https://auth.example.com/realms/main. *)
Definition realmIssuer : URL :=
  {| scheme := "https"; authority := "auth.example.com"; path := "/realms/main";
     query := None; fragment := None |}.

(** A discovery document whose authorization endpoint is not a URL. *)
Definition partlyBrokenMetadata : value :=
  VObj (<["issuer" := VStr "https://idp.internal:8080"]>
       (<["authorization_endpoint" := VStr "not a url"]>
       (<["token_endpoint" := VStr "https://idp.internal:8080/token"]> ∅))).

(** A JWT payload whose [client_id] is a number and whose [sub] is a string. *)
Definition numericClientPayload : gmap string value :=
  <["client_id" := VNum 42]> (<["sub" := VStr "alice"]> ∅).

(** A JWT payload whose [client_id] is null and whose [azp] is a string. *)
Definition nullClientPayload : gmap string value :=
  <["client_id" := VNull]> (<["azp" := VStr "spa-client"]> ∅).

(** An introspection response for an active token whose scope is the empty
    string, and a provider that always answers with it. *)
Definition emptyScopeResponse : gmap string value :=
  <["active" := VBool true]> (<["scope" := VStr ""]> ∅).

Definition emptyScopeWorld : World :=
  {| network := fun _ _ => Responded {| status := 200; json := Return (VObj emptyScopeResponse) |};
     jose := noJose; clock := 1700000000000; calls := [] |}.

(** A discovery document with two endpoints on an internal host. *)
Definition internalDocument : gmap string value :=
  <["authorization_endpoint" := VStr "https://idp.internal:8080/auth?x=1#top"]>
  (<["token_endpoint" := VStr "https://idp.internal:8080/token"]> ∅).

(** A JWT payload whose [scope] is a list holding an empty string. *)
Definition emptyEntryPayload : gmap string value :=
  <["scope" := VArr [VStr ""; VStr "read"]]> ∅.

(** *** Plain form

    The URLs on which the parser of [Url] and the URL class agree by
    construction: an http or https scheme, a host of lower-case letters,
    digits, dots and hyphens whose last label begins with a letter (so that
    it is no IPv4 number) and that holds no punycode label, an optional port
    written without leading zero, at most 65535 and not the default port of
    the scheme, a path of unreserved characters and slashes without dot
    segments, and a query and fragment of characters that are never
    escaped.  The URL class leaves such a string as it is: there is nothing
    to lower-case, drop, remove or encode. *)

Fixpoint allChars (p : ascii -> bool) (s : string) : bool :=
  match s with
  | EmptyString => true
  | String a rest => p a && allChars p rest
  end.

Definition isLowerLetter (a : ascii) : bool :=
  (97 <=? nat_of_ascii a) && (nat_of_ascii a <=? 122).

Definition isUpperLetter (a : ascii) : bool :=
  (65 <=? nat_of_ascii a) && (nat_of_ascii a <=? 90).

Definition isDecimalDigit (a : ascii) : bool :=
  (48 <=? nat_of_ascii a) && (nat_of_ascii a <=? 57).

Definition hostChar (a : ascii) : bool :=
  isLowerLetter a || isDecimalDigit a || Ascii.eqb a "." || Ascii.eqb a "-".

Definition pathChar (a : ascii) : bool :=
  isLowerLetter a || isUpperLetter a || isDecimalDigit a
  || Ascii.eqb a "-" || Ascii.eqb a "." || Ascii.eqb a "_" || Ascii.eqb a "~"
  || Ascii.eqb a "/".

Definition queryChar (a : ascii) : bool :=
  pathChar a || Ascii.eqb a "=" || Ascii.eqb a "&" || Ascii.eqb a "+".

Definition startsWithLowerLetter (s : string) : bool :=
  match s with
  | String a _ => isLowerLetter a
  | EmptyString => false
  end.

Definition plainHost (h : string) : bool :=
  negb (String.eqb h "")
  && allChars hostChar h
  && startsWithLowerLetter (List.last (split "." h) "")
  && negb (includes "xn--" h).

(** The number a string of digits denotes, continuing [acc]. *)
Fixpoint decimalValue (acc : Z) (s : string) : Z :=
  match s with
  | EmptyString => acc
  | String a rest => decimalValue (acc * 10 + (Z.of_nat (nat_of_ascii a) - 48)) rest
  end.

Definition defaultPort (sch : string) : Z :=
  if String.eqb sch "http" then 80 else 443.

Definition plainPort (sch p : string) : bool :=
  match p with
  | EmptyString => false
  | String a _ =>
      negb (Ascii.eqb a "0")
      && allChars isDecimalDigit p
      && (decimalValue 0 p <=? 65535)%Z
      && negb (decimalValue 0 p =? defaultPort sch)%Z
  end.

Definition plainAuthority (sch auth : string) : bool :=
  match split ":" auth with
  | [h] => plainHost h
  | [h; p] => plainHost h && plainPort sch p
  | _ => false
  end.

Definition noDotSegment (p : string) : bool :=
  forallb (fun segment => negb (String.eqb segment ".") && negb (String.eqb segment ".."))
          (split "/" p).

Definition plainComponent (component : option string) : bool :=
  match component with
  | Some c => allChars queryChar c
  | None => true
  end.

Definition plain (u : URL) : bool :=
  specialScheme (scheme u)
  && plainAuthority (scheme u) (authority u)
  && startsWithSlash (path u)
  && allChars pathChar (path u)
  && noDotSegment (path u)
  && plainComponent (query u)
  && plainComponent (fragment u).

(** A string without a colon has no scheme: [new URL] rejects it. *)
Definition noScheme (s : string) : bool := clean isColon s.

(** A member that is a non-empty string without a scheme. *)
Definition schemeless (v : value) : Prop :=
  match v with
  | VStr s => s <> "" /\ noScheme s = true
  | _ => False
  end.

(** A member that is no non-empty string, or that names a URL in plain form
    whose path does not begin with two slashes. *)
Definition plainRewritable (v : value) : Prop :=
  match v with
  | VStr s =>
      s = "" \/ exists u, parseURL s = Some u /\ plain u = true
                          /\ startsWithTwoSlashes (path u) = false
  | _ => True
  end.

(** A public issuer that is absent, empty, no URL for want of a scheme, or a
    URL in plain form. *)
Definition plainSetting (publicIssuer : option string) : Prop :=
  match publicIssuer with
  | None => True
  | Some pub =>
      pub = "" \/ noScheme pub = true \/ exists parsed, parseURL pub = Some parsed
                                                        /\ plain parsed = true
  end.

(** The configuration with client credentials, an introspection endpoint
    given by hand and a public issuer, and a provider whose document names an
    introspection endpoint of its own. *)
Definition overrideConfig : AuthConfig :=
  {| env_MCP_PUBLIC_URL := None; MCP_AUTH_MODE := "oauth"; MCP_BEARER_TOKEN := None;
     MCP_PUBLIC_URL := "http://localhost:3000/mcp";
     MCP_OAUTH_INTERNAL_ISSUER_URL := Some "https://auth.example.com/realms/main";
     MCP_OAUTH_PUBLIC_ISSUER_URL := Some "https://login.example.org";
     MCP_OAUTH_CLIENT_ID := Some "mcp"; MCP_OAUTH_CLIENT_SECRET := Some "s3cret";
     MCP_OAUTH_INTROSPECTION_URL := Some "https://introspect.example.com/check";
     MCP_OAUTH_AUDIENCE := None;
     MCP_OAUTH_VALIDATION_METHOD := MethodAuto; MCP_OAUTH_JWKS_URL := None;
     MCP_OAUTH_EXPECTED_ISSUER := None; MCP_OAUTH_DISCOVERY_RETRIES := 2;
     MCP_OAUTH_DISCOVERY_RETRY_DELAY_MS := 2000 |}.

Definition overrideDocument : gmap string value :=
  <["issuer" := VStr "https://auth.example.com/realms/main"]>
  (<["introspection_endpoint" := VStr "https://auth.example.com/realms/main/introspect"]>
  (<["jwks_uri" := VStr "https://auth.example.com/realms/main/certs"]> ∅)).

Definition overrideWorld : World :=
  {| network := fun _ _ => Responded {| status := 200; json := Return (VObj overrideDocument) |};
     jose := noJose; clock := 1700000000000; calls := [] |}.

End Spec.

(** ** config.ts: the constants as functions of the environment

    [process.env] is a finite map from variable names to strings.  Strings
    are read as UTF-8: the white space [parseInt] skips is listed byte for
    byte, and [toLowerCase] is modelled on the ASCII letters (the names its
    result is compared with are ASCII, and a string with another character
    never lower-cases to one of them).  Numbers are integers, exact where the
    source's doubles are (up to 2^53). *)

Module ConfigTs.
Import Js Config.

(** [a ?? b] on two optional strings. *)
Definition orElse (a b : option string) : option string :=
  match a with
  | Some _ => a
  | None => b
  end.

Definition isDigit (a : ascii) : bool :=
  (48 <=? nat_of_ascii a) && (nat_of_ascii a <=? 57).

Definition digitValue (a : ascii) : Z := Z.of_nat (nat_of_ascii a) - 48.

(** The value of the longest prefix of digits of [s], continuing [acc]. *)
Fixpoint digitsValue (acc : Z) (s : string) : Z :=
  match s with
  | EmptyString => acc
  | String a rest => if isDigit a then digitsValue (acc * 10 + digitValue a) rest else acc
  end.

(** ASCII white space: tab, line feed, vertical tab, form feed, carriage
    return and space. *)
Definition isAsciiSpace (a : ascii) : bool :=
  let n := nat_of_ascii a in
  ((9 <=? n) && (n <=? 13)) || (n =? 32).

(** The third byte of the white space characters that begin with the bytes
    E2 80: U+2000 to U+200A, U+2028, U+2029 and U+202F. *)
Definition isE280Space (a : ascii) : bool :=
  let n := nat_of_ascii a in
  ((128 <=? n) && (n <=? 138)) || (n =? 168) || (n =? 169) || (n =? 175).

(** [s] without its leading white space (the StrWhiteSpaceChar of
    ECMAScript, in UTF-8). *)
Fixpoint trimStart (s : string) : string :=
  match s with
  | String a rest =>
      if isAsciiSpace a then trimStart rest
      else
        match nat_of_ascii a, rest with
        | 194, String b rest2 =>
            if nat_of_ascii b =? 160 then trimStart rest2 else s
        | 225, String b (String c rest3) =>
            if (nat_of_ascii b =? 154) && (nat_of_ascii c =? 128) then trimStart rest3 else s
        | 226, String b (String c rest3) =>
            if ((nat_of_ascii b =? 128) && isE280Space c)
               || ((nat_of_ascii b =? 129) && (nat_of_ascii c =? 159))
            then trimStart rest3 else s
        | 227, String b (String c rest3) =>
            if (nat_of_ascii b =? 128) && (nat_of_ascii c =? 128) then trimStart rest3 else s
        | 239, String b (String c rest3) =>
            if (nat_of_ascii b =? 187) && (nat_of_ascii c =? 191) then trimStart rest3 else s
        | _, _ => s
        end
  | EmptyString => EmptyString
  end.

Definition startsWithDigit (s : string) : bool :=
  match s with
  | String a _ => isDigit a
  | EmptyString => false
  end.

(** [parseInt(s, 10)]; [None] is NaN.  The result is the exact integer,
    which the number of the source is between -2^53 and 2^53. *)
Definition parseInt (s : string) : option Z :=
  let trimmed := trimStart s in
  let '(negative, digits) :=
    match trimmed with
    | String "-" rest => (true, rest)
    | String "+" rest => (false, rest)
    | _ => (false, trimmed)
    end in
  if startsWithDigit digits then
    Some (if negative then - digitsValue 0 digits else digitsValue 0 digits)%Z
  else None.

Definition parseIntEnv (value : option string) (defaultValue : Z) : Z :=
  match value with
  | None => defaultValue
  | Some s =>
      if String.eqb s "" then defaultValue
      else match parseInt s with
           | Some parsed => parsed
           | None => defaultValue
           end
  end.

Definition parseStringEnv (value : option string) : option string :=
  match value with
  | Some s => if String.eqb s "" then None else Some s
  | None => None
  end.

Definition lowerAscii (a : ascii) : ascii :=
  let n := nat_of_ascii a in
  if (65 <=? n) && (n <=? 90) then ascii_of_nat (n + 32) else a.

Fixpoint toLowerCase (s : string) : string :=
  match s with
  | EmptyString => EmptyString
  | String a rest => String (lowerAscii a) (toLowerCase rest)
  end.

Definition parseValidationMethod (value : option string) : OAuthValidationMethod :=
  let normalized := toLowerCase (default "auto" value) in
  if String.eqb normalized "introspection" then MethodIntrospection
  else if String.eqb normalized "jwt" then MethodJwt
  else if String.eqb normalized "auto" then MethodAuto
  else MethodAuto.

(** The constant MCP_PORT. *)
Definition MCP_PORT (env : gmap string string) : Z :=
  parseIntEnv (env !! "MCP_PORT") 3000.

(** The constant MCP_OAUTH_ISSUER_URL. *)
Definition MCP_OAUTH_ISSUER_URL (env : gmap string string) : option string :=
  parseStringEnv (env !! "MCP_OAUTH_ISSUER_URL").

(** The constants of the module, for the environment [env]. *)
Definition loadConfig (env : gmap string string) : AuthConfig :=
  {| env_MCP_PUBLIC_URL := env !! "MCP_PUBLIC_URL";
     MCP_AUTH_MODE := toLowerCase (default "none" (env !! "MCP_AUTH_MODE"));
     MCP_BEARER_TOKEN :=
       parseStringEnv (orElse (env !! "MCP_BEARER_TOKEN") (env !! "BEARER_TOKEN"));
     MCP_PUBLIC_URL :=
       match env !! "MCP_PUBLIC_URL" with
       | Some s =>
           if String.eqb s "" then "http://localhost:" +:+ pretty (MCP_PORT env) +:+ "/mcp"
           else s
       | None => "http://localhost:" +:+ pretty (MCP_PORT env) +:+ "/mcp"
       end;
     MCP_OAUTH_INTERNAL_ISSUER_URL :=
       parseStringEnv (orElse (env !! "MCP_OAUTH_INTERNAL_ISSUER_URL") (MCP_OAUTH_ISSUER_URL env));
     MCP_OAUTH_PUBLIC_ISSUER_URL :=
       parseStringEnv (orElse (env !! "MCP_OAUTH_PUBLIC_ISSUER_URL") (MCP_OAUTH_ISSUER_URL env));
     MCP_OAUTH_CLIENT_ID := parseStringEnv (env !! "MCP_OAUTH_CLIENT_ID");
     MCP_OAUTH_CLIENT_SECRET := parseStringEnv (env !! "MCP_OAUTH_CLIENT_SECRET");
     MCP_OAUTH_INTROSPECTION_URL := parseStringEnv (env !! "MCP_OAUTH_INTROSPECTION_URL");
     MCP_OAUTH_AUDIENCE := parseStringEnv (env !! "MCP_OAUTH_AUDIENCE");
     MCP_OAUTH_VALIDATION_METHOD := parseValidationMethod (env !! "MCP_OAUTH_VALIDATION_METHOD");
     MCP_OAUTH_JWKS_URL := parseStringEnv (env !! "MCP_OAUTH_JWKS_URL");
     MCP_OAUTH_EXPECTED_ISSUER := parseStringEnv (env !! "MCP_OAUTH_EXPECTED_ISSUER");
     MCP_OAUTH_DISCOVERY_RETRIES := parseIntEnv (env !! "MCP_OAUTH_DISCOVERY_RETRIES") 30;
     MCP_OAUTH_DISCOVERY_RETRY_DELAY_MS :=
       parseIntEnv (env !! "MCP_OAUTH_DISCOVERY_RETRY_DELAY_MS") 2000 |}.

End ConfigTs.

(** ** auth.ts, introspection only

    The text of src/auth/auth.ts whose only validation method is token
    introspection.  Its functions up to [buildBearerAuthContext] are those of
    [Auth], word for word; [buildOAuthAuthContext] differs: it demands the
    client credentials before discovery and builds the introspection verifier
    in place. *)

Module AuthIntrospectionOnly.
Import Js Url Env Config Auth.

(** The object [verifier] that [buildOAuthAuthContext] builds in place, as a
    function of the variables it captures. *)
Definition inlineVerifier (cfg : AuthConfig) (introspectionEndpoint : value)
    (mcpPublicUrl : URL) : TokenVerifier :=
  {| verifyAccessToken := fun token =>
       tryCatch
         (response ← fetch (PostForm (toStr introspectionEndpoint)
                              (default "" (MCP_OAUTH_CLIENT_ID cfg))
                              (default "" (MCP_OAUTH_CLIENT_SECRET cfg))
                              [("token", token);
                               ("token_type_hint", "access_token");
                               ("resource", href mcpPublicUrl)]);
          if negb (ok response) then
            throw ClsInvalidTokenError
                  ("Token introspection failed: HTTP " +:+ pretty (status response))
          else
            data ← lift (json response);
            active ← lift (member data "active");
            match active with
            | VBool true =>
                aud ← lift (member data "aud");
                if negb (audienceMatches aud (MCP_OAUTH_AUDIENCE cfg)) then
                  throw ClsInvalidTokenError "Token audience does not match MCP_OAUTH_AUDIENCE"
                else
                  client_id ← lift (member data "client_id");
                  scope ← lift (member data "scope");
                  exp ← lift (member data "exp");
                  mret {| token := token;
                          clientId := match client_id with
                                      | VStr s => s
                                      | _ => default "unknown-client" (MCP_OAUTH_CLIENT_ID cfg)
                                      end;
                          scopes := match scope with
                                    | VStr s => split " " s
                                    | _ => []
                                    end;
                          expiresAt := numberOf exp |}
            | _ => throw ClsInvalidTokenError "Token is not active"
            end)
         (fun error =>
            match cls error with
            | ClsInvalidTokenError => lift (Throw error)
            | _ => throw ClsInvalidTokenError "Token introspection failed"
            end) |}.

Definition buildOAuthAuthContext (cfg : AuthConfig) (mcpPublicUrl : URL) : M AuthContext :=
  match MCP_OAUTH_INTERNAL_ISSUER_URL cfg with
  | None =>
      throw ClsError "MCP_OAUTH_INTERNAL_ISSUER_URL (or MCP_OAUTH_ISSUER_URL) is required when auth mode is oauth."
  | Some internalIssuerString =>
      if String.eqb internalIssuerString "" then
        throw ClsError "MCP_OAUTH_INTERNAL_ISSUER_URL (or MCP_OAUTH_ISSUER_URL) is required when auth mode is oauth."
      else if missing (MCP_OAUTH_CLIENT_ID cfg) then
        throw ClsError "MCP_OAUTH_CLIENT_ID is required when auth mode is oauth."
      else if missing (MCP_OAUTH_CLIENT_SECRET cfg) then
        throw ClsError "MCP_OAUTH_CLIENT_SECRET is required when auth mode is oauth."
      else
        issuer ← lift (newURL internalIssuerString);
        discoveredMetadata ← discoverOAuthMetadata cfg issuer;
        introspectionEndpoint ←
          match MCP_OAUTH_INTROSPECTION_URL cfg with
          | Some url => mret (VStr url)
          | None => lift (member discoveredMetadata "introspection_endpoint")
          end;
        oauthMetadata ← lift (rewriteOAuthMetadataIssuer discoveredMetadata
                                (MCP_OAUTH_PUBLIC_ISSUER_URL cfg));
        if negb (present introspectionEndpoint) then
          throw ClsError "OAuth metadata is missing an introspection_endpoint. Set MCP_OAUTH_INTROSPECTION_URL to override."
        else
          mret {| mode := ModeOauth;
                  middleware := Some {| verifier := inlineVerifier cfg introspectionEndpoint
                                                      mcpPublicUrl;
                                        requiredScopes := [];
                                        resourceServer := Some mcpPublicUrl |};
                  oauthMetadata := Some oauthMetadata;
                  validationMethod := None |}
  end.

End AuthIntrospectionOnly.

(** ** The openid-client library

    What the openid-client text of auth.ts sees of the library: discovery
    yields a configuration, of which the module reads the server metadata;
    token introspection and the userinfo request yield a JSON object or
    throw.  [discovery n] is the outcome of the call that [n] calls of
    [discovery] came before. *)

Module OidcClient.
Import Js Url.

Record Configuration : Type := {
  serverMetadata : gmap string value
}.

(** [clientAuthentication] is the secret given to [ClientSecretPost], when
    that argument is passed. *)
Inductive Event : Type :=
  | CallDiscovery (server : URL) (clientId : string) (metadata : option string)
                  (clientAuthentication : option string)
  | CallSleep (ms : Z)
  | CallTokenIntrospection (config : Configuration) (token : string)
  | CallFetchUserInfo (config : Configuration) (token : string).

Record World : Type := {
  discoveryOutcome : nat -> URL -> string -> option string -> option string
                     -> result Configuration;
  introspectionOutcome : Configuration -> string -> result (gmap string value);
  userInfoOutcome : Configuration -> string -> result (gmap string value);
  clock : Z;
  calls : list Event
}.

Definition record (e : Event) (w : World) : World :=
  {| discoveryOutcome := discoveryOutcome w; introspectionOutcome := introspectionOutcome w;
     userInfoOutcome := userInfoOutcome w; clock := clock w; calls := calls w ++ [e] |}.

Definition isDiscovery (e : Event) : bool :=
  match e with
  | CallDiscovery _ _ _ _ => true
  | _ => false
  end.

Definition discoveryCount (w : World) : nat := length (List.filter isDiscovery (calls w)).

Definition M (A : Type) : Type := World -> result A * World.

#[global] Instance M_ret : MRet M := fun A a w => (Return a, w).
#[global] Instance M_bind : MBind M := fun A B k m w =>
  match m w with
  | (Return a, w') => k a w'
  | (Throw e, w') => (Throw e, w')
  end.

Definition lift {A : Type} (r : result A) : M A := fun w => (r, w).

Definition throw {A : Type} (c : ErrorClass) (msg : string) : M A :=
  lift (Throw (Exn c msg)).

Definition tryCatch {A : Type} (body : M A) (handler : exn -> M A) : M A := fun w =>
  match body w with
  | (Return a, w') => (Return a, w')
  | (Throw e, w') => handler e w'
  end.

Definition sleep (ms : Z) : M unit := fun w => (Return tt, record (CallSleep ms) w).

Definition dateNow : M Z := fun w => (Return (clock w), w).

Definition discovery (server : URL) (clientId : string) (metadata : option string)
    (clientAuthentication : option string) : M Configuration := fun w =>
  (discoveryOutcome w (discoveryCount w) server clientId metadata clientAuthentication,
   record (CallDiscovery server clientId metadata clientAuthentication) w).

Definition tokenIntrospection (config : Configuration) (token : string)
    : M (gmap string value) := fun w =>
  (introspectionOutcome w config token, record (CallTokenIntrospection config token) w).

Definition fetchUserInfo (config : Configuration) (token : string)
    : M (gmap string value) := fun w =>
  (userInfoOutcome w config token, record (CallFetchUserInfo config token) w).

End OidcClient.

(** ** auth.ts on openid-client

    The text of src/auth/auth.ts that uses openid-client for discovery and
    validates tokens by introspection or by the userinfo endpoint.
    [resolveAuthMode] and [buildBearerAuthContext] are those of [Auth]. *)

Module AuthOidc.
Import Js Url Config OidcClient.

Inductive ValidationMethod : Type :=
  | Introspection
  | Userinfo.

(** [clientId] and [expiresAt] are declared [string] and [number]; the
    verifier fills them with members of the provider's answer, unchecked. *)
Record TokenVerifierResult : Type := {
  token : string;
  clientId : value;
  scopes : list string;
  expiresAt : value
}.

Record TokenVerifier : Type := {
  verifyAccessToken : string -> M TokenVerifierResult
}.

Record Middleware : Type := {
  verifier : TokenVerifier;
  requiredScopes : list string;
  resourceServer : option URL
}.

Record AuthContext : Type := {
  mode : Auth.AuthMode;
  middleware : option Middleware;
  oauthMetadata : option (gmap string value);
  validationMethod : option ValidationMethod
}.

(** Truthiness of a value, and of an optional string. *)
Definition truthyValue (v : value) : bool :=
  match v with
  | VUndefined | VNull => false
  | VBool b => b
  | VNum n => negb (n =? 0)%Z
  | VStr s => negb (String.eqb s "")
  | VArr _ | VObj _ => true
  end.

Definition truthyString (o : option string) : bool := negb (missing o).

(** [lastError?.message] in the template of the final error. *)
Definition lastMessage (lastError : option exn) : string :=
  match lastError with
  | Some e => message e
  | None => "undefined"
  end.

(** The loop of [discoverWithRetry], with [remaining] attempts to go from
    attempt number [attempt]. *)
Fixpoint discoveryAttempts (cfg : AuthConfig) (issuerUrl clientId : string)
    (clientSecret : option string) (remaining : nat) (attempt : Z) (lastError : option exn)
    : M Configuration :=
  match remaining with
  | O =>
      throw ClsError ("Unable to discover OIDC issuer at " +:+ issuerUrl +:+ ": "
                      +:+ lastMessage lastError)
  | S remaining' =>
      outcome ← tryCatch
        (server ← lift (newURL issuerUrl);
         config ← discovery server clientId clientSecret
                    (if truthyString clientSecret then clientSecret else None);
         mret (inr config))
        (fun error => mret (inl error));
      match outcome with
      | inr config => mret config
      | inl error =>
          _ ← (if (attempt <? MCP_OAUTH_DISCOVERY_RETRIES cfg)%Z
               then sleep (MCP_OAUTH_DISCOVERY_RETRY_DELAY_MS cfg)
               else mret tt);
          discoveryAttempts cfg issuerUrl clientId clientSecret remaining' (attempt + 1)%Z
            (Some error)
      end
  end.

Definition discoverWithRetry (cfg : AuthConfig) (issuerUrl clientId : string)
    (clientSecret : option string) : M Configuration :=
  discoveryAttempts cfg issuerUrl clientId clientSecret
    (Z.to_nat (MCP_OAUTH_DISCOVERY_RETRIES cfg)) 1%Z None.

(** The local function [remap] of [toOAuthMetadata]; its [catch] returns
    [url]. *)
Definition remap (publicIssuer : option string) (url : value) : value :=
  if negb (truthyValue url) || negb (truthyString publicIssuer) then url
  else
    match
      original ← newURL (toStr url);
      pub ← newURL (default "" publicIssuer);
      rewritten ← newURLFrom (pathname original +:+ search original) pub;
      Return (href rewritten)
    with
    | Return rewritten => VStr rewritten
    | Throw _ => url
    end.

Definition toOAuthMetadata (metadata : gmap string value) (publicIssuer : option string)
    : gmap string value :=
  let issuer :=
    match publicIssuer with
    | Some s => VStr s
    | None => prop metadata "issuer"
    end in
  <["jwks_uri" := remap publicIssuer (prop metadata "jwks_uri")]>
  (<["userinfo_endpoint" := remap publicIssuer (prop metadata "userinfo_endpoint")]>
  (<["code_challenge_methods_supported" := prop metadata "code_challenge_methods_supported"]>
  (<["introspection_endpoint_auth_methods_supported" :=
       prop metadata "introspection_endpoint_auth_methods_supported"]>
  (<["introspection_endpoint" := remap publicIssuer (prop metadata "introspection_endpoint")]>
  (<["revocation_endpoint_auth_methods_supported" :=
       prop metadata "revocation_endpoint_auth_methods_supported"]>
  (<["revocation_endpoint" := remap publicIssuer (prop metadata "revocation_endpoint")]>
  (<["token_endpoint_auth_methods_supported" :=
       prop metadata "token_endpoint_auth_methods_supported"]>
  (<["grant_types_supported" := prop metadata "grant_types_supported"]>
  (<["response_modes_supported" := prop metadata "response_modes_supported"]>
  (<["response_types_supported" := prop metadata "response_types_supported"]>
  (<["scopes_supported" := prop metadata "scopes_supported"]>
  (<["registration_endpoint" := remap publicIssuer (prop metadata "registration_endpoint")]>
  (<["token_endpoint" :=
       coalesce (remap publicIssuer (prop metadata "token_endpoint")) (VStr "")]>
  (<["authorization_endpoint" :=
       coalesce (remap publicIssuer (prop metadata "authorization_endpoint")) (VStr "")]>
  (<["issuer" := issuer]> ∅))))))))))))))).

(** The [catch] branch of the verifier, for an error that is no
    [InvalidTokenError]. *)
Definition classifyError (error : exn) : M TokenVerifierResult :=
  let message := message error in
  if includes "401" message || includes "unauthorized" message then
    throw ClsInvalidTokenError "Token rejected by authorization server"
  else if includes "invalid_token" message then
    throw ClsInvalidTokenError "Invalid or expired token"
  else throw ClsInvalidTokenError "Token validation failed".

Definition buildOidcTokenVerifier (config : Configuration) (useIntrospection : bool)
    : TokenVerifier :=
  {| verifyAccessToken := fun token =>
       tryCatch
         (if useIntrospection then
            result ← tokenIntrospection config token;
            if negb (truthyValue (prop result "active")) then
              throw ClsInvalidTokenError "Token is not active"
            else
              mret {| token := token;
                      clientId := coalesce (coalesce (prop result "client_id")
                                                     (prop result "sub"))
                                           (VStr "unknown");
                      scopes := match prop result "scope" with
                                | VStr s => split " " s
                                | _ => []
                                end;
                      expiresAt := prop result "exp" |}
          else
            userinfo ← fetchUserInfo config token;
            now ← dateNow;
            mret {| token := token;
                    clientId := coalesce (prop userinfo "sub") (VStr "unknown");
                    scopes := [];
                    expiresAt := VNum (now / 1000 + 3600)%Z |})
         (fun error =>
            match cls error with
            | ClsInvalidTokenError => lift (Throw error)
            | _ => classifyError error
            end) |}.

Definition buildOAuthAuthContext (cfg : AuthConfig) (mcpPublicUrl : URL) : M AuthContext :=
  if negb (truthyString (MCP_OAUTH_INTERNAL_ISSUER_URL cfg)) then
    throw ClsError "MCP_OAUTH_ISSUER_URL is required when auth mode is oauth."
  else
    let internalIssuerString := default "" (MCP_OAUTH_INTERNAL_ISSUER_URL cfg) in
    let clientId := default "mcp-server" (MCP_OAUTH_CLIENT_ID cfg) in
    let clientSecret := MCP_OAUTH_CLIENT_SECRET cfg in
    config ← discoverWithRetry cfg internalIssuerString clientId clientSecret;
    let serverMetadata := serverMetadata config in
    let hasClientCredentials :=
      truthyString (MCP_OAUTH_CLIENT_ID cfg) && truthyString (MCP_OAUTH_CLIENT_SECRET cfg) in
    let hasIntrospectionEndpoint := truthyValue (prop serverMetadata "introspection_endpoint") in
    let hasUserinfoEndpoint := truthyValue (prop serverMetadata "userinfo_endpoint") in
    let useIntrospection := hasClientCredentials && hasIntrospectionEndpoint in
    let validationMethod := if useIntrospection then Introspection else Userinfo in
    if negb useIntrospection && negb hasUserinfoEndpoint then
      throw ClsError ("OAuth configuration error: No userinfo endpoint available and no client credentials for introspection. " +:+
                      "Either provide MCP_OAUTH_CLIENT_ID and MCP_OAUTH_CLIENT_SECRET, or use an issuer with a userinfo endpoint.")
    else
      let verifier := buildOidcTokenVerifier config useIntrospection in
      let oauthMetadata := toOAuthMetadata serverMetadata (MCP_OAUTH_PUBLIC_ISSUER_URL cfg) in
      mret {| mode := Auth.ModeOauth;
              middleware := Some {| verifier := verifier;
                                    requiredScopes := [];
                                    resourceServer := Some mcpPublicUrl |};
              oauthMetadata := Some oauthMetadata;
              validationMethod := Some validationMethod |}.

End AuthOidc.

(** ** Notions used to state the properties of the openid-client text *)

Module OidcSpec.
Import Js Url Config OidcClient AuthOidc.

(** [original] moved to the scheme and authority of [pub], without its
    fragment. *)
Definition remapTarget (pub original : URL) : URL :=
  {| scheme := scheme pub; authority := authority pub;
     path := path original;
     query := Spec.dropEmpty (query original);
     fragment := None |}.

(** The members [toOAuthMetadata] remaps, and those of them it replaces by
    the empty string when they are missing. *)
Definition remappedKeys : list string :=
  ["authorization_endpoint"; "token_endpoint"; "registration_endpoint";
   "revocation_endpoint"; "introspection_endpoint"; "userinfo_endpoint"; "jwks_uri"].

Definition requiredKeys : list string := ["authorization_endpoint"; "token_endpoint"].

(** [w] after the calls [events]. *)
Definition after (w : World) (events : list Event) : World :=
  {| discoveryOutcome := discoveryOutcome w; introspectionOutcome := introspectionOutcome w;
     userInfoOutcome := userInfoOutcome w; clock := clock w; calls := calls w ++ events |}.

(** The call of [discovery] that [discoverWithRetry] makes at each attempt. *)
Definition discoveryCall (server : URL) (clientId : string) (clientSecret : option string)
    : Event :=
  CallDiscovery server clientId clientSecret
                (if truthyString clientSecret then clientSecret else None).

(** [n] attempts, each followed by a sleep. *)
Fixpoint failedAttempts (call : Event) (delay : Z) (n : nat) : list Event :=
  match n with
  | O => []
  | S n' => call :: CallSleep delay :: failedAttempts call delay n'
  end.

(** The attempts of a run in which all [n] attempts fail: no sleep follows
    the last one. *)
Definition allFailed (call : Event) (delay : Z) (n : nat) : list Event :=
  match n with
  | O => []
  | S n' => failedAttempts call delay n' ++ [call]
  end.

(** The metadata of a provider reached at an internal address. *)
Definition internalServerMetadata : gmap string value :=
  <["issuer" := VStr "http://keycloak:8080/realms/main"]>
  (<["token_endpoint" := VStr "http://keycloak:8080/realms/main/token?tenant=a#top"]>
  (<["userinfo_endpoint" := VStr "http://keycloak:8080/realms/main/userinfo"]>
  (<["jwks_uri" := VStr "certs"]> ∅))).

Definition internalConfiguration : Configuration :=
  {| serverMetadata := internalServerMetadata |}.

(** A provider that refuses the first connection and answers from the
    second on; it knows no token. *)
Definition slowProviderWorld : World :=
  {| discoveryOutcome := fun n _ _ _ _ =>
       match n with
       | O => Throw (Exn ClsError "connect ECONNREFUSED")
       | S _ => Return internalConfiguration
       end;
     introspectionOutcome := fun _ _ => Throw (Exn ClsError "unexpected HTTP response status code 401");
     userInfoOutcome := fun _ _ => Throw (Exn ClsError "unexpected HTTP response status code 401");
     clock := 1700000000000; calls := [] |}.

End OidcSpec.

(** ** Further notions and example data *)

Module More.
Import Js Url Env Config Auth Spec.

(** [cfg] with another retry count. *)
Definition withRetries (cfg : AuthConfig) (retries : Z) : AuthConfig :=
  {| env_MCP_PUBLIC_URL := env_MCP_PUBLIC_URL cfg;
     MCP_AUTH_MODE := MCP_AUTH_MODE cfg;
     MCP_BEARER_TOKEN := MCP_BEARER_TOKEN cfg;
     MCP_PUBLIC_URL := MCP_PUBLIC_URL cfg;
     MCP_OAUTH_INTERNAL_ISSUER_URL := MCP_OAUTH_INTERNAL_ISSUER_URL cfg;
     MCP_OAUTH_PUBLIC_ISSUER_URL := MCP_OAUTH_PUBLIC_ISSUER_URL cfg;
     MCP_OAUTH_CLIENT_ID := MCP_OAUTH_CLIENT_ID cfg;
     MCP_OAUTH_CLIENT_SECRET := MCP_OAUTH_CLIENT_SECRET cfg;
     MCP_OAUTH_INTROSPECTION_URL := MCP_OAUTH_INTROSPECTION_URL cfg;
     MCP_OAUTH_AUDIENCE := MCP_OAUTH_AUDIENCE cfg;
     MCP_OAUTH_VALIDATION_METHOD := MCP_OAUTH_VALIDATION_METHOD cfg;
     MCP_OAUTH_JWKS_URL := MCP_OAUTH_JWKS_URL cfg;
     MCP_OAUTH_EXPECTED_ISSUER := MCP_OAUTH_EXPECTED_ISSUER cfg;
     MCP_OAUTH_DISCOVERY_RETRIES := retries;
     MCP_OAUTH_DISCOVERY_RETRY_DELAY_MS := MCP_OAUTH_DISCOVERY_RETRY_DELAY_MS cfg |}.

(** The document [rewriteOAuthMetadataIssuer] builds from the object [o]
    for the public issuer [issuerUrl]. *)
Definition rewrittenDocument (issuerUrl : URL) (o : gmap string value) : gmap string value :=
  <["jwks_uri" := rewrittenMember issuerUrl (prop o "jwks_uri")]>
  (<["end_session_endpoint" := rewrittenMember issuerUrl (prop o "end_session_endpoint")]>
  (<["revocation_endpoint" := rewrittenMember issuerUrl (prop o "revocation_endpoint")]>
  (<["userinfo_endpoint" := rewrittenMember issuerUrl (prop o "userinfo_endpoint")]>
  (<["introspection_endpoint" := rewrittenMember issuerUrl (prop o "introspection_endpoint")]>
  (<["token_endpoint" := rewrittenMember issuerUrl (prop o "token_endpoint")]>
  (<["authorization_endpoint" := rewrittenMember issuerUrl (prop o "authorization_endpoint")]>
  (<["issuer" := VStr (href issuerUrl)]> o))))))).

(** An introspection response whose scope has a doubled and a trailing
    space, and a provider that always answers with it. *)
Definition spacedScopeResponse : gmap string value :=
  <["active" := VBool true]> (<["scope" := VStr "read  write "]> ∅).

Definition spacedScopeWorld : World :=
  {| network := fun _ _ => Responded {| status := 200; json := Return (VObj spacedScopeResponse) |};
     jose := noJose; clock := 1700000000000; calls := [] |}.

(** The two-round configuration with client credentials and an
    introspection endpoint given by hand. *)
Definition credentialConfig : AuthConfig :=
  {| env_MCP_PUBLIC_URL := None; MCP_AUTH_MODE := "oauth"; MCP_BEARER_TOKEN := None;
     MCP_PUBLIC_URL := "http://localhost:3000/mcp";
     MCP_OAUTH_INTERNAL_ISSUER_URL := Some "https://auth.example.com/realms/main";
     MCP_OAUTH_PUBLIC_ISSUER_URL := None;
     MCP_OAUTH_CLIENT_ID := Some "mcp"; MCP_OAUTH_CLIENT_SECRET := Some "s3cret";
     MCP_OAUTH_INTROSPECTION_URL := Some "https://auth.example.com/introspect";
     MCP_OAUTH_AUDIENCE := None;
     MCP_OAUTH_VALIDATION_METHOD := MethodAuto; MCP_OAUTH_JWKS_URL := None;
     MCP_OAUTH_EXPECTED_ISSUER := None; MCP_OAUTH_DISCOVERY_RETRIES := 2;
     MCP_OAUTH_DISCOVERY_RETRY_DELAY_MS := 2000 |}.

(** Two verifiers that answer alike, effects included, on every token in
    every world. *)
Definition sameVerdicts (v1 v2 : TokenVerifier) : Prop :=
  forall token w, verifyAccessToken v1 token w = verifyAccessToken v2 token w.

(** [k] spaces. *)
Fixpoint spaces (k : nat) : string :=
  match k with
  | O => EmptyString
  | S k' => String " " (spaces k')
  end.

End More.

(** * Properties *)

Import Js Url Env Config Auth Spec.

(** Case analysis on a scrutinee that contains no other case analysis. *)
Ltac break_match :=
  match goal with
  | |- context [match ?x with _ => _ end] =>
      lazymatch x with
      | context [match _ with _ => _ end] => fail
      | _ => destruct x eqn:?
      end
  end.

(** ** Values *)

Lemma value_ind_nested (P : value -> Prop) :
  P VUndefined -> P VNull -> (forall b, P (VBool b)) -> (forall n, P (VNum n)) ->
  (forall s, P (VStr s)) ->
  (forall items, Forall P items -> P (VArr items)) ->
  (forall members, P (VObj members)) ->
  forall v, P v.
Proof.
  intros Hu Hn Hb Hz Hs Ha Ho.
  fix IH 1. intros [ | | b | n | s | items | members].
  - exact Hu.
  - exact Hn.
  - apply Hb.
  - apply Hz.
  - apply Hs.
  - apply Ha. induction items as [|item items IHitems]; constructor.
    + apply IH.
    + exact IHitems.
  - apply Ho.
Qed.

Lemma eqb_refl_true (s : string) : String.eqb s s = true.
Proof. apply String.eqb_eq. reflexivity. Qed.

Lemma eqb_false_of_ne (s t : string) : s <> t -> String.eqb s t = false.
Proof. intros H. apply String.eqb_neq. exact H. Qed.

(** ** C1: the validation-method resolver *)

(** C1. [resolveValidationMethod] follows the decision table.  Forced
    introspection returns introspection exactly when credentials and an
    introspection endpoint are both there; without credentials the error
    names the two credential variables, with credentials but without an
    endpoint it names the introspection endpoint and its override variable.
    Forced jwt returns jwt exactly when a JWKS URI is there, and otherwise
    fails naming MCP_OAUTH_JWKS_URL.  Auto returns introspection when
    credentials and endpoint are both there, else jwt when a JWKS URI is
    there, else fails with one message when credentials are there (and no
    endpoint) and with a different one when there are no credentials. *)
Theorem resolveValidationMethod_decision_table :
  (forall creds ep jwks,
     resolveValidationMethod MethodIntrospection creds ep jwks = Return Introspection
     <-> creds = true /\ ep = true) /\
  (forall ep jwks, exists msg,
     resolveValidationMethod MethodIntrospection false ep jwks = Throw (Exn ClsError msg)
     /\ includes "MCP_OAUTH_CLIENT_ID" msg = true
     /\ includes "MCP_OAUTH_CLIENT_SECRET" msg = true) /\
  (forall jwks, exists msg,
     resolveValidationMethod MethodIntrospection true false jwks = Throw (Exn ClsError msg)
     /\ includes "Introspection endpoint not available" msg = true
     /\ includes "MCP_OAUTH_INTROSPECTION_URL" msg = true) /\
  (forall creds ep jwks,
     resolveValidationMethod MethodJwt creds ep jwks = Return Jwt <-> jwks = true) /\
  (forall creds ep, exists msg,
     resolveValidationMethod MethodJwt creds ep false = Throw (Exn ClsError msg)
     /\ includes "MCP_OAUTH_JWKS_URL" msg = true) /\
  (forall jwks, resolveValidationMethod MethodAuto true true jwks = Return Introspection) /\
  (forall ep, resolveValidationMethod MethodAuto false ep true = Return Jwt) /\
  resolveValidationMethod MethodAuto true false true = Return Jwt /\
  (exists noEndpoint noCapability,
     resolveValidationMethod MethodAuto true false false = Throw (Exn ClsError noEndpoint)
     /\ (forall ep, resolveValidationMethod MethodAuto false ep false
                    = Throw (Exn ClsError noCapability))
     /\ noEndpoint <> noCapability
     /\ includes "client credentials provided but no introspection endpoint" noEndpoint = true
     /\ includes "no client credentials and no JWKS URI" noCapability = true).
Proof.
  split; [|split; [|split; [|split; [|split; [|split; [|split; [|split]]]]]]].
  - intros creds ep jwks. split.
    + destruct creds, ep; simpl; intros H; try discriminate H; split; reflexivity.
    + intros [-> ->]. reflexivity.
  - intros ep jwks. eexists. split; [reflexivity|]. split; vm_compute; reflexivity.
  - intros jwks. eexists. split; [reflexivity|]. split; vm_compute; reflexivity.
  - intros creds ep jwks. split.
    + destruct jwks; simpl; intros H; try discriminate H; reflexivity.
    + intros ->. reflexivity.
  - intros creds ep. eexists. split; [reflexivity|]. vm_compute; reflexivity.
  - intros []; reflexivity.
  - intros []; reflexivity.
  - reflexivity.
  - do 2 eexists. split; [reflexivity|]. split; [intros []; reflexivity|].
    split; [|split; vm_compute; reflexivity].
    apply String.eqb_neq. vm_compute. reflexivity.
Qed.

(** ** C4: the audience matcher *)

Lemma existsb_audience_of_present (e : string) (items : list value) :
  e <> "" -> presentIn e items ->
  existsb (fun item => audienceMatches item (Some e)) items = true.
Proof.
  intros Hne Hp. induction Hp as [items Hin | items sub Hin _ IH].
  - apply existsb_exists. exists (VStr e). split; [exact Hin|].
    simpl. rewrite (eqb_false_of_ne _ _ Hne). apply eqb_refl_true.
  - apply existsb_exists. exists (VArr sub). split; [exact Hin|].
    simpl. rewrite (eqb_false_of_ne _ _ Hne). exact IH.
Qed.

Lemma audienceMatches_nonempty (e : string) (aud : value) :
  e <> "" ->
  audienceMatches aud (Some e) = true ->
  aud = VStr e \/ exists items, aud = VArr items /\ presentIn e items.
Proof.
  intros Hne. induction aud as [ | | b | n | s | items IH | members] using value_ind_nested;
    simpl; rewrite (eqb_false_of_ne _ _ Hne); try discriminate.
  - intros H. left. apply String.eqb_eq in H. congruence.
  - intros H. right. exists items. split; [reflexivity|].
    apply existsb_exists in H. destruct H as (item & Hin & Hitem).
    rewrite List.Forall_forall in IH.
    destruct (IH item Hin Hitem) as [-> | (sub & -> & Hsub)].
    + apply present_here. exact Hin.
    + apply present_nested with sub; assumption.
Qed.

(** C4. [audienceMatches aud expected] is true exactly when the expected
    audience is undefined or the empty string, or [aud] is the expected
    string, or [aud] is an array in which the expected string is present
    (as an entry, or in an array nested in it); in every other case it is
    false. *)
Theorem audienceMatches_spec (aud : value) (expected : option string) :
  audienceMatches aud expected = true <->
  expected = None \/ expected = Some "" \/
  exists e, expected = Some e /\
            (aud = VStr e \/ exists items, aud = VArr items /\ presentIn e items).
Proof.
  split.
  - destruct expected as [e|]; [|auto].
    destruct (String.eqb e "") eqn:He.
    + apply String.eqb_eq in He. subst e. auto.
    + apply String.eqb_neq in He. intros H. right. right. exists e.
      split; [reflexivity|]. apply audienceMatches_nonempty; assumption.
  - intros [-> | [-> | (e & -> & H)]].
    + destruct aud; reflexivity.
    + destruct aud; reflexivity.
    + destruct (String.eqb e "") eqn:He.
      * destruct aud; simpl; rewrite He; reflexivity.
      * apply String.eqb_neq in He. destruct H as [-> | (items & -> & Hp)].
        -- simpl. rewrite (eqb_false_of_ne _ _ He). apply eqb_refl_true.
        -- simpl. rewrite (eqb_false_of_ne _ _ He).
           apply existsb_audience_of_present; assumption.
Qed.

(** For an array of strings, presence is membership. *)
Lemma presentIn_strings (e : string) (entries : list string) :
  presentIn e (map VStr entries) <-> In e entries.
Proof.
  split.
  - intros H. remember (map VStr entries) as items eqn:Hitems.
    destruct H as [items Hin | items sub Hin _]; subst items.
    + apply in_map_iff in Hin. destruct Hin as (x & [= ->] & Hx). exact Hx.
    + apply in_map_iff in Hin. destruct Hin as (x & [=] & _).
  - intros H. apply present_here. apply in_map. exact H.
Qed.

(** ** C8: the client identifier of a JWT payload *)

(** C8 (as implemented). [extractClientId] returns the first of the claims
    client_id, azp, cid, sub that is present and not null when that value is
    a string, and "unknown-client" otherwise: when none of the four is present
    and not null, or when the first such value is not a string.  Claims that
    are absent or null are skipped, so a string held by a later claim is
    returned when every earlier claim is absent or null. *)
Theorem extractClientId_first_present (payload : gmap string value) :
  extractClientId payload =
    match firstClaim payload ["client_id"; "azp"; "cid"; "sub"] with
    | Some (VStr s) => s
    | _ => "unknown-client"
    end
  /\ (forall s, prop payload "client_id" = VStr s -> extractClientId payload = s)
  /\ (forall s, nullish (prop payload "client_id") = true ->
                prop payload "azp" = VStr s -> extractClientId payload = s)
  /\ (forall s, nullish (prop payload "client_id") = true ->
                nullish (prop payload "azp") = true ->
                prop payload "cid" = VStr s -> extractClientId payload = s)
  /\ (forall s, nullish (prop payload "client_id") = true ->
                nullish (prop payload "azp") = true ->
                nullish (prop payload "cid") = true ->
                prop payload "sub" = VStr s -> extractClientId payload = s)
  /\ (nullish (prop payload "client_id") = true ->
      nullish (prop payload "azp") = true ->
      nullish (prop payload "cid") = true ->
      nullish (prop payload "sub") = true -> extractClientId payload = "unknown-client").
Proof.
  unfold extractClientId, coalesce, firstClaim, prop.
  split; [|split; [|split; [|split; [|split]]]].
  - destruct (payload !! "client_id") as [[]|]; simpl; try reflexivity;
    destruct (payload !! "azp") as [[]|]; simpl; try reflexivity;
    destruct (payload !! "cid") as [[]|]; simpl; try reflexivity;
    destruct (payload !! "sub") as [[]|]; simpl; reflexivity.
  - intros s ->. reflexivity.
  - intros s -> ->. reflexivity.
  - intros s -> -> ->. reflexivity.
  - intros s -> -> -> ->. reflexivity.
  - intros -> -> ->. destruct (default VUndefined (payload !! "sub")); simpl;
      intros H; try discriminate H; reflexivity.
Qed.

(** A null client_id is skipped: the authorized party is returned. *)
Lemma extractClientId_first_present_witness :
  extractClientId nullClientPayload = "spa-client".
Proof.
  apply (proj1 (proj2 (proj2 (extractClientId_first_present nullClientPayload))));
    reflexivity.
Defined.

(** C8, counterexample.  With client_id a number and sub a string, the
    number is present but unusable, and it prevents the subject from being
    returned: the result is the sentinel. *)
Lemma extractClientId_unusable_claim_blocks :
  prop numericClientPayload "client_id" = VNum 42 /\
  prop numericClientPayload "sub" = VStr "alice" /\
  extractClientId numericClientPayload = "unknown-client" /\
  extractClientId numericClientPayload <> "alice".
Proof.
  repeat split; try (vm_compute; reflexivity).
  intros H. vm_compute in H. discriminate H.
Qed.

(** ** C10: scopes of JWT payloads and of introspection responses *)

Lemma split_not_nil (c : ascii) (s : string) : split c s <> [].
Proof.
  destruct s as [|a rest]; simpl; [discriminate|].
  destruct (Ascii.eqb a c); [discriminate|].
  destruct (split c rest); discriminate.
Qed.

Lemma filter_nonEmpty_no_empty (pieces : list string) :
  ~ In "" (List.filter nonEmpty pieces).
Proof.
  intros H. apply filter_In in H. destruct H as [_ H]. discriminate H.
Qed.

(** The introspection verifier on an HTTP success whose body is an object
    with [active] true and a matching audience. *)
Lemma introspection_verifier_active (cfg : AuthConfig) (endpoint : value)
    (id secret : string) (url : URL) (tok : string) (w : World)
    (r : Response) (o : gmap string value) :
  let req := PostForm (toStr endpoint) id secret
               [("token", tok); ("token_type_hint", "access_token"); ("resource", href url)] in
  network w (fetchCount w) req = Responded r ->
  ok r = true ->
  json r = Return (VObj o) ->
  prop o "active" = VBool true ->
  audienceMatches (prop o "aud") (MCP_OAUTH_AUDIENCE cfg) = true ->
  verifyAccessToken (buildIntrospectionVerifier cfg endpoint id secret url) tok w =
    (Return {| token := tok;
               clientId := match prop o "client_id" with VStr s => s | _ => id end;
               scopes := match prop o "scope" with VStr s => split " " s | _ => [] end;
               expiresAt := numberOf (prop o "exp") |},
     record (CallFetch req) w).
Proof.
  intros req Hnet Hok Hjson Hactive Haud.
  unfold buildIntrospectionVerifier, verifyAccessToken, tryCatch, mbind, M_bind, fetch.
  fold req. rewrite Hnet, Hok. simpl. unfold lift. rewrite Hjson. simpl.
  rewrite Hactive. simpl. rewrite Haud. simpl. reflexivity.
Qed.

(** C10 (as implemented).  For a string-valued scope claim the JWT scope extractor
    returns the non-empty fragments of the string, so never an empty-string
    entry, and the empty list for the empty string.  The introspection
    verifier splits a string [scope] member without filtering: the result is
    never the empty list, it is the one-element list holding the empty string
    for the empty string, and the empty list comes out exactly when the
    member is absent or not a string. *)
Theorem scope_extraction_string_claims :
  (forall (payload : gmap string value) s,
     coalesce (prop payload "scope") (prop payload "scp") = VStr s ->
     extractScopes payload = List.filter nonEmpty (split " " s)
     /\ ~ In "" (extractScopes payload)) /\
  (forall payload : gmap string value,
     prop payload "scope" = VStr "" -> extractScopes payload = []) /\
  (forall cfg endpoint id secret url tok w r (o : gmap string value),
     network w (fetchCount w)
       (PostForm (toStr endpoint) id secret
          [("token", tok); ("token_type_hint", "access_token"); ("resource", href url)])
       = Responded r ->
     ok r = true ->
     json r = Return (VObj o) ->
     prop o "active" = VBool true ->
     audienceMatches (prop o "aud") (MCP_OAUTH_AUDIENCE cfg) = true ->
     exists res w',
       verifyAccessToken (buildIntrospectionVerifier cfg endpoint id secret url) tok w
         = (Return res, w')
       /\ (forall s, prop o "scope" = VStr s -> scopes res = split " " s /\ scopes res <> [])
       /\ (prop o "scope" = VStr "" -> scopes res = [""])
       /\ (scopes res = [] <-> forall s, prop o "scope" <> VStr s)).
Proof.
  split; [|split].
  - intros payload s H. unfold extractScopes. rewrite H.
    split; [reflexivity|]. apply filter_nonEmpty_no_empty.
  - intros payload H. unfold extractScopes, coalesce. rewrite H. reflexivity.
  - intros cfg endpoint id secret url tok w r o Hnet Hok Hjson Hactive Haud.
    do 2 eexists. split.
    + eapply introspection_verifier_active; eassumption.
    + simpl. split; [|split].
      * intros s ->. split; [reflexivity|]. apply split_not_nil.
      * intros ->. reflexivity.
      * destruct (prop o "scope") as [ | | b | n | s | items | members];
          try (split; [intros _ s'; discriminate | reflexivity]).
        split.
        -- intros H. exfalso. exact (split_not_nil _ _ H).
        -- intros H. exfalso. exact (H s eq_refl).
Qed.

(** An active token whose introspection response has the scope "". *)
Lemma scope_extraction_string_claims_witness :
  exists res w',
    verifyAccessToken
      (buildIntrospectionVerifier twoRoundConfig (VStr "https://auth.example.com/introspect")
         "mcp" "s3cret" localhostMcp) "opaque-token" emptyScopeWorld
    = (Return res, w')
    /\ scopes res = [""].
Proof.
  destruct (proj2 (proj2 scope_extraction_string_claims)
              twoRoundConfig (VStr "https://auth.example.com/introspect") "mcp" "s3cret"
              localhostMcp "opaque-token" emptyScopeWorld
              {| status := 200; json := Return (VObj emptyScopeResponse) |} emptyScopeResponse
              eq_refl eq_refl eq_refl eq_refl eq_refl)
    as (res & w' & Hverify & _ & Hempty & _).
  exists res, w'. split; [exact Hverify|]. apply Hempty. reflexivity.
Defined.

(** C10, counterexample.  A list-valued scope claim keeps its string
    entries as they are: the JWT scope extractor returns an empty-string
    entry. *)
Lemma extractScopes_keeps_empty_entry :
  extractScopes emptyEntryPayload = [""; "read"] /\ In "" (extractScopes emptyEntryPayload).
Proof.
  assert (H : extractScopes emptyEntryPayload = [""; "read"]) by (vm_compute; reflexivity).
  split; [exact H|]. rewrite H. left. reflexivity.
Qed.

(** ** C3: bearer mode *)

(** C3. Without a configured token (undefined or empty)
    [buildBearerAuthContext] throws an error naming MCP_BEARER_TOKEN, so no
    context and no verifier exist.  With a token it returns a bearer context
    whose verifier accepts a presented string exactly when it equals the
    token: the result then has clientId "local-user", scopes ["mcp:tools"] and
    expiresAt 24 hours after the current time in seconds; any other string is
    refused with an InvalidTokenError. *)
Theorem bearer_mode_spec (cfg : AuthConfig) :
  (missing (MCP_BEARER_TOKEN cfg) = true ->
   exists msg, buildBearerAuthContext cfg = Throw (Exn ClsError msg)
               /\ includes "MCP_BEARER_TOKEN" msg = true) /\
  (forall configured, MCP_BEARER_TOKEN cfg = Some configured -> configured <> "" ->
   exists ctx mw,
     buildBearerAuthContext cfg = Return ctx
     /\ mode ctx = ModeBearer
     /\ middleware ctx = Some mw
     /\ forall presented w,
          (presented = configured ->
           verifyAccessToken (verifier mw) presented w =
             (Return {| token := presented; clientId := "local-user";
                        scopes := ["mcp:tools"];
                        expiresAt := Some (clock w / 1000 + 86400)%Z |}, w))
          /\ (presented <> configured ->
              exists msg, verifyAccessToken (verifier mw) presented w =
                            (Throw (Exn ClsInvalidTokenError msg), w))
          /\ ((exists res, fst (verifyAccessToken (verifier mw) presented w) = Return res)
              <-> presented = configured)).
Proof.
  split.
  - unfold buildBearerAuthContext, missing.
    destruct (MCP_BEARER_TOKEN cfg) as [configured|].
    + intros ->. eexists. split; [reflexivity|]. vm_compute. reflexivity.
    + intros _. eexists. split; [reflexivity|]. vm_compute. reflexivity.
  - intros configured Hcfg Hne. unfold buildBearerAuthContext. rewrite Hcfg.
    rewrite (eqb_false_of_ne _ _ Hne). do 2 eexists.
    split; [reflexivity|]. split; [reflexivity|]. split; [reflexivity|].
    intros presented w. simpl.
    destruct (String.eqb presented configured) eqn:Heq.
    + apply String.eqb_eq in Heq. subst presented. simpl.
      split; [intros _; reflexivity|]. split; [intros H; contradiction|].
      split; [reflexivity|]. intros _. eexists. reflexivity.
    + apply String.eqb_neq in Heq. simpl.
      split; [intros H; contradiction|]. split; [intros _; eexists; reflexivity|].
      split; [|intros H; contradiction]. intros [res H]. discriminate H.
Qed.

(** Scenario B of the specification: secret "abc123". *)
Lemma bearer_mode_spec_witness :
  exists ctx mw,
    buildBearerAuthContext
      {| env_MCP_PUBLIC_URL := None; MCP_AUTH_MODE := "bearer";
         MCP_BEARER_TOKEN := Some "abc123"; MCP_PUBLIC_URL := "http://localhost:3000/mcp";
         MCP_OAUTH_INTERNAL_ISSUER_URL := None; MCP_OAUTH_PUBLIC_ISSUER_URL := None;
         MCP_OAUTH_CLIENT_ID := None; MCP_OAUTH_CLIENT_SECRET := None;
         MCP_OAUTH_INTROSPECTION_URL := None; MCP_OAUTH_AUDIENCE := None;
         MCP_OAUTH_VALIDATION_METHOD := MethodAuto; MCP_OAUTH_JWKS_URL := None;
         MCP_OAUTH_EXPECTED_ISSUER := None; MCP_OAUTH_DISCOVERY_RETRIES := 30;
         MCP_OAUTH_DISCOVERY_RETRY_DELAY_MS := 2000 |} = Return ctx
    /\ middleware ctx = Some mw
    /\ forall w,
         verifyAccessToken (verifier mw) "abc123" w =
           (Return {| token := "abc123"; clientId := "local-user"; scopes := ["mcp:tools"];
                      expiresAt := Some (clock w / 1000 + 86400)%Z |}, w)
         /\ exists msg, verifyAccessToken (verifier mw) "wrong" w =
                          (Throw (Exn ClsInvalidTokenError msg), w).
Proof.
  destruct (proj2 (bearer_mode_spec
                     {| env_MCP_PUBLIC_URL := None; MCP_AUTH_MODE := "bearer";
                        MCP_BEARER_TOKEN := Some "abc123";
                        MCP_PUBLIC_URL := "http://localhost:3000/mcp";
                        MCP_OAUTH_INTERNAL_ISSUER_URL := None;
                        MCP_OAUTH_PUBLIC_ISSUER_URL := None;
                        MCP_OAUTH_CLIENT_ID := None; MCP_OAUTH_CLIENT_SECRET := None;
                        MCP_OAUTH_INTROSPECTION_URL := None; MCP_OAUTH_AUDIENCE := None;
                        MCP_OAUTH_VALIDATION_METHOD := MethodAuto; MCP_OAUTH_JWKS_URL := None;
                        MCP_OAUTH_EXPECTED_ISSUER := None; MCP_OAUTH_DISCOVERY_RETRIES := 30;
                        MCP_OAUTH_DISCOVERY_RETRY_DELAY_MS := 2000 |})
                  "abc123" eq_refl ltac:(discriminate))
    as (ctx & mw & Hctx & _ & Hmw & Hverify).
  exists ctx, mw. split; [exact Hctx|]. split; [exact Hmw|].
  intros w. split.
  - apply (proj1 (Hverify "abc123" w)). reflexivity.
  - apply (proj1 (proj2 (Hverify "wrong" w))). discriminate.
Defined.

(** ** Strings and URLs *)

#[local] Arguments String.append !s1 s2 : simpl nomatch.

Lemma append_assoc (s t u : string) : (s +:+ t) +:+ u = s +:+ (t +:+ u).
Proof. induction s as [|a s IH]; simpl; [reflexivity|]. f_equal. exact IH. Qed.

Lemma append_empty_r (s : string) : s +:+ "" = s.
Proof. induction s as [|a s IH]; simpl; [reflexivity|]. f_equal. exact IH. Qed.

Lemma clean_append (stop : ascii -> bool) (s t : string) :
  clean stop (s +:+ t) = clean stop s && clean stop t.
Proof.
  induction s as [|a s IH]; simpl; [reflexivity|].
  rewrite IH. destruct (stop a); reflexivity.
Qed.

Lemma clean_weaken (stop stop' : ascii -> bool) (s : string) :
  (forall a, stop' a = true -> stop a = true) ->
  clean stop s = true -> clean stop' s = true.
Proof.
  intros Himp. induction s as [|a s IH]; simpl; [reflexivity|].
  intros H. apply andb_prop in H. destruct H as [Ha Hs].
  rewrite (IH Hs), andb_true_r.
  destruct (stop' a) eqn:E; [|reflexivity].
  rewrite (Himp a E) in Ha. discriminate Ha.
Qed.

Lemma span_append_clean (stop : ascii -> bool) (s t : string) :
  clean stop s = true ->
  span stop (s +:+ t) = (s +:+ fst (span stop t), snd (span stop t)).
Proof.
  induction s as [|a s IH]; simpl.
  - intros _. destruct (span stop t); reflexivity.
  - intros H. apply andb_prop in H. destruct H as [Ha Hs].
    apply negb_true_iff in Ha. rewrite Ha, (IH Hs). reflexivity.
Qed.

Lemma span_clean (stop : ascii -> bool) (s : string) :
  clean stop s = true -> span stop s = (s, "").
Proof.
  intros H. rewrite <- (append_empty_r s) at 1.
  rewrite (span_append_clean _ _ _ H). simpl. rewrite append_empty_r. reflexivity.
Qed.

Lemma span_spec (stop : ascii -> bool) (s before after : string) :
  span stop s = (before, after) ->
  s = before +:+ after /\ clean stop before = true /\
  match after with
  | EmptyString => True
  | String a _ => stop a = true
  end.
Proof.
  revert before after. induction s as [|a s IH]; simpl; intros before after.
  - intros [= <- <-]. auto.
  - destruct (stop a) eqn:Ha.
    + intros [= <- <-]. auto.
    + destruct (span stop s) as [b r]. intros [= <- <-].
      destruct (IH b r eq_refl) as (-> & Hb & Hr).
      simpl. rewrite Ha. auto.
Qed.

Lemma skip_no_slash (s : string) : startsWithSlash s = false -> skip isSlash s = s.
Proof. destruct s as [|a s]; simpl; [reflexivity|]. intros ->. reflexivity. Qed.

Lemma clean_authority_no_slash (s : string) :
  clean endsAuthority s = true -> startsWithSlash s = false.
Proof.
  destruct s as [|a s]; simpl; [reflexivity|].
  intros H. apply andb_prop in H. destruct H as [Ha _].
  unfold endsAuthority in Ha. apply negb_true_iff, orb_false_elim in Ha.
  exact (proj1 Ha).
Qed.

Lemma specialScheme_cases (sch : string) :
  specialScheme sch = true -> sch = "http" \/ sch = "https".
Proof.
  unfold specialScheme. intros H. apply orb_prop in H.
  destruct H as [H | H]; apply String.eqb_eq in H; auto.
Qed.

Lemma parseQueryFragment_wellFormed (s : string) (q f : option string) :
  parseQueryFragment s = (q, f) ->
  match q with Some q' => clean isHash q' = true | None => True end.
Proof.
  unfold parseQueryFragment. destruct s as [|a s]; [intros [= <- <-]; exact I|].
  destruct (Ascii.eqb a "?") eqn:Eq.
  - apply Ascii.eqb_eq in Eq. subst a.
    destruct (span isHash s) as [q' after] eqn:Hspan. intros [= <- <-].
    exact (proj1 (proj2 (span_spec _ _ _ _ Hspan))).
  - destruct (Ascii.eqb a "#") eqn:Eh.
    + apply Ascii.eqb_eq in Eh. subst a. intros [= <- <-]. exact I.
    + destruct a as [[] [] [] [] [] [] [] []]; try discriminate Eq; try discriminate Eh;
        intros [= <- <-]; exact I.
Qed.

Lemma parseAfterScheme_wellFormed (sch rest : string) (u : URL) :
  specialScheme sch = true -> parseAfterScheme sch rest = Some u -> wellFormed u = true.
Proof.
  intros Hsch. unfold parseAfterScheme.
  destruct (span endsAuthority (skip isSlash rest)) as [auth afterAuth] eqn:Hauth.
  destruct (String.eqb auth "") eqn:Hempty; [discriminate|].
  destruct (span endsPath afterAuth) as [p afterPath] eqn:Hpath.
  destruct (parseQueryFragment afterPath) as [q f] eqn:Hqf.
  intros [= <-]. unfold wellFormed. simpl.
  destruct (span_spec _ _ _ _ Hauth) as (_ & Hcleanauth & Hnext).
  destruct (span_spec _ _ _ _ Hpath) as (HafterAuth & Hcleanp & _).
  rewrite Hsch, Hempty, Hcleanauth. simpl.
  pose proof (parseQueryFragment_wellFormed _ _ _ Hqf) as Hq.
  assert (Hp : startsWithSlash (if String.eqb p "" then "/" else p) = true
               /\ clean endsPath (if String.eqb p "" then "/" else p) = true).
  { destruct p as [|a p]; [split; reflexivity|]. simpl String.eqb. cbv iota.
    split; [|exact Hcleanp].
    rewrite HafterAuth in Hnext. simpl in Hnext. simpl in Hcleanp.
    apply andb_prop in Hcleanp. destruct Hcleanp as [Ha _].
    apply negb_true_iff in Ha. unfold endsAuthority in Hnext. rewrite Ha in Hnext.
    rewrite orb_false_r in Hnext. exact Hnext. }
  destruct Hp as [-> ->]. simpl. destruct q; [exact Hq|reflexivity].
Qed.

Lemma parseURL_wellFormed (s : string) (u : URL) :
  parseURL s = Some u -> wellFormed u = true.
Proof.
  unfold parseURL. destruct (span isColon s) as [sch rest].
  destruct rest as [|a rest]; [discriminate|].
  destruct (Ascii.eqb a ":") eqn:Ha.
  - apply Ascii.eqb_eq in Ha. subst a.
    destruct (specialScheme sch) eqn:Hsch; [|discriminate].
    apply parseAfterScheme_wellFormed. exact Hsch.
  - destruct a as [[] [] [] [] [] [] [] []]; try discriminate Ha; discriminate.
Qed.

Lemma wellFormed_parts (u : URL) :
  wellFormed u = true ->
  (scheme u = "http" \/ scheme u = "https")
  /\ authority u <> ""
  /\ clean endsAuthority (authority u) = true
  /\ startsWithSlash (path u) = true
  /\ clean endsPath (path u) = true
  /\ match query u with Some q => clean isHash q = true | None => True end.
Proof.
  unfold wellFormed. intros H.
  repeat (apply andb_prop in H; destruct H as [H ?]).
  split; [apply specialScheme_cases; exact H|].
  split; [apply String.eqb_neq, negb_true_iff; assumption|].
  repeat (split; [assumption|]).
  destruct (query u); [assumption|exact I].
Qed.

Lemma href_extend (u : URL) (suffix : string) :
  href (extend u suffix) = href u +:+ suffix.
Proof.
  unfold href, extend.
  destruct (fragment u) as [f|], (query u) as [q|];
    repeat first [rewrite append_assoc | progress simpl];
    rewrite ?append_empty_r; reflexivity.
Qed.

Lemma span_slash_path (stop : ascii -> bool) (p rest : string) :
  startsWithSlash p = true -> stop "/"%char = true -> span stop (p +:+ rest) = ("", p +:+ rest).
Proof.
  destruct p as [|a p]; simpl; [discriminate|].
  intros Ha. apply Ascii.eqb_eq in Ha. subst a. intros ->. reflexivity.
Qed.

(** What the parser reads after the authority of [href u +:+ suffix]. *)
Lemma parse_tail_extend (u : URL) (suffix : string) :
  wellFormed u = true -> clean endsPath suffix = true ->
  let tail := path u
              +:+ match query u with Some q => "?" +:+ q | None => "" end
              +:+ match fragment u with Some f => "#" +:+ f | None => "" end
              +:+ suffix in
  span endsPath tail = (path (extend u suffix), snd (span endsPath tail))
  /\ String.eqb (path (extend u suffix)) "" = false
  /\ parseQueryFragment (snd (span endsPath tail))
     = (query (extend u suffix), fragment (extend u suffix)).
Proof.
  intros Hwf Hsuffix.
  destruct (wellFormed_parts u Hwf) as (_ & _ & _ & Hslash & Hpath & Hquery).
  assert (Hhash : clean isHash suffix = true).
  { apply (clean_weaken endsPath); [|exact Hsuffix].
    intros a Ha. unfold endsPath. unfold isHash in Ha. rewrite Ha. apply orb_true_r. }
  assert (Hne : forall t, String.eqb (path u +:+ t) "" = false).
  { intros t. destruct (path u); [discriminate Hslash|reflexivity]. }
  assert (Hne0 : String.eqb (path u) "" = false).
  { destruct (path u); [discriminate Hslash|reflexivity]. }
  unfold extend. cbv zeta.
  destruct (fragment u) as [f|], (query u) as [q|]; simpl.
  - rewrite (span_append_clean _ _ _ Hpath). simpl.
    rewrite append_empty_r. split; [reflexivity|]. split; [exact Hne0|].
    rewrite (span_append_clean _ _ _ Hquery). simpl.
    rewrite append_empty_r. reflexivity.
  - rewrite (span_append_clean _ _ _ Hpath). simpl.
    rewrite append_empty_r. split; [reflexivity|]. split; [exact Hne0|reflexivity].
  - rewrite (span_append_clean _ _ _ Hpath). simpl.
    rewrite append_empty_r. split; [reflexivity|]. split; [exact Hne0|].
    assert (Hq : clean isHash (q +:+ suffix) = true)
      by (rewrite clean_append, Hquery, Hhash; reflexivity).
    rewrite (span_clean _ _ Hq). reflexivity.
  - assert (Hp : clean endsPath (path u +:+ suffix) = true)
      by (rewrite clean_append, Hpath, Hsuffix; reflexivity).
    rewrite (span_clean _ _ Hp). simpl. split; [reflexivity|]. split; [apply Hne|reflexivity].
Qed.

Lemma parseAfterScheme_href_extend (u : URL) (suffix : string) :
  wellFormed u = true -> clean endsPath suffix = true ->
  parseAfterScheme (scheme u)
    ("//" +:+ authority u +:+ path u
     +:+ match query u with Some q => "?" +:+ q | None => "" end
     +:+ match fragment u with Some f => "#" +:+ f | None => "" end
     +:+ suffix)
  = Some (extend u suffix).
Proof.
  intros Hwf Hsuffix.
  destruct (wellFormed_parts u Hwf) as (_ & Hauth & Hcleanauth & Hslash & _ & _).
  destruct (parse_tail_extend u suffix Hwf Hsuffix) as (Hspan & Hne & Hqf).
  unfold parseAfterScheme.
  change (skip isSlash ("//" +:+ ?t)) with (skip isSlash t).
  rewrite (skip_no_slash (authority u +:+ _)).
  2:{ pose proof (clean_authority_no_slash _ Hcleanauth) as H.
      destruct (authority u); [congruence|exact H]. }
  rewrite (span_append_clean _ _ _ Hcleanauth).
  match goal with
  | |- context [span endsAuthority (path u +:+ ?rest)] =>
      rewrite (span_slash_path endsAuthority (path u) rest Hslash eq_refl)
  end.
  cbn [fst snd]. rewrite append_empty_r.
  rewrite (eqb_false_of_ne _ _ Hauth).
  cbv zeta in Hspan, Hqf. rewrite Hspan, Hqf, Hne.
  unfold extend. destruct (fragment u), (query u); reflexivity.
Qed.

Lemma parseURL_href_extend (u : URL) (suffix : string) :
  wellFormed u = true -> clean endsPath suffix = true ->
  parseURL (href u +:+ suffix) = Some (extend u suffix).
Proof.
  intros Hwf Hsuffix.
  pose proof (parseAfterScheme_href_extend u suffix Hwf Hsuffix) as H.
  destruct (wellFormed_parts u Hwf) as (Hsch & _).
  unfold href. repeat rewrite append_assoc.
  unfold parseURL. destruct Hsch as [Hsch | Hsch]; rewrite Hsch in *; simpl; exact H.
Qed.

Lemma extend_empty (u : URL) : extend u "" = u.
Proof.
  unfold extend. destruct u as [sch auth p [q|] [f|]]; simpl;
    rewrite ?append_empty_r; reflexivity.
Qed.

Lemma parseURL_href (u : URL) : wellFormed u = true -> parseURL (href u) = Some u.
Proof.
  intros Hwf. rewrite <- (append_empty_r (href u)).
  rewrite (parseURL_href_extend u "" Hwf eq_refl). rewrite extend_empty. reflexivity.
Qed.

Lemma parseURL_leading_slash (s : string) : startsWithSlash s = true -> parseURL s = None.
Proof.
  destruct s as [|a s]; simpl; [discriminate|].
  intros Ha. apply Ascii.eqb_eq in Ha. subst a.
  unfold parseURL. simpl. destruct (span isColon s) as [sch rest].
  destruct rest as [|b rest]; [reflexivity|].
  destruct b as [[] [] [] [] [] [] [] []]; reflexivity.
Qed.

Lemma endsWith_append_slash (s : string) : endsWith "/" (s +:+ "/") = true.
Proof.
  induction s as [|a s IH]; [reflexivity|].
  simpl. destruct (s +:+ "/") eqn:E; [destruct s; discriminate E|exact IH].
Qed.

Lemma setPathname_slash (u : URL) (p : string) :
  startsWithSlash p = true ->
  setPathname u p = {| scheme := scheme u; authority := authority u; path := p;
                       query := query u; fragment := fragment u |}.
Proof.
  destruct p as [|a p]; simpl; [discriminate|].
  intros Ha. apply Ascii.eqb_eq in Ha. subst a. reflexivity.
Qed.

Lemma ensureTrailingSlash_wellFormed (issuer : URL) :
  wellFormed issuer = true ->
  ensureTrailingSlash issuer = Return (withTrailingSlash issuer)
  /\ wellFormed (withTrailingSlash issuer) = true.
Proof.
  intros Hwf. unfold ensureTrailingSlash, withTrailingSlash.
  destruct (endsWith "/" (href issuer)); [split; [reflexivity|exact Hwf]|].
  unfold newURL. rewrite (parseURL_href issuer Hwf). simpl. unfold pathname.
  destruct (wellFormed_parts issuer Hwf) as (Hsch & Hauth & Hcleanauth & Hslash & Hpath & Hquery).
  destruct (endsWith "/" (path issuer)).
  - rewrite (setPathname_slash _ _ Hslash). destruct issuer; split; [reflexivity|exact Hwf].
  - rewrite setPathname_slash.
    2:{ destruct (path issuer); [discriminate Hslash|exact Hslash]. }
    split; [reflexivity|].
    unfold wellFormed in *. simpl.
    repeat (apply andb_prop in Hwf; destruct Hwf as [Hwf ?]).
    rewrite Hwf, Hcleanauth, clean_append, Hpath. simpl.
    rewrite (proj2 (negb_true_iff _) (proj2 (String.eqb_neq _ _) Hauth)). simpl.
    destruct (path issuer); [discriminate Hslash|]. simpl in *. rewrite Hslash. simpl.
    assumption.
Qed.

Lemma withTrailingSlash_ends (issuer : URL) :
  endsWith "/" (href (withTrailingSlash issuer)) = true
  \/ endsWith "/" (path (withTrailingSlash issuer)) = true.
Proof.
  unfold withTrailingSlash.
  destruct (endsWith "/" (href issuer)) eqn:Hhref; [left; exact Hhref|].
  destruct (endsWith "/" (path issuer)) eqn:Hpath; [right; exact Hpath|].
  right. simpl. apply endsWith_append_slash.
Qed.

(** [new URL(path, base)] for a path that begins with one slash. *)
Lemma newURLFrom_absolute_path (p : string) (base : URL) :
  startsWithSlash p = true -> startsWithTwoSlashes p = false -> clean endsPath p = true ->
  newURLFrom p base = Return (rootCandidate base p).
Proof.
  intros Hslash Htwo Hclean. unfold newURLFrom, parseRelative.
  rewrite (parseURL_leading_slash p Hslash), (span_clean _ _ Hclean). simpl.
  destruct p as [|a p]; [discriminate Hslash|].
  simpl in Hslash. apply Ascii.eqb_eq in Hslash. subst a.
  destruct p as [|b p]; [reflexivity|].
  simpl in Htwo. unfold isSlash in Htwo.
  destruct b as [[] [] [] [] [] [] [] []]; try reflexivity. discriminate Htwo.
Qed.

Lemma noScheme_unparsable (s : string) : noScheme s = true -> parseURL s = None.
Proof.
  unfold noScheme, parseURL. intros H. rewrite (span_clean _ _ H). reflexivity.
Qed.

Lemma plainRewritable_rewritable (v : value) : plainRewritable v -> rewritable v.
Proof.
  destruct v as [ | | b | n | s | items | members]; simpl; try exact (fun H => H).
  intros [-> | (u & Hparse & _ & Htwo)]; [left; reflexivity|].
  right. exists u. split; assumption.
Qed.

Lemma schemeless_unparsable (v : value) : schemeless v -> unparsable v.
Proof.
  destruct v as [ | | b | n | s | items | members]; simpl; try exact (fun H => H).
  intros [Hne Hs]. split; [exact Hne|apply noScheme_unparsable; exact Hs].
Qed.

(** ** C7: the candidate discovery URLs *)

Lemma endsWith_append (c : ascii) (s t : string) :
  t <> "" -> endsWith c (s +:+ t) = endsWith c t.
Proof.
  intros Ht. induction s as [|a s IH]; [reflexivity|].
  simpl. destruct (s +:+ t) eqn:E; [|exact IH].
  destruct s; simpl in E; [contradiction|discriminate E].
Qed.

Lemma href_plain (u : URL) :
  query u = None -> fragment u = None ->
  href u = scheme u +:+ "://" +:+ authority u +:+ path u.
Proof.
  intros Hq Hf. unfold href. rewrite Hq, Hf. rewrite !append_empty_r. reflexivity.
Qed.

Lemma withTrailingSlash_frame (issuer : URL) :
  scheme (withTrailingSlash issuer) = scheme issuer
  /\ authority (withTrailingSlash issuer) = authority issuer
  /\ query (withTrailingSlash issuer) = query issuer
  /\ fragment (withTrailingSlash issuer) = fragment issuer.
Proof.
  unfold withTrailingSlash.
  destruct (endsWith "/" (href issuer)); [auto|].
  destruct (endsWith "/" (path issuer)); auto.
Qed.

Lemma withTrailingSlash_plain_path (issuer : URL) :
  wellFormed issuer = true -> query issuer = None -> fragment issuer = None ->
  endsWith "/" (path (withTrailingSlash issuer)) = true.
Proof.
  intros Hwf Hq Hf.
  destruct (withTrailingSlash_ends issuer) as [H | H]; [|exact H].
  destruct (withTrailingSlash_frame issuer) as (_ & _ & Hq' & Hf').
  rewrite href_plain in H by congruence.
  destruct (ensureTrailingSlash_wellFormed issuer Hwf) as [_ Hwf'].
  destruct (wellFormed_parts _ Hwf') as (_ & _ & _ & Hslash & _).
  rewrite <- !append_assoc in H. rewrite endsWith_append in H; [exact H|].
  destruct (path (withTrailingSlash issuer)); [discriminate Hslash|discriminate].
Qed.

(** C7 (as implemented).  For every http or https issuer URL,
    [buildWellKnownCandidates] returns exactly four candidates, in this order: the two well-known suffixes
    appended to the href of the issuer with a trailing slash ensured, and the
    two well-known paths at the origin root of the issuer.  No candidate is
    built from the issuer without the trailing slash.  For an issuer without
    query and fragment, the first two are the issuer with the suffix appended
    to its slash-terminated path. *)
Theorem buildWellKnownCandidates_spec (issuer : URL) :
  wellFormed issuer = true ->
  exists scoped1 scoped2,
    buildWellKnownCandidates issuer =
      Return [scoped1; scoped2;
              rootCandidate issuer "/.well-known/openid-configuration";
              rootCandidate issuer "/.well-known/oauth-authorization-server"]
    /\ href scoped1 = href (withTrailingSlash issuer) +:+ ".well-known/openid-configuration"
    /\ href scoped2 = href (withTrailingSlash issuer) +:+ ".well-known/oauth-authorization-server"
    /\ (query issuer = None -> fragment issuer = None ->
        endsWith "/" (path (withTrailingSlash issuer)) = true
        /\ scoped1 = rootCandidate issuer
                       (path (withTrailingSlash issuer) +:+ ".well-known/openid-configuration")
        /\ scoped2 = rootCandidate issuer
                       (path (withTrailingSlash issuer) +:+ ".well-known/oauth-authorization-server")).
Proof.
  intros Hwf.
  destruct (ensureTrailingSlash_wellFormed issuer Hwf) as [Hslashed Hwf'].
  exists (extend (withTrailingSlash issuer) ".well-known/openid-configuration"),
         (extend (withTrailingSlash issuer) ".well-known/oauth-authorization-server").
  split; [|split; [apply href_extend|split; [apply href_extend|]]].
  - unfold buildWellKnownCandidates. rewrite Hslashed.
    unfold mbind, result_bind at 1. simpl mapM. unfold newURL.
    rewrite (parseURL_href_extend _ ".well-known/openid-configuration" Hwf' eq_refl).
    rewrite (parseURL_href_extend _ ".well-known/oauth-authorization-server" Hwf' eq_refl).
    rewrite (newURLFrom_absolute_path "/.well-known/openid-configuration" issuer
               eq_refl eq_refl eq_refl).
    rewrite (newURLFrom_absolute_path "/.well-known/oauth-authorization-server" issuer
               eq_refl eq_refl eq_refl).
    reflexivity.
  - intros Hq Hf. split; [apply withTrailingSlash_plain_path; assumption|].
    destruct (withTrailingSlash_frame issuer) as (Hs & Ha & Hq' & Hf').
    unfold extend, rootCandidate. rewrite Hq', Hf', Hq, Hf, Hs, Ha. split; reflexivity.
Qed.

(** The candidates for https://auth.example.com/realms/main. *)
Lemma buildWellKnownCandidates_spec_witness :
  exists scoped1 scoped2,
    buildWellKnownCandidates realmIssuer =
      Return [scoped1; scoped2;
              rootCandidate realmIssuer "/.well-known/openid-configuration";
              rootCandidate realmIssuer "/.well-known/oauth-authorization-server"]
    /\ href scoped1 = href (withTrailingSlash realmIssuer) +:+ ".well-known/openid-configuration"
    /\ href scoped2 = href (withTrailingSlash realmIssuer) +:+ ".well-known/oauth-authorization-server".
Proof.
  destruct (buildWellKnownCandidates_spec realmIssuer eq_refl)
    as (scoped1 & scoped2 & H1 & H2 & H3 & _).
  exists scoped1, scoped2. auto.
Defined.

(** C7, counterexample.  For the issuer https://auth.example.com/realms/main
    the four candidates are the ones below; the suffixes appended to the
    issuer without the trailing slash, which are URLs too, are not among
    them. *)
Lemma buildWellKnownCandidates_no_unslashed_variant :
  newURL "https://auth.example.com/realms/main" = Return realmIssuer /\
  exists candidates,
    buildWellKnownCandidates realmIssuer = Return candidates
    /\ map href candidates =
         ["https://auth.example.com/realms/main/.well-known/openid-configuration";
          "https://auth.example.com/realms/main/.well-known/oauth-authorization-server";
          "https://auth.example.com/.well-known/openid-configuration";
          "https://auth.example.com/.well-known/oauth-authorization-server"]
    /\ (exists u, newURL (href realmIssuer +:+ ".well-known/openid-configuration") = Return u)
    /\ ~ In (href realmIssuer +:+ ".well-known/openid-configuration") (map href candidates)
    /\ ~ In (href realmIssuer +:+ ".well-known/oauth-authorization-server") (map href candidates).
Proof.
  split; [vm_compute; reflexivity|].
  eexists. split; [vm_compute; reflexivity|].
  split; [vm_compute; reflexivity|].
  split; [eexists; vm_compute; reflexivity|].
  split; vm_compute; intros H; repeat (destruct H as [H | H]; [discriminate H|]); exact H.
Qed.

(** ** C6: the issuer rewriter *)

Lemma rebased_components (issuerUrl original : URL) :
  scheme (rebased issuerUrl original) = scheme issuerUrl
  /\ authority (rebased issuerUrl original) = authority issuerUrl
  /\ pathname (rebased issuerUrl original) = pathname original
  /\ search (rebased issuerUrl original) = search original
  /\ hash (rebased issuerUrl original) = hash original.
Proof.
  unfold rebased, pathname, search, hash, dropEmpty. simpl.
  repeat split.
  - destruct (query original) as [q|]; [|reflexivity].
    destruct (String.eqb q "") eqn:E; [reflexivity|]. rewrite E. reflexivity.
  - destruct (fragment original) as [f|]; [|reflexivity].
    destruct (String.eqb f "") eqn:E; [reflexivity|]. rewrite E. reflexivity.
Qed.

Lemma remap_parsed (issuerUrl original : URL) (s : string) :
  s <> "" -> parseURL s = Some original -> startsWithTwoSlashes (path original) = false ->
  remap issuerUrl (VStr s) = Return (VStr (href (rebased issuerUrl original))).
Proof.
  intros Hne Hparse Htwo. unfold remap, newURL.
  rewrite (eqb_false_of_ne _ _ Hne), Hparse.
  pose proof (parseURL_wellFormed _ _ Hparse) as Hwf.
  destruct (wellFormed_parts _ Hwf) as (_ & _ & _ & Hslash & Hpath & _).
  unfold mbind, result_bind, pathname.
  rewrite (newURLFrom_absolute_path _ issuerUrl Hslash Htwo Hpath).
  do 3 f_equal. unfold rebased, setHash, setSearch, rootCandidate, search, hash, dropEmpty.
  simpl. f_equal.
  - destruct (query original) as [q|]; [|reflexivity].
    destruct (String.eqb q ""); reflexivity.
  - destruct (fragment original) as [f|]; [|reflexivity].
    destruct (String.eqb f ""); reflexivity.
Qed.

Lemma remapped_rewritable (issuerUrl : URL) (o : gmap string value) (k : string) :
  rewritable (prop o k) ->
  remapped issuerUrl (VObj o) k = Return (rewrittenMember issuerUrl (prop o k)).
Proof.
  unfold remapped, rewritable, rewrittenMember. simpl.
  destruct (prop o k) as [ | | b | n | s | items | members]; try reflexivity.
  intros [-> | (u & Hparse & Htwo)]; [reflexivity|].
  destruct (String.eqb s "") eqn:E.
  - apply String.eqb_eq in E. subst s. reflexivity.
  - apply String.eqb_neq in E. unfold mbind, result_bind.
    rewrite (remap_parsed issuerUrl u s E Hparse Htwo), Hparse. reflexivity.
Qed.

Lemma remapped_unparsable (issuerUrl : URL) (o : gmap string value) (k : string) :
  unparsable (prop o k) -> exists e, remapped issuerUrl (VObj o) k = Throw e.
Proof.
  unfold remapped, unparsable. simpl.
  destruct (prop o k) as [ | | b | n | s | items | members]; try contradiction.
  intros [Hne Hparse]. unfold mbind, result_bind, remap, newURL.
  rewrite (eqb_false_of_ne _ _ Hne), Hparse. eexists. reflexivity.
Qed.

Lemma rewrite_never_throws (metadata : value) (publicIssuer : option string) :
  exists rewritten, rewriteOAuthMetadataIssuer metadata publicIssuer = Return rewritten.
Proof.
  unfold rewriteOAuthMetadataIssuer.
  destruct publicIssuer as [pub|]; [|eexists; reflexivity].
  destruct (String.eqb pub ""); [eexists; reflexivity|].
  unfold catch.
  match goal with |- context [match ?body with Return _ => _ | Throw _ => _ end] =>
    destruct body; eexists; reflexivity
  end.
Qed.

Lemma rewrite_falls_back_whole (o : gmap string value) (pub : string) (k : string) :
  In k endpointKeys -> unparsable (prop o k) ->
  rewriteOAuthMetadataIssuer (VObj o) (Some pub) = Return (VObj o).
Proof.
  intros Hin Hbad. unfold rewriteOAuthMetadataIssuer.
  destruct (String.eqb pub ""); [reflexivity|].
  destruct (newURL pub) as [parsed|e]; [|reflexivity].
  unfold mbind at 1, result_bind at 1.
  destruct (ensureTrailingSlash parsed) as [issuerUrl|e]; [|reflexivity].
  unfold mbind at 1, result_bind at 1.
  pose proof (remapped_unparsable issuerUrl o k Hbad) as [e He].
  unfold endpointKeys in Hin. simpl in Hin.
  repeat (match goal with
          | |- catch (mbind _ (remapped issuerUrl (VObj o) ?key)) _ = _ =>
              destruct (remapped issuerUrl (VObj o) key) eqn:? ;
              [unfold mbind at 1, result_bind at 1 | reflexivity]
          end).
  exfalso.
  repeat (destruct Hin as [<- | Hin]; [congruence|]). exact Hin.
Qed.

Lemma rewrite_all_rewritable (o : gmap string value) (pub : string) (parsed : URL) :
  pub <> "" -> parseURL pub = Some parsed ->
  (forall k, In k endpointKeys -> rewritable (prop o k)) ->
  let issuerUrl := withTrailingSlash parsed in
  rewriteOAuthMetadataIssuer (VObj o) (Some pub) =
    Return (VObj (<["jwks_uri" := rewrittenMember issuerUrl (prop o "jwks_uri")]>
                 (<["end_session_endpoint" := rewrittenMember issuerUrl (prop o "end_session_endpoint")]>
                 (<["revocation_endpoint" := rewrittenMember issuerUrl (prop o "revocation_endpoint")]>
                 (<["userinfo_endpoint" := rewrittenMember issuerUrl (prop o "userinfo_endpoint")]>
                 (<["introspection_endpoint" := rewrittenMember issuerUrl (prop o "introspection_endpoint")]>
                 (<["token_endpoint" := rewrittenMember issuerUrl (prop o "token_endpoint")]>
                 (<["authorization_endpoint" := rewrittenMember issuerUrl (prop o "authorization_endpoint")]>
                 (<["issuer" := VStr (href issuerUrl)]> o))))))))).
Proof.
  intros Hne Hparse Hall issuerUrl. unfold rewriteOAuthMetadataIssuer.
  rewrite (eqb_false_of_ne _ _ Hne). unfold newURL. rewrite Hparse.
  unfold mbind at 1, result_bind at 1.
  rewrite (proj1 (ensureTrailingSlash_wellFormed parsed (parseURL_wellFormed _ _ Hparse))).
  unfold mbind at 1, result_bind at 1. fold issuerUrl.
  repeat (match goal with
          | |- catch (mbind _ (remapped issuerUrl (VObj o) ?key)) _ = _ =>
              rewrite (remapped_rewritable issuerUrl o key)
                by (apply Hall; unfold endpointKeys; simpl; tauto);
              unfold mbind at 1, result_bind at 1
          end).
  reflexivity.
Qed.

(** C6 (as implemented).  Without a public issuer (undefined or empty) the
    metadata is returned unchanged, and the function never throws.  With a
    public issuer that is an http or https URL in plain form, and endpoint
    members that are each either no non-empty string or such a URL whose path
    does not begin with two slashes, every endpoint URL gets the scheme and
    authority of the public issuer while its pathname, search and hash stay
    the same, the other endpoint members keep their value, the issuer member
    becomes the href of the public issuer with a trailing slash ensured, and
    all other members are kept.  When the public issuer or any endpoint
    member is a non-empty string without a scheme, which is no URL, the whole
    metadata is returned unchanged: no member is rewritten. *)
Theorem rewriteOAuthMetadataIssuer_spec :
  (forall metadata,
     rewriteOAuthMetadataIssuer metadata None = Return metadata
     /\ rewriteOAuthMetadataIssuer metadata (Some "") = Return metadata) /\
  (forall metadata publicIssuer,
     exists rewritten, rewriteOAuthMetadataIssuer metadata publicIssuer = Return rewritten) /\
  (forall (o : gmap string value) pub parsed,
     parseURL pub = Some parsed -> plain parsed = true ->
     (forall k, In k endpointKeys -> plainRewritable (prop o k)) ->
     exists o' : gmap string value,
       rewriteOAuthMetadataIssuer (VObj o) (Some pub) = Return (VObj o')
       /\ o' !! "issuer" = Some (VStr (href (withTrailingSlash parsed)))
       /\ (forall k, In k endpointKeys ->
             o' !! k = Some (rewrittenMember (withTrailingSlash parsed) (prop o k)))
       /\ (forall k, k <> "issuer" -> ~ In k endpointKeys -> o' !! k = o !! k)) /\
  (forall issuerUrl s original,
     parseURL s = Some original -> plain original = true ->
     rewrittenMember issuerUrl (VStr s) = VStr (href (rebased issuerUrl original))
     /\ scheme (rebased issuerUrl original) = scheme issuerUrl
     /\ authority (rebased issuerUrl original) = authority issuerUrl
     /\ pathname (rebased issuerUrl original) = pathname original
     /\ search (rebased issuerUrl original) = search original
     /\ hash (rebased issuerUrl original) = hash original) /\
  (forall metadata pub,
     noScheme pub = true -> rewriteOAuthMetadataIssuer metadata (Some pub) = Return metadata) /\
  (forall (o : gmap string value) pub k,
     In k endpointKeys -> schemeless (prop o k) ->
     rewriteOAuthMetadataIssuer (VObj o) (Some pub) = Return (VObj o)).
Proof.
  split; [|split; [|split; [|split; [|split]]]].
  - intros metadata. split; reflexivity.
  - apply rewrite_never_throws.
  - intros o pub parsed Hparse _ Hplain.
    assert (pub <> "") as Hne by (intros ->; discriminate Hparse).
    assert (forall k, In k endpointKeys -> rewritable (prop o k)) as Hall
      by (intros k Hin; apply plainRewritable_rewritable, Hplain, Hin).
    eexists. split.
    + exact (rewrite_all_rewritable o pub parsed Hne Hparse Hall).
    + split; [|split].
      * repeat (rewrite lookup_insert_ne by discriminate). apply lookup_insert_eq.
      * intros k Hin. unfold endpointKeys in Hin. simpl in Hin.
        repeat (destruct Hin as [<- | Hin];
                [repeat (rewrite lookup_insert_ne by discriminate); apply lookup_insert_eq|]).
        contradiction.
      * intros k Hissuer Hnot. unfold endpointKeys in Hnot. simpl in Hnot.
        repeat (rewrite lookup_insert_ne by (intros <-; tauto)). reflexivity.
  - intros issuerUrl s original Hparse _.
    assert (s <> "") as Hne by (intros ->; discriminate Hparse).
    split.
    + unfold rewrittenMember. rewrite (eqb_false_of_ne _ _ Hne), Hparse. reflexivity.
    + apply rebased_components.
  - intros metadata pub Hpub. apply noScheme_unparsable in Hpub.
    unfold rewriteOAuthMetadataIssuer, newURL.
    rewrite Hpub. destruct (String.eqb pub ""); reflexivity.
  - intros o pub k Hin Hbad.
    exact (rewrite_falls_back_whole o pub k Hin (schemeless_unparsable _ Hbad)).
Qed.

(** A document whose endpoints are in plain form, moved to
    https://public.example.com/realm. *)
Lemma rewriteOAuthMetadataIssuer_spec_witness :
  exists published : gmap string value,
    rewriteOAuthMetadataIssuer (VObj internalDocument) (Some "https://public.example.com/realm")
    = Return (VObj published)
    /\ published !! "issuer" = Some (VStr "https://public.example.com/realm/")
    /\ published !! "authorization_endpoint"
       = Some (VStr "https://public.example.com/auth?x=1#top")
    /\ published !! "token_endpoint" = Some (VStr "https://public.example.com/token").
Proof.
  destruct (proj1 (proj2 (proj2 rewriteOAuthMetadataIssuer_spec))
              internalDocument "https://public.example.com/realm"
              {| scheme := "https"; authority := "public.example.com"; path := "/realm";
                 query := None; fragment := None |}
              eq_refl eq_refl)
    as (published & Hrewrite & Hissuer & Hendpoints & _).
  - intros k Hin. unfold endpointKeys in Hin. simpl in Hin.
    repeat (destruct Hin as [<- | Hin];
            [first [exact I
                   | right; eexists; split; [vm_compute; reflexivity|];
                     split; vm_compute; reflexivity]|]).
    contradiction.
  - exists published. split; [exact Hrewrite|]. split; [exact Hissuer|].
    split; [rewrite (Hendpoints "authorization_endpoint") | rewrite (Hendpoints "token_endpoint")];
      try (unfold endpointKeys; simpl; tauto); vm_compute; reflexivity.
Defined.

(** C6, counterexample.  The authorization endpoint of the document does
    not parse and its token endpoint does.  With the public issuer
    https://public.example.com the document comes back as it was: the token
    endpoint and the issuer are not rewritten either, so the fallback is not
    for the failing member only. *)
Lemma rewrite_fallback_is_whole_document :
  parseURL "not a url" = None /\
  (exists u, parseURL "https://idp.internal:8080/token" = Some u) /\
  rewriteOAuthMetadataIssuer partlyBrokenMetadata (Some "https://public.example.com")
    = Return partlyBrokenMetadata /\
  member partlyBrokenMetadata "token_endpoint" = Return (VStr "https://idp.internal:8080/token") /\
  member partlyBrokenMetadata "issuer" = Return (VStr "https://idp.internal:8080") /\
  (forall rewritten,
     rewriteOAuthMetadataIssuer partlyBrokenMetadata (Some "https://public.example.com")
       = Return rewritten ->
     member rewritten "token_endpoint" <> Return (VStr "https://public.example.com/token")
     /\ member rewritten "issuer" <> Return (VStr "https://public.example.com/")).
Proof.
  assert (H : rewriteOAuthMetadataIssuer partlyBrokenMetadata (Some "https://public.example.com")
              = Return partlyBrokenMetadata) by (vm_compute; reflexivity).
  split; [vm_compute; reflexivity|].
  split; [eexists; vm_compute; reflexivity|].
  split; [exact H|].
  split; [vm_compute; reflexivity|].
  split; [vm_compute; reflexivity|].
  intros rewritten Hr. rewrite H in Hr. injection Hr as <-.
  split; vm_compute; intros E; discriminate E.
Qed.

(** The same document with a well-formed authorization endpoint is rewritten
    member by member. *)
Example rewrite_members_example :
  rewriteOAuthMetadataIssuer
    (VObj (<["authorization_endpoint" := VStr "https://idp.internal:8080/auth?x=1#top"]>
          (<["token_endpoint" := VStr "https://idp.internal:8080/token"]> ∅)))
    (Some "https://public.example.com/realm")
  = Return (VObj (<["issuer" := VStr "https://public.example.com/realm/"]>
                 (<["authorization_endpoint" := VStr "https://public.example.com/auth?x=1#top"]>
                 (<["token_endpoint" := VStr "https://public.example.com/token"]>
                 (<["introspection_endpoint" := VUndefined]>
                 (<["userinfo_endpoint" := VUndefined]>
                 (<["revocation_endpoint" := VUndefined]>
                 (<["end_session_endpoint" := VUndefined]>
                 (<["jwks_uri" := VUndefined]> ∅))))))))).
Proof. vm_compute. reflexivity. Qed.

(** An endpoint whose path begins with two slashes is outside the rewritten
    members described above: [new URL(pathname, issuerUrl)] reads such a path
    as a reference with an authority of its own. *)
Example rewrite_double_slash_example :
  exists published : gmap string value,
    rewriteOAuthMetadataIssuer
      (VObj (<["token_endpoint" := VStr "https://idp.internal//other.example/token"]> ∅))
      (Some "https://public.example.com")
    = Return (VObj published)
    /\ published !! "token_endpoint" = Some (VStr "https://other.example/token").
Proof. eexists. split; vm_compute; reflexivity. Qed.

(** ** C2: metadata discovery *)

Lemma after_after (w : World) (a b : list Event) : after (after w a) b = after w (a ++ b).
Proof. unfold after. simpl. rewrite app_assoc. reflexivity. Qed.

Lemma fetchCount_after_fetches (w : World) (candidates : list URL) :
  fetchCount (after w (map fetchOf candidates)) = fetchCount w + length candidates.
Proof.
  unfold fetchCount, after. simpl. rewrite List.filter_app, length_app. f_equal.
  induction candidates as [|c rest IH]; simpl; [reflexivity|]. rewrite IH. reflexivity.
Qed.

Lemma fetchCount_after_sleep (w : World) (ms : Z) :
  fetchCount (after w [CallSleep ms]) = fetchCount w.
Proof.
  unfold fetchCount, after. simpl. rewrite List.filter_app, length_app. simpl. lia.
Qed.

(** One attempt: a call of [fetch], and the body or the entry. *)
Lemma tryCandidate_spec (candidate : URL) (w : World) :
  tryCandidate candidate w =
    (Return match succeeded (outcomeAt w (fetchCount w) candidate) with
            | Some body => inr body
            | None => inl (attemptEntry candidate (outcomeAt w (fetchCount w) candidate))
            end,
     after w [fetchOf candidate]).
Proof.
  unfold tryCandidate, tryCatch, mbind, M_bind, fetch, outcomeAt, succeeded, attemptEntry,
    failureReason, fetchOf.
  destruct (network w (fetchCount w) (Get (href candidate))) as [e | r]; [reflexivity|].
  destruct (ok r); simpl; [|reflexivity].
  unfold lift. destruct (json r); reflexivity.
Qed.

Lemma roundEntries_cons (w : World) (start : nat) (c : URL) (rest : list URL) :
  roundEntries w start (c :: rest)
  = attemptEntry c (outcomeAt w start c) :: roundEntries w (S start) rest.
Proof.
  unfold roundEntries. simpl. rewrite Nat.add_0_r. f_equal.
  apply imap_ext. intros j x _. simpl. f_equal. f_equal. lia.
Qed.

(** A round in which every attempt fails. *)
Lemma tryCandidates_all_fail (candidates : list URL) :
  forall (attempts : list string) (w : World),
    (forall j c, candidates !! j = Some c ->
                 succeeded (outcomeAt w (fetchCount w + j) c) = None) ->
    tryCandidates candidates attempts w =
      (Return (None, attempts ++ roundEntries w (fetchCount w) candidates),
       after w (map fetchOf candidates)).
Proof.
  induction candidates as [|c rest IH]; intros attempts w Hfail.
  - simpl. unfold mret, M_ret, after. simpl. rewrite !app_nil_r. destruct w; reflexivity.
  - simpl. unfold mbind, M_bind. rewrite tryCandidate_spec.
    pose proof (Hfail 0 c eq_refl) as H0. rewrite Nat.add_0_r in H0. rewrite H0.
    rewrite IH.
    + rewrite after_after. simpl.
      change (after w [fetchOf c]) with (after w (map fetchOf [c])).
      rewrite fetchCount_after_fetches. simpl length.
      rewrite roundEntries_cons, <- app_assoc. simpl.
      replace (fetchCount w + 1) with (S (fetchCount w)) by lia. reflexivity.
    + intros j c' Hj.
      change (after w [fetchOf c]) with (after w (map fetchOf [c])).
      rewrite fetchCount_after_fetches. simpl length.
      replace (fetchCount w + 1 + j) with (fetchCount w + S j) by lia.
      apply (Hfail (S j) c'). exact Hj.
Qed.

(** A round in which candidate number [j] is the first to succeed. *)
Lemma tryCandidates_first_success (candidates : list URL) :
  forall (attempts : list string) (w : World) (j : nat) (c : URL) (body : value),
    candidates !! j = Some c ->
    (forall j' c', j' < j -> candidates !! j' = Some c' ->
                   succeeded (outcomeAt w (fetchCount w + j') c') = None) ->
    succeeded (outcomeAt w (fetchCount w + j) c) = Some body ->
    exists attempts',
      tryCandidates candidates attempts w =
        (Return (Some body, attempts'), after w (map fetchOf (take (S j) candidates))).
Proof.
  induction candidates as [|c0 rest IH]; intros attempts w j c body Hj Hbefore Hsucc.
  - discriminate Hj.
  - simpl tryCandidates. unfold mbind, M_bind. rewrite tryCandidate_spec.
    destruct j as [|j].
    + injection Hj as ->. rewrite Nat.add_0_r in Hsucc. rewrite Hsucc.
      eexists. reflexivity.
    + pose proof (Hbefore 0 c0 ltac:(lia) eq_refl) as H0.
      rewrite Nat.add_0_r in H0. rewrite H0.
      assert (Hcount : fetchCount (after w [fetchOf c0]) = S (fetchCount w)).
      { change (after w [fetchOf c0]) with (after w (map fetchOf [c0])).
        rewrite fetchCount_after_fetches. simpl. lia. }
      destruct (IH (attempts ++ [attemptEntry c0 (outcomeAt w (fetchCount w) c0)])
                   (after w [fetchOf c0]) j c body Hj) as [attempts' Hrest].
      * intros j' c' Hlt Hj'. rewrite Hcount.
        replace (S (fetchCount w) + j') with (fetchCount w + S j') by lia.
        apply (Hbefore (S j') c'); [lia|exact Hj'].
      * rewrite Hcount.
        replace (S (fetchCount w) + j) with (fetchCount w + S j) by lia. exact Hsucc.
      * exists attempts'. rewrite Hrest, after_after. reflexivity.
Qed.

Lemma allEntries_after (w : World) (events : list Event) (start : nat)
    (candidates : list URL) (rounds : nat) :
  allEntries (after w events) start candidates rounds = allEntries w start candidates rounds.
Proof.
  revert start. induction rounds as [|rounds IH]; intros start; simpl; [reflexivity|].
  rewrite IH. reflexivity.
Qed.

Lemma after_nil (w : World) : after w [] = w.
Proof. unfold after. rewrite app_nil_r. destruct w; reflexivity. Qed.

(** One round of the outer loop. *)
Lemma discoveryRounds_step (cfg : AuthConfig) (issuer : URL) (candidates : list URL)
    (remaining : nat) (attempt : Z) (attempts : list string) (w : World) :
  buildWellKnownCandidates issuer = Return candidates ->
  discoveryRounds cfg issuer (S remaining) attempt attempts w =
    match tryCandidates candidates attempts w with
    | (Return (Some body, _), w1) => (Return body, w1)
    | (Return (None, attempts'), w1) =>
        discoveryRounds cfg issuer remaining (attempt + 1)%Z attempts'
          (if (attempt <? MCP_OAUTH_DISCOVERY_RETRIES cfg)%Z
           then after w1 [CallSleep (MCP_OAUTH_DISCOVERY_RETRY_DELAY_MS cfg)]
           else w1)
    | (Throw e, w1) => (Throw e, w1)
    end.
Proof.
  intros Hcands. simpl. unfold mbind, M_bind, lift. rewrite Hcands.
  destruct (tryCandidates candidates attempts w) as [[[[body|] attempts']|e] w1];
    try reflexivity.
  destruct (attempt <? MCP_OAUTH_DISCOVERY_RETRIES cfg)%Z; reflexivity.
Qed.

Lemma discoveryRounds_all_fail (cfg : AuthConfig) (issuer : URL) (candidates : list URL) :
  buildWellKnownCandidates issuer = Return candidates ->
  forall (remaining : nat) (attempt : Z) (attempts : list string) (w : World),
    (attempt + Z.of_nat remaining = MCP_OAUTH_DISCOVERY_RETRIES cfg + 1)%Z ->
    (forall r j c, r < remaining -> candidates !! j = Some c ->
       succeeded (outcomeAt w (fetchCount w + r * length candidates + j) c) = None) ->
    discoveryRounds cfg issuer remaining attempt attempts w =
      (Throw (Exn ClsError
                ("Unable to load OAuth metadata from issuer " +:+ href issuer +:+ ". Tried: "
                 +:+ join "; " (attempts ++ allEntries w (fetchCount w) candidates remaining))),
       after w (failedSchedule candidates (MCP_OAUTH_DISCOVERY_RETRY_DELAY_MS cfg) remaining)).
Proof.
  intros Hcands. induction remaining as [|remaining IH]; intros attempt attempts w Hround Hfail.
  - simpl. rewrite app_nil_r, after_nil. reflexivity.
  - rewrite (discoveryRounds_step _ _ _ _ _ _ _ Hcands).
    rewrite tryCandidates_all_fail.
    2:{ intros j c Hj. specialize (Hfail 0 j c ltac:(lia) Hj). simpl in Hfail.
        rewrite Nat.add_0_r in Hfail. exact Hfail. }
    destruct remaining as [|remaining].
    + replace (attempt <? MCP_OAUTH_DISCOVERY_RETRIES cfg)%Z with false
        by (symmetry; apply Z.ltb_ge; lia).
      rewrite IH; [|lia|intros r j c Hr; lia].
      simpl. rewrite !app_nil_r, after_after, app_nil_r. reflexivity.
    + replace (attempt <? MCP_OAUTH_DISCOVERY_RETRIES cfg)%Z with true
        by (symmetry; apply Z.ltb_lt; lia).
      rewrite after_after.
      assert (Hcount : fetchCount (after w (map fetchOf candidates
                                            ++ [CallSleep (MCP_OAUTH_DISCOVERY_RETRY_DELAY_MS cfg)]))
                       = fetchCount w + length candidates).
      { rewrite <- after_after, fetchCount_after_sleep. apply fetchCount_after_fetches. }
      rewrite IH; [|lia|].
      * rewrite Hcount, allEntries_after, after_after.
        simpl allEntries. simpl failedSchedule. rewrite <- !app_assoc. reflexivity.
      * intros r j c Hr Hj. rewrite Hcount.
        specialize (Hfail (S r) j c ltac:(lia) Hj). simpl in Hfail.
        replace (fetchCount w + length candidates + r * length candidates + j)
          with (fetchCount w + (length candidates + r * length candidates) + j) by lia.
        exact Hfail.
Qed.

Lemma discoveryRounds_first_success (cfg : AuthConfig) (issuer : URL) (candidates : list URL) :
  buildWellKnownCandidates issuer = Return candidates ->
  forall (r0 remaining : nat) (attempt : Z) (attempts : list string) (w : World)
         (j0 : nat) (c0 : URL) (body : value),
    r0 < remaining ->
    (attempt + Z.of_nat remaining = MCP_OAUTH_DISCOVERY_RETRIES cfg + 1)%Z ->
    candidates !! j0 = Some c0 ->
    (forall r j c, r < r0 -> candidates !! j = Some c ->
       succeeded (outcomeAt w (fetchCount w + r * length candidates + j) c) = None) ->
    (forall j c, j < j0 -> candidates !! j = Some c ->
       succeeded (outcomeAt w (fetchCount w + r0 * length candidates + j) c) = None) ->
    succeeded (outcomeAt w (fetchCount w + r0 * length candidates + j0) c0) = Some body ->
    discoveryRounds cfg issuer remaining attempt attempts w =
      (Return body,
       after w (successSchedule candidates (MCP_OAUTH_DISCOVERY_RETRY_DELAY_MS cfg) r0 j0)).
Proof.
  intros Hcands. induction r0 as [|r0 IH];
    intros remaining attempt attempts w j0 c0 body Hlt Hround Hj0 Hrounds Hbefore Hsucc.
  - destruct remaining as [|remaining]; [lia|].
    rewrite (discoveryRounds_step _ _ _ _ _ _ _ Hcands).
    simpl in Hbefore, Hsucc. rewrite Nat.add_0_r in Hsucc.
    destruct (tryCandidates_first_success candidates attempts w j0 c0 body Hj0)
      as [attempts' ->]; [|exact Hsucc|reflexivity].
    intros j' c' Hj' Hc'. specialize (Hbefore j' c' Hj' Hc').
    rewrite Nat.add_0_r in Hbefore. exact Hbefore.
  - destruct remaining as [|remaining]; [lia|].
    rewrite (discoveryRounds_step _ _ _ _ _ _ _ Hcands).
    rewrite tryCandidates_all_fail.
    2:{ intros j c Hj. specialize (Hrounds 0 j c ltac:(lia) Hj). simpl in Hrounds.
        rewrite Nat.add_0_r in Hrounds. exact Hrounds. }
    replace (attempt <? MCP_OAUTH_DISCOVERY_RETRIES cfg)%Z with true
      by (symmetry; apply Z.ltb_lt; lia).
    rewrite after_after.
    assert (Hcount : fetchCount (after w (map fetchOf candidates
                                          ++ [CallSleep (MCP_OAUTH_DISCOVERY_RETRY_DELAY_MS cfg)]))
                     = fetchCount w + length candidates).
    { rewrite <- after_after, fetchCount_after_sleep. apply fetchCount_after_fetches. }
    rewrite (IH remaining (attempt + 1)%Z _ _ j0 c0 body); [| lia | lia | exact Hj0 | | | ].
    + rewrite after_after. simpl successSchedule. rewrite <- app_assoc. reflexivity.
    + intros r j c Hr Hj. rewrite Hcount.
      specialize (Hrounds (S r) j c ltac:(lia) Hj). simpl in Hrounds.
      replace (fetchCount w + length candidates + r * length candidates + j)
        with (fetchCount w + (length candidates + r * length candidates) + j) by lia.
      exact Hrounds.
    + intros j c Hj Hc. rewrite Hcount.
      specialize (Hbefore j c Hj Hc). simpl in Hbefore.
      replace (fetchCount w + length candidates + r0 * length candidates + j)
        with (fetchCount w + (length candidates + r0 * length candidates) + j) by lia.
      exact Hbefore.
    + rewrite Hcount. simpl in Hsucc.
      replace (fetchCount w + length candidates + r0 * length candidates + j0)
        with (fetchCount w + (length candidates + r0 * length candidates) + j0) by lia.
      exact Hsucc.
Qed.

Lemma allEntries_length (w : World) (start : nat) (candidates : list URL) (rounds : nat) :
  length (allEntries w start candidates rounds) = rounds * length candidates.
Proof.
  revert start. induction rounds as [|rounds IH]; intros start; simpl; [reflexivity|].
  rewrite length_app, IH. unfold roundEntries. rewrite length_imap. reflexivity.
Qed.

(** C2 (as implemented).  Let the retry count be N >= 1 and let an attempt succeed
    when the response is a 2xx response whose body parses as JSON (a 2xx
    response whose body does not parse is a failed attempt, like a non-2xx
    response or a network error).  If every attempt of every round fails,
    [discoverOAuthMetadata] fetches every candidate in order in each of
    exactly N rounds, sleeps for the configured delay between two rounds but
    not after the last, and throws one error whose message lists every
    attempt, N times the number of candidates in all, as the URL followed by
    its failure reason.  If the attempt at candidate [j0] of round [r0] is the
    first to succeed, its parsed body is returned and nothing is fetched
    after it. *)
Theorem discoverOAuthMetadata_spec (cfg : AuthConfig) (issuer : URL)
    (candidates : list URL) (w : World) :
  buildWellKnownCandidates issuer = Return candidates ->
  (1 <= MCP_OAUTH_DISCOVERY_RETRIES cfg)%Z ->
  let rounds := Z.to_nat (MCP_OAUTH_DISCOVERY_RETRIES cfg) in
  let delay := MCP_OAUTH_DISCOVERY_RETRY_DELAY_MS cfg in
  ((forall r j c, r < rounds -> candidates !! j = Some c ->
      succeeded (outcomeAt w (fetchCount w + r * length candidates + j) c) = None) ->
   discoverOAuthMetadata cfg issuer w =
     (Throw (Exn ClsError
               ("Unable to load OAuth metadata from issuer " +:+ href issuer +:+ ". Tried: "
                +:+ join "; " (allEntries w (fetchCount w) candidates rounds))),
      after w (failedSchedule candidates delay rounds))
   /\ length (allEntries w (fetchCount w) candidates rounds) = rounds * length candidates)
  /\
  (forall r0 j0 c0 body,
     r0 < rounds -> candidates !! j0 = Some c0 ->
     (forall r j c, r < r0 -> candidates !! j = Some c ->
        succeeded (outcomeAt w (fetchCount w + r * length candidates + j) c) = None) ->
     (forall j c, j < j0 -> candidates !! j = Some c ->
        succeeded (outcomeAt w (fetchCount w + r0 * length candidates + j) c) = None) ->
     succeeded (outcomeAt w (fetchCount w + r0 * length candidates + j0) c0) = Some body ->
     discoverOAuthMetadata cfg issuer w =
       (Return body, after w (successSchedule candidates delay r0 j0))).
Proof.
  intros Hcands HN rounds delay. unfold discoverOAuthMetadata. fold rounds. split.
  - intros Hfail. split; [|apply allEntries_length].
    rewrite (discoveryRounds_all_fail cfg issuer candidates Hcands rounds 1 [] w);
      [reflexivity| |exact Hfail].
    unfold rounds. rewrite Z2Nat.id by lia. lia.
  - intros r0 j0 c0 body Hr0 Hj0 Hrounds Hbefore Hsucc.
    apply (discoveryRounds_first_success cfg issuer candidates Hcands r0 rounds 1 [] w j0 c0 body);
      try assumption.
    unfold rounds. rewrite Z2Nat.id by lia. lia.
Qed.

(** Two rounds against a provider that answers 404 to everything: eight
    fetches, one sleep between the rounds, and the aggregated error. *)
Lemma discoverOAuthMetadata_spec_witness :
  exists candidates,
    buildWellKnownCandidates realmIssuer = Return candidates
    /\ length candidates = 4
    /\ discoverOAuthMetadata twoRoundConfig realmIssuer notFoundWorld =
         (Throw (Exn ClsError
                   ("Unable to load OAuth metadata from issuer " +:+ href realmIssuer
                    +:+ ". Tried: "
                    +:+ join "; " (allEntries notFoundWorld 0 candidates 2))),
          after notFoundWorld
            (map fetchOf candidates ++ CallSleep 2000 :: map fetchOf candidates ++ [])).
Proof.
  destruct (buildWellKnownCandidates realmIssuer) as [candidates|e] eqn:Hcands;
    [|discriminate Hcands].
  exists candidates. split; [reflexivity|].
  split; [injection Hcands as <-; reflexivity|].
  apply (proj1 (discoverOAuthMetadata_spec twoRoundConfig realmIssuer candidates notFoundWorld
                  Hcands ltac:(discriminate))).
  intros r j c _ _. reflexivity.
Defined.

(** C2, counterexample.  The first candidate answers 200 with a body that
    is not JSON: a 2xx response.  Its body is not returned, and the second
    candidate is fetched; the document returned is the second one's. *)
Lemma discovery_continues_after_unparsable_success :
  exists c1 c2 c3 c4 r,
    buildWellKnownCandidates realmIssuer = Return [c1; c2; c3; c4]
    /\ outcomeAt htmlThenJsonWorld 0 c1 = Responded r
    /\ status r = 200%Z /\ ok r = true
    /\ discoverOAuthMetadata twoRoundConfig realmIssuer htmlThenJsonWorld =
         (Return sampleMetadata, after htmlThenJsonWorld [fetchOf c1; fetchOf c2])
    /\ calls (snd (discoverOAuthMetadata twoRoundConfig realmIssuer htmlThenJsonWorld)) =
         [CallFetch (Get "https://auth.example.com/realms/main/.well-known/openid-configuration");
          CallFetch (Get "https://auth.example.com/realms/main/.well-known/oauth-authorization-server")].
Proof.
  do 5 eexists. split; [vm_compute; reflexivity|].
  split; [vm_compute; reflexivity|].
  split; [reflexivity|]. split; [reflexivity|].
  split; vm_compute; reflexivity.
Qed.

(** ** C9: the verifier is built from the discovered metadata *)

Lemma discoveryRounds_public_issuer (cfg : AuthConfig) (p : option string) (issuer : URL)
    (remaining : nat) :
  forall attempt attempts w,
    discoveryRounds (withPublicIssuer cfg p) issuer remaining attempt attempts w
    = discoveryRounds cfg issuer remaining attempt attempts w.
Proof.
  induction remaining as [|remaining IH]; intros attempt attempts w; [reflexivity|].
  simpl. unfold mbind, M_bind.
  destruct (lift (buildWellKnownCandidates issuer) w) as [[candidates|e] w0]; [|reflexivity].
  destruct (tryCandidates candidates attempts w0) as [[[[body|] attempts']|e] w1];
    try reflexivity.
  destruct (attempt <? MCP_OAUTH_DISCOVERY_RETRIES cfg)%Z; simpl; apply IH.
Qed.

Lemma discover_public_issuer (cfg : AuthConfig) (p : option string) (issuer : URL) (w : World) :
  discoverOAuthMetadata (withPublicIssuer cfg p) issuer w = discoverOAuthMetadata cfg issuer w.
Proof. apply discoveryRounds_public_issuer. Qed.

(** The calls of the two oauth verifiers: one request to the introspection
    endpoint, or one signature check against the JWKS URL. *)
Lemma introspection_verifier_calls (cfg : AuthConfig) (endpoint : value) (id secret : string)
    (url : URL) (tok : string) (w : World) :
  calls (snd (verifyAccessToken (buildIntrospectionVerifier cfg endpoint id secret url) tok w))
  = calls w ++ [CallFetch (introspectionRequest endpoint id secret url tok)].
Proof.
  unfold buildIntrospectionVerifier, verifyAccessToken, tryCatch, mbind, M_bind, fetch,
    introspectionRequest, throw, lift.
  repeat (break_match; simpl); reflexivity.
Qed.

Lemma jwt_verifier_calls (jwksUrl : URL) (issuer : value) (audience : option string)
    (tok : string) (w : World) :
  calls (snd (verifyAccessToken (buildJwtVerifier jwksUrl issuer audience) tok w))
  = calls w ++ [CallJwtVerify tok jwksUrl issuer audience].
Proof.
  unfold buildJwtVerifier, verifyAccessToken, tryCatch, mbind, M_bind, jwtVerify.
  destruct (jose w tok jwksUrl issuer audience) as [payload|e]; [reflexivity|].
  unfold classifyJwtError, throw, lift.
  repeat (break_match; simpl); reflexivity.
Qed.

(** What [buildOAuthAuthContext] builds from the discovered document. *)
Lemma buildOAuthAuthContext_from_discovered (cfg : AuthConfig) (url : URL) (w w1 w2 : World)
    (issuerString : string) (issuer : URL) (o : gmap string value) (ctx : AuthContext) :
  MCP_OAUTH_INTERNAL_ISSUER_URL cfg = Some issuerString ->
  parseURL issuerString = Some issuer ->
  discoverOAuthMetadata cfg issuer w = (Return (VObj o), w1) ->
  buildOAuthAuthContext cfg url w = (Return ctx, w2) ->
  w2 = w1
  /\ mode ctx = ModeOauth
  /\ (exists rewritten,
        rewriteOAuthMetadataIssuer (VObj o) (MCP_OAUTH_PUBLIC_ISSUER_URL cfg) = Return rewritten
        /\ oauthMetadata ctx = Some rewritten)
  /\ exists method,
       resolveValidationMethod (MCP_OAUTH_VALIDATION_METHOD cfg) (hasCredentials cfg)
         (present (chosenIntrospectionEndpoint cfg o)) (present (chosenJwksUri cfg o))
         = Return method
       /\ validationMethod ctx = Some method
       /\ match method with
          | Introspection =>
              middleware ctx =
                Some {| verifier := buildIntrospectionVerifier cfg
                                      (chosenIntrospectionEndpoint cfg o)
                                      (default "" (MCP_OAUTH_CLIENT_ID cfg))
                                      (default "" (MCP_OAUTH_CLIENT_SECRET cfg)) url;
                        requiredScopes := []; resourceServer := Some url |}
          | Jwt =>
              exists jwksUrl,
                parseURL (toStr (chosenJwksUri cfg o)) = Some jwksUrl
                /\ middleware ctx =
                     Some {| verifier := buildJwtVerifier jwksUrl
                                           (coalesce (ofOption (MCP_OAUTH_EXPECTED_ISSUER cfg))
                                              (coalesce (prop o "issuer") (VStr issuerString)))
                                           (MCP_OAUTH_AUDIENCE cfg);
                             requiredScopes := []; resourceServer := Some url |}
          end.
Proof.
  intros Hissuer Hparse Hdiscover.
  unfold buildOAuthAuthContext. rewrite Hissuer.
  destruct (String.eqb issuerString "") eqn:Hempty.
  { apply String.eqb_eq in Hempty. subst issuerString. discriminate Hparse. }
  unfold newURL. rewrite Hparse.
  unfold mbind at 1, M_bind at 1, lift at 1.
  unfold mbind at 1, M_bind at 1. rewrite Hdiscover.
  destruct (rewrite_never_throws (VObj o) (MCP_OAUTH_PUBLIC_ISSUER_URL cfg)) as [rewritten Hrw].
  rewrite Hrw. unfold mbind at 1, M_bind at 1, lift at 1.
  unfold chosenIntrospectionEndpoint, chosenJwksUri, hasCredentials.
  destruct (MCP_OAUTH_INTROSPECTION_URL cfg) as [ie|], (MCP_OAUTH_JWKS_URL cfg) as [ju|];
    unfold mbind, M_bind, lift, mret, M_ret, member, ofOption, coalesce;
    cbn [nullish]; cbv beta iota;
    (destruct (resolveValidationMethod _ _ _ _) as [[|]|e] eqn:Hmethod; [| |discriminate]).
  all: cbv beta iota zeta.
  all: try (intros [= <- <-]; split; [reflexivity|]; split; [reflexivity|];
            split; [exists rewritten; split; reflexivity|];
            eexists; split; [reflexivity|]; split; reflexivity).
  all: destruct (parseURL (toStr _)) as [jwksUrl|] eqn:Hjwks;
    unfold invalidUrl; cbv beta iota zeta; [|discriminate].
  all: destruct (MCP_OAUTH_EXPECTED_ISSUER cfg) as [expected|];
    cbv beta iota zeta; intros [= <- <-]; (split; [reflexivity|]); (split; [reflexivity|]);
    (split; [exists rewritten; split; reflexivity|]);
    (eexists; split; [reflexivity|]; split; [reflexivity|]);
    exists jwksUrl; (split; reflexivity).
Qed.

(** What [buildOAuthAuthContext] returns once the method is resolved. *)
Lemma buildOAuthAuthContext_builds (cfg : AuthConfig) (url : URL) (w w1 : World)
    (issuerString : string) (issuer : URL) (o : gmap string value) (rewritten : value)
    (method : ValidationMethod) :
  MCP_OAUTH_INTERNAL_ISSUER_URL cfg = Some issuerString ->
  parseURL issuerString = Some issuer ->
  discoverOAuthMetadata cfg issuer w = (Return (VObj o), w1) ->
  rewriteOAuthMetadataIssuer (VObj o) (MCP_OAUTH_PUBLIC_ISSUER_URL cfg) = Return rewritten ->
  resolveValidationMethod (MCP_OAUTH_VALIDATION_METHOD cfg) (hasCredentials cfg)
    (present (chosenIntrospectionEndpoint cfg o)) (present (chosenJwksUri cfg o))
    = Return method ->
  match method with
  | Introspection =>
      buildOAuthAuthContext cfg url w
      = (Return {| mode := ModeOauth;
                   middleware :=
                     Some {| verifier := buildIntrospectionVerifier cfg
                                           (chosenIntrospectionEndpoint cfg o)
                                           (default "" (MCP_OAUTH_CLIENT_ID cfg))
                                           (default "" (MCP_OAUTH_CLIENT_SECRET cfg)) url;
                             requiredScopes := []; resourceServer := Some url |};
                   oauthMetadata := Some rewritten;
                   validationMethod := Some Introspection |}, w1)
  | Jwt =>
      forall jwksUrl,
        parseURL (toStr (chosenJwksUri cfg o)) = Some jwksUrl ->
        buildOAuthAuthContext cfg url w
        = (Return {| mode := ModeOauth;
                     middleware :=
                       Some {| verifier := buildJwtVerifier jwksUrl
                                             (coalesce (ofOption (MCP_OAUTH_EXPECTED_ISSUER cfg))
                                                (coalesce (prop o "issuer") (VStr issuerString)))
                                             (MCP_OAUTH_AUDIENCE cfg);
                               requiredScopes := []; resourceServer := Some url |};
                     oauthMetadata := Some rewritten;
                     validationMethod := Some Jwt |}, w1)
  end.
Proof.
  intros Hissuer Hparse Hdiscover Hrw Hmethod.
  assert (String.eqb issuerString "" = false) as Hempty.
  { apply String.eqb_neq. intros ->. discriminate Hparse. }
  destruct method; [|intros jwksUrl Hjwks; revert Hjwks]; revert Hmethod.
  all: unfold buildOAuthAuthContext; rewrite Hissuer, Hempty.
  all: unfold newURL; rewrite Hparse.
  all: unfold mbind at 1, M_bind at 1, lift at 1.
  all: unfold mbind at 1, M_bind at 1; rewrite Hdiscover.
  all: rewrite Hrw; unfold mbind at 1, M_bind at 1, lift at 1.
  all: unfold chosenIntrospectionEndpoint, chosenJwksUri, hasCredentials.
  all: destruct (MCP_OAUTH_INTROSPECTION_URL cfg) as [ie|], (MCP_OAUTH_JWKS_URL cfg) as [ju|];
    unfold mbind, M_bind, lift, mret, M_ret, member, ofOption, coalesce;
    cbn [nullish]; cbv beta iota;
    intros Hmethod; rewrite Hmethod; cbv beta iota zeta; try reflexivity.
  all: intros Hjwks; rewrite Hjwks; cbv beta iota zeta;
    destruct (MCP_OAUTH_EXPECTED_ISSUER cfg) as [expected|]; reflexivity.
Qed.

Lemma buildOAuthAuthContext_frame (cfg : AuthConfig) (p : option string) (url : URL)
    (w : World) :
  match buildOAuthAuthContext cfg url w, buildOAuthAuthContext (withPublicIssuer cfg p) url w with
  | (Return ctx, w1), (Return ctx', w1') =>
      mode ctx' = mode ctx /\ middleware ctx' = middleware ctx
      /\ validationMethod ctx' = validationMethod ctx /\ w1' = w1
  | (Throw e, w1), (Throw e', w1') => e' = e /\ w1' = w1
  | _, _ => False
  end.
Proof.
  unfold buildOAuthAuthContext.
  change (MCP_OAUTH_INTERNAL_ISSUER_URL (withPublicIssuer cfg p))
    with (MCP_OAUTH_INTERNAL_ISSUER_URL cfg).
  destruct (MCP_OAUTH_INTERNAL_ISSUER_URL cfg) as [issuerString|]; [|split; reflexivity].
  destruct (String.eqb issuerString ""); [split; reflexivity|].
  unfold mbind, M_bind, lift, mret, M_ret.
  destruct (newURL issuerString) as [issuer|e]; [|split; reflexivity].
  rewrite discover_public_issuer.
  destruct (discoverOAuthMetadata cfg issuer w) as [[discovered|e] w1]; [|split; reflexivity].
  change (MCP_OAUTH_PUBLIC_ISSUER_URL (withPublicIssuer cfg p)) with p.
  destruct (rewrite_never_throws discovered (MCP_OAUTH_PUBLIC_ISSUER_URL cfg)) as [r1 ->].
  destruct (rewrite_never_throws discovered p) as [r2 ->].
  simpl.
  repeat (break_match; simpl; try (repeat split; reflexivity); try congruence).
Qed.

(** C9. In oauth mode the verifier does not depend on the issuer rewriting:
    with any other value of MCP_OAUTH_PUBLIC_ISSUER_URL the context has the
    same mode, the same middleware (hence the same verifier) and the same
    validation method, or construction fails with the same error, after the
    same calls.  The validation method is resolved from, and the verifier is
    built with, the introspection endpoint and the JWKS URI chosen as the
    override of the configuration, else the member of the discovered document
    as discovered; the rewritten document is only the [oauthMetadata] of the
    context.  The introspection verifier sends its one request to that
    endpoint, and the JWT verifier checks against that JWKS URL.  Such a
    context is indeed returned: for an issuer in plain form, once discovery
    has returned a document and the method is resolved from the chosen
    endpoints, construction returns, after the calls of discovery, the
    context with the rewritten document, the method, and the introspection
    verifier for the chosen endpoint or, when the chosen JWKS URI is a URL in
    plain form, the JWT verifier for it. *)
Theorem oauth_verifier_from_discovered_metadata (cfg : AuthConfig) (url : URL) (w : World) :
  (forall p,
     match buildOAuthAuthContext cfg url w,
           buildOAuthAuthContext (withPublicIssuer cfg p) url w with
     | (Return ctx, w1), (Return ctx', w1') =>
         mode ctx' = mode ctx /\ middleware ctx' = middleware ctx
         /\ validationMethod ctx' = validationMethod ctx /\ w1' = w1
     | (Throw e, w1), (Throw e', w1') => e' = e /\ w1' = w1
     | _, _ => False
     end) /\
  (forall issuerString issuer (o : gmap string value) w1 ctx w2,
     MCP_OAUTH_INTERNAL_ISSUER_URL cfg = Some issuerString ->
     parseURL issuerString = Some issuer ->
     discoverOAuthMetadata cfg issuer w = (Return (VObj o), w1) ->
     buildOAuthAuthContext cfg url w = (Return ctx, w2) ->
     (exists rewritten,
        rewriteOAuthMetadataIssuer (VObj o) (MCP_OAUTH_PUBLIC_ISSUER_URL cfg) = Return rewritten
        /\ oauthMetadata ctx = Some rewritten)
     /\ exists method,
          resolveValidationMethod (MCP_OAUTH_VALIDATION_METHOD cfg) (hasCredentials cfg)
            (present (chosenIntrospectionEndpoint cfg o)) (present (chosenJwksUri cfg o))
            = Return method
          /\ validationMethod ctx = Some method
          /\ match method with
             | Introspection =>
                 middleware ctx =
                   Some {| verifier := buildIntrospectionVerifier cfg
                                         (chosenIntrospectionEndpoint cfg o)
                                         (default "" (MCP_OAUTH_CLIENT_ID cfg))
                                         (default "" (MCP_OAUTH_CLIENT_SECRET cfg)) url;
                           requiredScopes := []; resourceServer := Some url |}
             | Jwt =>
                 exists jwksUrl,
                   parseURL (toStr (chosenJwksUri cfg o)) = Some jwksUrl
                   /\ middleware ctx =
                        Some {| verifier := buildJwtVerifier jwksUrl
                                              (coalesce (ofOption (MCP_OAUTH_EXPECTED_ISSUER cfg))
                                                 (coalesce (prop o "issuer") (VStr issuerString)))
                                              (MCP_OAUTH_AUDIENCE cfg);
                                requiredScopes := []; resourceServer := Some url |}
             end) /\
  (forall endpoint id secret tok w',
     calls (snd (verifyAccessToken (buildIntrospectionVerifier cfg endpoint id secret url) tok w'))
     = calls w' ++ [CallFetch (introspectionRequest endpoint id secret url tok)]) /\
  (forall jwksUrl issuer audience tok w',
     calls (snd (verifyAccessToken (buildJwtVerifier jwksUrl issuer audience) tok w'))
     = calls w' ++ [CallJwtVerify tok jwksUrl issuer audience]) /\
  (forall issuerString issuer (o : gmap string value) w1 method,
     MCP_OAUTH_INTERNAL_ISSUER_URL cfg = Some issuerString ->
     parseURL issuerString = Some issuer -> plain issuer = true ->
     discoverOAuthMetadata cfg issuer w = (Return (VObj o), w1) ->
     resolveValidationMethod (MCP_OAUTH_VALIDATION_METHOD cfg) (hasCredentials cfg)
       (present (chosenIntrospectionEndpoint cfg o)) (present (chosenJwksUri cfg o))
       = Return method ->
     exists rewritten,
       rewriteOAuthMetadataIssuer (VObj o) (MCP_OAUTH_PUBLIC_ISSUER_URL cfg) = Return rewritten
       /\ match method with
          | Introspection =>
              buildOAuthAuthContext cfg url w
              = (Return {| mode := ModeOauth;
                           middleware :=
                             Some {| verifier := buildIntrospectionVerifier cfg
                                                   (chosenIntrospectionEndpoint cfg o)
                                                   (default "" (MCP_OAUTH_CLIENT_ID cfg))
                                                   (default "" (MCP_OAUTH_CLIENT_SECRET cfg))
                                                   url;
                                     requiredScopes := []; resourceServer := Some url |};
                           oauthMetadata := Some rewritten;
                           validationMethod := Some Introspection |}, w1)
          | Jwt =>
              forall jwksUrl,
                parseURL (toStr (chosenJwksUri cfg o)) = Some jwksUrl ->
                plain jwksUrl = true ->
                buildOAuthAuthContext cfg url w
                = (Return {| mode := ModeOauth;
                             middleware :=
                               Some {| verifier :=
                                         buildJwtVerifier jwksUrl
                                           (coalesce (ofOption (MCP_OAUTH_EXPECTED_ISSUER cfg))
                                              (coalesce (prop o "issuer") (VStr issuerString)))
                                           (MCP_OAUTH_AUDIENCE cfg);
                                       requiredScopes := []; resourceServer := Some url |};
                             oauthMetadata := Some rewritten;
                             validationMethod := Some Jwt |}, w1)
          end).
Proof.
  split; [|split; [|split; [|split]]].
  - intros p. apply buildOAuthAuthContext_frame.
  - intros issuerString issuer o w1 ctx w2 Hissuer Hparse Hdiscover Hbuild.
    destruct (buildOAuthAuthContext_from_discovered cfg url w w1 w2 issuerString issuer o ctx
                Hissuer Hparse Hdiscover Hbuild) as (_ & _ & Hmeta & Hverifier).
    split; assumption.
  - intros endpoint id secret tok w'. apply introspection_verifier_calls.
  - intros jwksUrl issuer audience tok w'. apply jwt_verifier_calls.
  - intros issuerString issuer o w1 method Hissuer Hparse _ Hdiscover Hmethod.
    destruct (rewrite_never_throws (VObj o) (MCP_OAUTH_PUBLIC_ISSUER_URL cfg))
      as [rewritten Hrw].
    exists rewritten. split; [exact Hrw|].
    pose proof (buildOAuthAuthContext_builds cfg url w w1 issuerString issuer o rewritten
                  method Hissuer Hparse Hdiscover Hrw Hmethod) as Hbuilds.
    destruct method; [exact Hbuilds|].
    intros jwksUrl Hjwks _. exact (Hbuilds jwksUrl Hjwks).
Qed.

(** Two scenarios.  In the first (scenario D of the specification: auto, no
    credentials, a discovered document with a jwks_uri only, a public issuer
    set) the method is jwt, the verifier checks against the discovered JWKS
    URL, and only the published document carries the public issuer.  In the
    second (credentials, an introspection endpoint given by hand, a document
    that names another one, a public issuer set) the method is
    introspection, the verifier sends its request to the endpoint given by
    hand, and the published document carries the discovered endpoint moved to
    the public issuer. *)
Lemma oauth_verifier_from_discovered_metadata_witness :
  (let cfg := withPublicIssuer twoRoundConfig (Some "https://login.example.org") in
   exists ctx w2 mw,
     buildOAuthAuthContext cfg localhostMcp htmlThenJsonWorld = (Return ctx, w2)
     /\ validationMethod ctx = Some Jwt
     /\ middleware ctx = Some mw
     /\ (forall tok w',
           calls (snd (verifyAccessToken (verifier mw) tok w')) =
             calls w' ++ [CallJwtVerify tok
                            {| scheme := "https"; authority := "auth.example.com";
                               path := "/realms/main/certs"; query := None; fragment := None |}
                            (VStr "https://auth.example.com/realms/main") None])
     /\ exists published,
          oauthMetadata ctx = Some (VObj published)
          /\ published !! "issuer" = Some (VStr "https://login.example.org/")
          /\ published !! "jwks_uri" = Some (VStr "https://login.example.org/realms/main/certs")) /\
  (exists ctx mw published,
     buildOAuthAuthContext overrideConfig localhostMcp overrideWorld
     = (Return ctx, snd (discoverOAuthMetadata overrideConfig realmIssuer overrideWorld))
     /\ validationMethod ctx = Some Introspection
     /\ middleware ctx = Some mw
     /\ (forall tok w',
           calls (snd (verifyAccessToken (verifier mw) tok w')) =
             calls w' ++ [CallFetch (PostForm "https://introspect.example.com/check"
                                       "mcp" "s3cret"
                                       [("token", tok); ("token_type_hint", "access_token");
                                        ("resource", "http://localhost:3000/mcp")])])
     /\ oauthMetadata ctx = Some (VObj published)
     /\ published !! "introspection_endpoint"
        = Some (VStr "https://login.example.org/realms/main/introspect")).
Proof.
  split.
  - intros cfg.
    destruct (proj2 (proj2 (proj2 (proj2 (oauth_verifier_from_discovered_metadata cfg
                                            localhostMcp htmlThenJsonWorld))))
                "https://auth.example.com/realms/main" realmIssuer sampleDocument
                (after htmlThenJsonWorld
                   [fetchOf (rootCandidate realmIssuer "/realms/main/.well-known/openid-configuration");
                    fetchOf (rootCandidate realmIssuer "/realms/main/.well-known/oauth-authorization-server")])
                Jwt eq_refl eq_refl eq_refl ltac:(vm_compute; reflexivity) eq_refl)
      as (rewritten & Hrw & Hbuild).
    specialize (Hbuild {| scheme := "https"; authority := "auth.example.com";
                          path := "/realms/main/certs"; query := None; fragment := None |}
                       eq_refl eq_refl).
    do 3 eexists. split; [exact Hbuild|]. split; [reflexivity|]. split; [reflexivity|].
    split.
    + intros tok w'. cbn [verifier].
      apply (proj1 (proj2 (proj2 (proj2 (oauth_verifier_from_discovered_metadata cfg
                                           localhostMcp htmlThenJsonWorld))))).
    + vm_compute in Hrw. injection Hrw as <-. eexists. split; [reflexivity|].
      split; vm_compute; reflexivity.
  - destruct (proj2 (proj2 (proj2 (proj2 (oauth_verifier_from_discovered_metadata
                                            overrideConfig localhostMcp overrideWorld))))
                "https://auth.example.com/realms/main" realmIssuer overrideDocument
                (snd (discoverOAuthMetadata overrideConfig realmIssuer overrideWorld))
                Introspection eq_refl eq_refl eq_refl ltac:(vm_compute; reflexivity) eq_refl)
      as (rewritten & Hrw & Hbuild).
    vm_compute in Hrw. injection Hrw as <-.
    do 3 eexists. split; [exact Hbuild|]. split; [reflexivity|]. split; [reflexivity|].
    split.
    + intros tok w'. cbn [verifier].
      apply (proj1 (proj2 (proj2 (oauth_verifier_from_discovered_metadata overrideConfig
                                    localhostMcp overrideWorld)))).
    + split; [reflexivity|]. vm_compute. reflexivity.
Defined.

(** ** C5: the mode resolver *)





(** * Further properties *)

Import More.

(** ** The JWT verifier *)

(** X1. The JWT verifier accepts a token exactly when jose accepts it, and
    then reports the client id, scopes and expiry read from the payload.
    Every rejection is an InvalidTokenError with one of five fixed messages,
    chosen by the first of the words expired, audience, issuer, signature that
    the message of jose's error contains, and generic when it contains
    none. *)
Theorem jwt_verifier_outcomes (jwksUrl : URL) (issuer : value) (audience : option string)
    (tok : string) (w : World) :
  let run := verifyAccessToken (buildJwtVerifier jwksUrl issuer audience) tok w in
  (forall payload,
     jose w tok jwksUrl issuer audience = Return payload ->
     fst run = Return {| token := tok; clientId := extractClientId payload;
                         scopes := extractScopes payload;
                         expiresAt := numberOf (prop payload "exp") |}) /\
  (forall e,
     jose w tok jwksUrl issuer audience = Throw e ->
     exists msg,
       fst run = Throw (Exn ClsInvalidTokenError msg)
       /\ msg = (if includes "expired" (message e) then "Token has expired"
                 else if includes "audience" (message e) then "Token audience does not match"
                 else if includes "issuer" (message e) then "Token issuer does not match"
                 else if includes "signature" (message e) then "Invalid token signature"
                 else "Token validation failed")) /\
  (forall e, fst run = Throw e -> cls e = ClsInvalidTokenError).
Proof.
  cbv zeta. unfold buildJwtVerifier, verifyAccessToken, tryCatch, mbind, M_bind, jwtVerify,
    classifyJwtError, throw, lift.
  destruct (jose w tok jwksUrl issuer audience) as [payload|e0].
  - split; [intros p [= <-]; reflexivity|]. split; [intros e H; discriminate H|].
    intros e H. discriminate H.
  - split; [intros p H; discriminate H|]. split.
    + intros e [= <-]. eexists. split; [|reflexivity].
      repeat (break_match; simpl); reflexivity.
    + intros e. repeat (break_match; simpl); intros [= <-]; reflexivity.
Qed.

(** ** The introspection verifier *)

Lemma member_true_is_object (data : value) (k : string) :
  member data k = Return (VBool true) -> exists o, data = VObj o.
Proof.
  destruct data as [ | | b | n | s | items | o]; simpl; try discriminate.
  intros _. exists o. reflexivity.
Qed.

(** X2. The introspection verifier accepts a token exactly when the
    introspection request gets a 2xx response whose body parses to an object
    with [active] strictly [true] and an [aud] that matches the configured
    audience.  Everything else (a network error, another status, a body that
    does not parse or is not an object, a token that is not active, another
    audience) is an InvalidTokenError: no other error leaves the verifier. *)
Theorem introspection_verifier_accepts_iff (cfg : AuthConfig) (endpoint : value)
    (id secret : string) (url : URL) (tok : string) (w : World) :
  let run := verifyAccessToken (buildIntrospectionVerifier cfg endpoint id secret url) tok w in
  ((exists res, fst run = Return res) <->
   (exists r o,
      network w (fetchCount w) (introspectionRequest endpoint id secret url tok) = Responded r
      /\ ok r = true
      /\ json r = Return (VObj o)
      /\ prop o "active" = VBool true
      /\ audienceMatches (prop o "aud") (MCP_OAUTH_AUDIENCE cfg) = true)) /\
  (forall e, fst run = Throw e -> cls e = ClsInvalidTokenError).
Proof.
  cbv zeta. split.
  - split.
    + unfold buildIntrospectionVerifier, verifyAccessToken, tryCatch, mbind, M_bind, fetch,
        introspectionRequest, throw, lift.
      destruct (network w _ _) as [e|r] eqn:Hnet.
      { intros [res H]. destruct (cls e); discriminate H. }
      destruct (ok r) eqn:Hok; simpl.
      2:{ intros [res H]. discriminate H. }
      destruct (json r) as [data|e] eqn:Hjson.
      2:{ intros [res H]. destruct (cls e); discriminate H. }
      destruct (member data "active") as [active|e] eqn:Hactive.
      2:{ intros [res H]. destruct (cls e); discriminate H. }
      destruct active as [ | | [|] | n | s | items | members];
        try (intros [res H]; discriminate H).
      destruct (member_true_is_object _ _ Hactive) as [o ->].
      simpl in Hactive. injection Hactive as Hactive. simpl.
      destruct (audienceMatches (prop o "aud") (MCP_OAUTH_AUDIENCE cfg)) eqn:Haud; simpl.
      2:{ intros [res H]. discriminate H. }
      intros _. exists r, o. auto.
    + intros (r & o & Hnet & Hok & Hjson & Hactive & Haud). eexists.
      rewrite (introspection_verifier_active cfg endpoint id secret url tok w r o
                 Hnet Hok Hjson Hactive Haud).
      reflexivity.
  - unfold buildIntrospectionVerifier, verifyAccessToken, introspectionResult, tryCatch,
      mbind, M_bind, result_bind, fetch, introspectionRequest, throw, lift.
    intros e. repeat (break_match; simpl); intros H; inversion H; subst;
      try reflexivity; try assumption.
Qed.

(** ** Construction of the context *)

(** X3. In oauth mode a missing issuer URL (undefined or empty) makes
    construction fail with an error naming MCP_OAUTH_INTERNAL_ISSUER_URL, and
    a non-empty issuer string without a scheme, which is no URL, makes it fail
    with a TypeError; in both cases no call has been made. *)
Theorem oauth_issuer_checked_before_network (cfg : AuthConfig) (url : URL) (w : World) :
  (missing (MCP_OAUTH_INTERNAL_ISSUER_URL cfg) = true ->
   exists msg,
     buildOAuthAuthContext cfg url w = (Throw (Exn ClsError msg), w)
     /\ includes "MCP_OAUTH_INTERNAL_ISSUER_URL" msg = true) /\
  (forall s, MCP_OAUTH_INTERNAL_ISSUER_URL cfg = Some s -> s <> "" -> noScheme s = true ->
             exists msg, buildOAuthAuthContext cfg url w = (Throw (Exn ClsTypeError msg), w)).
Proof.
  unfold buildOAuthAuthContext. split.
  - unfold missing. destruct (MCP_OAUTH_INTERNAL_ISSUER_URL cfg) as [s|].
    + intros ->. eexists. split; [reflexivity|vm_compute; reflexivity].
    + intros _. eexists. split; [reflexivity|vm_compute; reflexivity].
  - intros s -> Hne Hparse. apply noScheme_unparsable in Hparse.
    rewrite (eqb_false_of_ne _ _ Hne).
    unfold mbind, M_bind, lift, newURL. rewrite Hparse. eexists. reflexivity.
Qed.

(** X4. Construction in oauth mode makes the calls of metadata discovery and
    no other: whatever the outcome, the world after [buildOAuthAuthContext]
    is the world after [discoverOAuthMetadata].  Neither the JWKS URL nor the
    introspection endpoint is contacted before a token is verified. *)
Theorem oauth_construction_only_discovers (cfg : AuthConfig) (url : URL) (w : World)
    (s : string) (issuer : URL) :
  MCP_OAUTH_INTERNAL_ISSUER_URL cfg = Some s ->
  parseURL s = Some issuer ->
  snd (buildOAuthAuthContext cfg url w) = snd (discoverOAuthMetadata cfg issuer w).
Proof.
  intros Hs Hparse. unfold buildOAuthAuthContext. rewrite Hs.
  destruct (String.eqb s "") eqn:He.
  { apply String.eqb_eq in He. subst s. discriminate Hparse. }
  unfold mbind, M_bind, lift, mret, M_ret, newURL. rewrite Hparse.
  destruct (discoverOAuthMetadata cfg issuer w) as [[discovered|e] w1]; [|reflexivity].
  destruct (rewrite_never_throws discovered (MCP_OAUTH_PUBLIC_ISSUER_URL cfg)) as [r ->].
  simpl. repeat (break_match; simpl);
    repeat match goal with
      | H : (_, _) = (_, _) |- _ => injection H as ? ?; subst
      end; try reflexivity; try discriminate.
Qed.

(** The two-round configuration against a provider that answers 404. *)
Lemma oauth_construction_only_discovers_witness :
  snd (buildOAuthAuthContext twoRoundConfig localhostMcp notFoundWorld)
  = snd (discoverOAuthMetadata twoRoundConfig realmIssuer notFoundWorld).
Proof.
  apply (oauth_construction_only_discovers twoRoundConfig localhostMcp notFoundWorld
           "https://auth.example.com/realms/main" realmIssuer); reflexivity.
Defined.

Lemma buildAuthContext_unparsable_public_url (cfg : AuthConfig) (options : AuthOptions)
    (w : World) :
  parseURL (default (MCP_PUBLIC_URL cfg) (env_MCP_PUBLIC_URL cfg)) = None ->
  exists msg, buildAuthContext cfg options w = (Throw (Exn ClsTypeError msg), w).
Proof.
  intros Hparse. unfold buildAuthContext, mbind, M_bind, lift, newURL.
  rewrite Hparse. eexists. reflexivity.
Qed.

(** X5. With a retry count of zero or less [discoverOAuthMetadata] makes no
    request and does not sleep: it throws at once, and the list of attempts
    in the message is empty. *)
Theorem discovery_without_rounds (cfg : AuthConfig) (issuer : URL) (w : World) :
  (MCP_OAUTH_DISCOVERY_RETRIES cfg <= 0)%Z ->
  discoverOAuthMetadata cfg issuer w =
    (Throw (Exn ClsError ("Unable to load OAuth metadata from issuer " +:+ href issuer
                          +:+ ". Tried: ")), w).
Proof.
  intros HN. unfold discoverOAuthMetadata.
  replace (Z.to_nat (MCP_OAUTH_DISCOVERY_RETRIES cfg)) with 0 by lia.
  reflexivity.
Qed.

Lemma discovery_without_rounds_witness :
  discoverOAuthMetadata (withRetries twoRoundConfig 0) realmIssuer notFoundWorld =
    (Throw (Exn ClsError ("Unable to load OAuth metadata from issuer " +:+ href realmIssuer
                          +:+ ". Tried: ")), notFoundWorld).
Proof.
  apply (discovery_without_rounds (withRetries twoRoundConfig 0) realmIssuer notFoundWorld).
  discriminate.
Defined.

(** ** Trailing slashes and candidates *)

Lemma withTrailingSlash_idempotent (issuer : URL) :
  withTrailingSlash (withTrailingSlash issuer) = withTrailingSlash issuer.
Proof.
  unfold withTrailingSlash at 2 3.
  destruct (endsWith "/" (href issuer)) eqn:Hhref.
  - unfold withTrailingSlash. rewrite Hhref. reflexivity.
  - destruct (endsWith "/" (path issuer)) eqn:Hpath.
    + unfold withTrailingSlash. rewrite Hhref, Hpath. reflexivity.
    + unfold withTrailingSlash. cbn [path].
      rewrite endsWith_append_slash.
      match goal with
      | |- context [if endsWith "/" (href ?u) then _ else _] =>
          destruct (endsWith "/" (href u)); reflexivity
      end.
Qed.

(** X6. On an http or https URL, [ensureTrailingSlash] returns a URL
    with the same scheme, authority, query and fragment whose path is the
    given path, with a slash appended when neither the href nor the path
    ended with one; applied to its own result it changes nothing. *)
Theorem ensureTrailingSlash_idempotent (issuer : URL) :
  wellFormed issuer = true ->
  exists slashed,
    ensureTrailingSlash issuer = Return slashed
    /\ ensureTrailingSlash slashed = Return slashed
    /\ scheme slashed = scheme issuer /\ authority slashed = authority issuer
    /\ query slashed = query issuer /\ fragment slashed = fragment issuer
    /\ (path slashed = path issuer \/ path slashed = path issuer +:+ "/")
    /\ (endsWith "/" (href slashed) = true \/ endsWith "/" (path slashed) = true).
Proof.
  intros Hwf. destruct (ensureTrailingSlash_wellFormed issuer Hwf) as [Hrun Hwf'].
  exists (withTrailingSlash issuer). split; [exact Hrun|]. split.
  - rewrite (proj1 (ensureTrailingSlash_wellFormed _ Hwf')).
    rewrite withTrailingSlash_idempotent. reflexivity.
  - destruct (withTrailingSlash_frame issuer) as (Hs & Ha & Hq & Hf).
    repeat (split; [assumption|]). split; [|apply withTrailingSlash_ends].
    unfold withTrailingSlash.
    destruct (endsWith "/" (href issuer)); [left; reflexivity|].
    destruct (endsWith "/" (path issuer)); [left; reflexivity|right; reflexivity].
Qed.

Lemma ensureTrailingSlash_idempotent_witness :
  exists slashed,
    ensureTrailingSlash realmIssuer = Return slashed
    /\ ensureTrailingSlash slashed = Return slashed
    /\ path slashed = "/realms/main/".
Proof.
  destruct (ensureTrailingSlash_idempotent realmIssuer eq_refl)
    as (slashed & Hrun & Hagain & _).
  exists slashed. split; [exact Hrun|]. split; [exact Hagain|].
  vm_compute in Hrun. injection Hrun as <-. reflexivity.
Defined.

Lemma extend_origin (u : URL) (suffix : string) :
  scheme (extend u suffix) = scheme u /\ authority (extend u suffix) = authority u.
Proof. unfold extend. destruct (fragment u), (query u); split; reflexivity. Qed.

Lemma buildWellKnownCandidates_explicit (issuer : URL) :
  wellFormed issuer = true ->
  buildWellKnownCandidates issuer =
    Return [extend (withTrailingSlash issuer) ".well-known/openid-configuration";
            extend (withTrailingSlash issuer) ".well-known/oauth-authorization-server";
            rootCandidate issuer "/.well-known/openid-configuration";
            rootCandidate issuer "/.well-known/oauth-authorization-server"].
Proof.
  intros Hwf. destruct (ensureTrailingSlash_wellFormed issuer Hwf) as [Hslashed Hwf'].
  unfold buildWellKnownCandidates. rewrite Hslashed.
  unfold mbind, result_bind at 1. simpl mapM. unfold newURL.
  rewrite (parseURL_href_extend _ ".well-known/openid-configuration" Hwf' eq_refl).
  rewrite (parseURL_href_extend _ ".well-known/oauth-authorization-server" Hwf' eq_refl).
  rewrite (newURLFrom_absolute_path "/.well-known/openid-configuration" issuer
             eq_refl eq_refl eq_refl).
  rewrite (newURLFrom_absolute_path "/.well-known/oauth-authorization-server" issuer
             eq_refl eq_refl eq_refl).
  reflexivity.
Qed.

Lemma candidates_same_origin (issuer : URL) (candidates : list URL) :
  wellFormed issuer = true ->
  buildWellKnownCandidates issuer = Return candidates ->
  forall c, In c candidates -> scheme c = scheme issuer /\ authority c = authority issuer.
Proof.
  intros Hwf Hcands c Hin. rewrite (buildWellKnownCandidates_explicit issuer Hwf) in Hcands.
  injection Hcands as <-.
  destruct (withTrailingSlash_frame issuer) as (Hs & Ha & _).
  simpl in Hin.
  destruct Hin as [<- | [<- | [<- | [<- | []]]]];
    try (destruct (extend_origin (withTrailingSlash issuer) ".well-known/openid-configuration");
         destruct (extend_origin (withTrailingSlash issuer) ".well-known/oauth-authorization-server");
         split; congruence);
    split; reflexivity.
Qed.

Lemma In_take {A : Type} (k : nat) (l : list A) (x : A) : In x (take k l) -> In x l.
Proof.
  revert k. induction l as [|y l IH]; intros [|k]; simpl; try contradiction.
  intros [-> | H]; [left; reflexivity|right; exact (IH k H)].
Qed.

(** The calls of one round: fetches of the first candidates. *)
Lemma tryCandidates_calls (candidates : list URL) :
  forall attempts w,
    exists k, snd (tryCandidates candidates attempts w)
              = after w (map fetchOf (take k candidates)).
Proof.
  induction candidates as [|c rest IH]; intros attempts w.
  - exists 0. simpl. rewrite after_nil. reflexivity.
  - simpl tryCandidates. unfold mbind, M_bind. rewrite tryCandidate_spec.
    destruct (succeeded _) as [body|].
    + exists 1. reflexivity.
    + destruct (IH (attempts ++ [attemptEntry c (outcomeAt w (fetchCount w) c)])
                   (after w [fetchOf c])) as [k Hk].
      exists (S k). rewrite Hk, after_after. reflexivity.
Qed.

(** The calls of discovery: sleeps of the configured delay and fetches of
    candidates, with at most one fetch per candidate and round. *)
Lemma discoveryRounds_calls (cfg : AuthConfig) (issuer : URL) (candidates : list URL) :
  buildWellKnownCandidates issuer = Return candidates ->
  forall remaining attempt attempts w,
    exists events,
      snd (discoveryRounds cfg issuer remaining attempt attempts w) = after w events
      /\ Forall (fun e => e = CallSleep (MCP_OAUTH_DISCOVERY_RETRY_DELAY_MS cfg)
                          \/ exists c, In c candidates /\ e = fetchOf c) events
      /\ length (List.filter isFetch events) <= remaining * length candidates.
Proof.
  intros Hcands. induction remaining as [|remaining IH]; intros attempt attempts w.
  - exists []. simpl. rewrite after_nil. split; [reflexivity|]. split; [constructor|lia].
  - rewrite (discoveryRounds_step _ _ _ _ _ _ _ Hcands).
    destruct (tryCandidates_calls candidates attempts w) as [k Hk].
    assert (Hfetches : Forall (fun e => e = CallSleep (MCP_OAUTH_DISCOVERY_RETRY_DELAY_MS cfg)
                                  \/ exists c, In c candidates /\ e = fetchOf c)
                         (map fetchOf (take k candidates))).
    { apply List.Forall_forall. intros e He. apply in_map_iff in He.
      destruct He as (c & <- & Hc). right. exists c. split; [|reflexivity].
      exact (In_take k candidates c Hc). }
    assert (Hcount : length (List.filter isFetch (map fetchOf (take k candidates)))
                     <= length candidates).
    { clear. revert k. induction candidates as [|c rest IHc]; intros [|k]; simpl; try lia.
      specialize (IHc k). lia. }
    destruct (tryCandidates candidates attempts w) as [[[[body|] attempts']|e] w1];
      simpl in Hk; subst w1.
    + eexists. split; [reflexivity|]. split; [exact Hfetches|]. simpl. lia.
    + destruct (attempt <? MCP_OAUTH_DISCOVERY_RETRIES cfg)%Z.
      * destruct (IH (attempt + 1)%Z attempts'
                    (after (after w (map fetchOf (take k candidates)))
                       [CallSleep (MCP_OAUTH_DISCOVERY_RETRY_DELAY_MS cfg)]))
          as (events & Hevents & Hall & Hlen).
        eexists. split; [rewrite Hevents, !after_after; reflexivity|].
        split.
        -- apply Forall_app. split; [exact Hfetches|].
           apply Forall_app. split; [|exact Hall].
           constructor; [left; reflexivity|constructor].
        -- rewrite !List.filter_app, !length_app. simpl. lia.
      * destruct (IH (attempt + 1)%Z attempts' (after w (map fetchOf (take k candidates))))
          as (events & Hevents & Hall & Hlen).
        eexists. split; [rewrite Hevents, after_after; reflexivity|].
        split; [apply Forall_app; split; assumption|].
        rewrite List.filter_app, length_app. simpl. lia.
    + eexists. split; [reflexivity|]. split; [exact Hfetches|]. simpl. lia.
Qed.

(** X7. Whatever the provider answers, the calls [discoverOAuthMetadata]
    makes are sleeps of the configured delay and GET requests to URLs that
    have the scheme and the authority of the issuer, and there are at most
    four requests per round. *)
Theorem discovery_stays_on_issuer_origin (cfg : AuthConfig) (issuer : URL) (w : World) :
  wellFormed issuer = true ->
  exists events,
    snd (discoverOAuthMetadata cfg issuer w) = after w events
    /\ Forall (fun e =>
                 e = CallSleep (MCP_OAUTH_DISCOVERY_RETRY_DELAY_MS cfg)
                 \/ exists c, scheme c = scheme issuer /\ authority c = authority issuer
                              /\ e = CallFetch (Get (href c))) events
    /\ length (List.filter isFetch events)
       <= Z.to_nat (MCP_OAUTH_DISCOVERY_RETRIES cfg) * 4.
Proof.
  intros Hwf. pose proof (buildWellKnownCandidates_explicit issuer Hwf) as Hcands.
  destruct (discoveryRounds_calls cfg issuer _ Hcands
              (Z.to_nat (MCP_OAUTH_DISCOVERY_RETRIES cfg)) 1%Z [] w)
    as (events & Hevents & Hall & Hlen).
  exists events. split; [exact Hevents|]. split; [|exact Hlen].
  eapply Forall_impl; [exact Hall|].
  intros e [-> | (c & Hc & ->)]; [left; reflexivity|].
  right. exists c. destruct (candidates_same_origin issuer _ Hwf Hcands c Hc) as [Hs Ha].
  auto.
Qed.

Lemma discovery_stays_on_issuer_origin_witness :
  exists events,
    snd (discoverOAuthMetadata twoRoundConfig realmIssuer htmlThenJsonWorld)
    = after htmlThenJsonWorld events
    /\ length (List.filter isFetch events) <= 8.
Proof.
  destruct (discovery_stays_on_issuer_origin twoRoundConfig realmIssuer htmlThenJsonWorld eq_refl)
    as (events & Hevents & _ & Hlen).
  exists events. split; [exact Hevents|exact Hlen].
Defined.

(** ** Rewriting twice *)

Lemma dropEmpty_idempotent (c : option string) : dropEmpty (dropEmpty c) = dropEmpty c.
Proof.
  destruct c as [s|]; [|reflexivity]. simpl.
  destruct (String.eqb s "") eqn:E; [reflexivity|]. simpl. rewrite E. reflexivity.
Qed.

Lemma rebased_idempotent (issuerUrl original : URL) :
  rebased issuerUrl (rebased issuerUrl original) = rebased issuerUrl original.
Proof. unfold rebased. simpl. rewrite !dropEmpty_idempotent. reflexivity. Qed.

Lemma rebased_wellFormed (issuerUrl original : URL) :
  wellFormed issuerUrl = true -> wellFormed original = true ->
  wellFormed (rebased issuerUrl original) = true.
Proof.
  intros HI Hu.
  destruct (wellFormed_parts _ Hu) as (_ & _ & _ & Hslash & Hpath & Hquery).
  unfold wellFormed in *. simpl.
  repeat (apply andb_prop in HI; destruct HI as [HI ?]).
  repeat (apply andb_true_intro; split); try assumption.
  destruct (query original) as [q|]; [|reflexivity]. simpl.
  destruct (String.eqb q ""); [reflexivity|exact Hquery].
Qed.

Lemma href_not_empty (u : URL) : wellFormed u = true -> href u <> "".
Proof.
  intros Hwf. destruct (wellFormed_parts _ Hwf) as ([Hs | Hs] & _);
    unfold href; rewrite Hs; discriminate.
Qed.

(** A rewritten member is rewritable again and is not changed by it. *)
Lemma rewrittenMember_stable (issuerUrl : URL) (v : value) :
  wellFormed issuerUrl = true -> rewritable v ->
  rewritable (rewrittenMember issuerUrl v)
  /\ rewrittenMember issuerUrl (rewrittenMember issuerUrl v) = rewrittenMember issuerUrl v.
Proof.
  intros HI Hv. destruct v as [ | | b | n | s | items | members];
    try (split; [exact I|reflexivity]).
  simpl in Hv. destruct Hv as [-> | (u & Hparse & Htwo)].
  { split; [left; reflexivity|reflexivity]. }
  destruct (String.eqb s "") eqn:Hs.
  { apply String.eqb_eq in Hs. subst s. split; [left; reflexivity|reflexivity]. }
  assert (Hrm : rewrittenMember issuerUrl (VStr s) = VStr (href (rebased issuerUrl u))).
  { unfold rewrittenMember. rewrite Hs, Hparse. reflexivity. }
  rewrite Hrm.
  pose proof (rebased_wellFormed issuerUrl u HI (parseURL_wellFormed _ _ Hparse)) as Hwf.
  split.
  - right. exists (rebased issuerUrl u). split; [apply parseURL_href; exact Hwf|exact Htwo].
  - unfold rewrittenMember. rewrite (eqb_false_of_ne _ _ (href_not_empty _ Hwf)).
    rewrite (parseURL_href _ Hwf), rebased_idempotent. reflexivity.
Qed.

Lemma rewrittenDocument_lookup (issuerUrl : URL) (o : gmap string value) :
  rewrittenDocument issuerUrl o !! "issuer" = Some (VStr (href issuerUrl))
  /\ (forall k, In k endpointKeys ->
        rewrittenDocument issuerUrl o !! k = Some (rewrittenMember issuerUrl (prop o k)))
  /\ (forall k, k <> "issuer" -> ~ In k endpointKeys ->
        rewrittenDocument issuerUrl o !! k = o !! k).
Proof.
  unfold rewrittenDocument. split; [|split].
  - repeat (rewrite lookup_insert_ne by discriminate). apply lookup_insert_eq.
  - intros k Hin. unfold endpointKeys in Hin. simpl in Hin.
    repeat (destruct Hin as [<- | Hin];
            [repeat (rewrite lookup_insert_ne by discriminate); apply lookup_insert_eq|]).
    contradiction.
  - intros k Hissuer Hnot. unfold endpointKeys in Hnot. simpl in Hnot.
    repeat (rewrite lookup_insert_ne by (intros <-; tauto)). reflexivity.
Qed.

Lemma rewrittenDocument_idempotent (issuerUrl : URL) (o : gmap string value) :
  wellFormed issuerUrl = true ->
  (forall k, In k endpointKeys -> rewritable (prop o k)) ->
  rewrittenDocument issuerUrl (rewrittenDocument issuerUrl o) = rewrittenDocument issuerUrl o.
Proof.
  intros HI Hall.
  destruct (rewrittenDocument_lookup issuerUrl o) as (Hissuer & Hkeys & Hother).
  destruct (rewrittenDocument_lookup issuerUrl (rewrittenDocument issuerUrl o))
    as (Hissuer' & Hkeys' & Hother').
  apply map_eq. intros k.
  destruct (String.eqb k "issuer") eqn:Hk.
  { apply String.eqb_eq in Hk. subst k. rewrite Hissuer, Hissuer'. reflexivity. }
  apply String.eqb_neq in Hk.
  destruct (in_dec string_dec k endpointKeys) as [Hin | Hnot].
  - rewrite (Hkeys' k Hin), (Hkeys k Hin). f_equal.
    unfold prop at 1. rewrite (Hkeys k Hin). simpl.
    apply (rewrittenMember_stable issuerUrl (prop o k) HI (Hall k Hin)).
  - rewrite (Hother' k Hk Hnot). reflexivity.
Qed.

Lemma rewrite_twice (o : gmap string value) (publicIssuer : option string)
    (rewritten : value) :
  (forall k, In k endpointKeys -> rewritable (prop o k)) ->
  rewriteOAuthMetadataIssuer (VObj o) publicIssuer = Return rewritten ->
  rewriteOAuthMetadataIssuer rewritten publicIssuer = Return rewritten.
Proof.
  intros Hall Hfirst.
  destruct publicIssuer as [pub|]; [|injection Hfirst as <-; reflexivity].
  destruct (String.eqb pub "") eqn:Hpub.
  { apply String.eqb_eq in Hpub. subst pub. injection Hfirst as <-. reflexivity. }
  apply String.eqb_neq in Hpub.
  destruct (parseURL pub) as [parsed|] eqn:Hparse.
  - pose proof (rewrite_all_rewritable o pub parsed Hpub Hparse Hall) as Hrun.
    cbv zeta in Hrun. fold (rewrittenDocument (withTrailingSlash parsed) o) in Hrun.
    rewrite Hrun in Hfirst. injection Hfirst as <-.
    pose proof (proj2 (ensureTrailingSlash_wellFormed parsed (parseURL_wellFormed _ _ Hparse)))
      as HI.
    assert (Hall' : forall k, In k endpointKeys ->
                      rewritable (prop (rewrittenDocument (withTrailingSlash parsed) o) k)).
    { intros k Hin. unfold prop at 1.
      rewrite (proj1 (proj2 (rewrittenDocument_lookup _ o)) k Hin). simpl.
      apply (rewrittenMember_stable _ _ HI (Hall k Hin)). }
    pose proof (rewrite_all_rewritable _ pub parsed Hpub Hparse Hall') as Hagain.
    cbv zeta in Hagain.
    fold (rewrittenDocument (withTrailingSlash parsed)
            (rewrittenDocument (withTrailingSlash parsed) o)) in Hagain.
    rewrite Hagain, (rewrittenDocument_idempotent _ o HI Hall). reflexivity.
  - unfold rewriteOAuthMetadataIssuer, newURL in *. rewrite Hparse in *.
    rewrite (eqb_false_of_ne _ _ Hpub) in *. simpl in *. injection Hfirst as <-.
    reflexivity.
Qed.

(** X8. Rewriting is idempotent on URLs in plain form: for a public issuer
    that is absent, empty, without a scheme or an http or https URL in plain
    form, and a discovery document whose endpoint members are each no
    non-empty string or a URL in plain form whose path does not begin with
    two slashes, rewriting the rewritten document for the same public issuer
    returns it unchanged. *)
Theorem rewriteOAuthMetadataIssuer_idempotent (o : gmap string value)
    (publicIssuer : option string) (rewritten : value) :
  plainSetting publicIssuer ->
  (forall k, In k endpointKeys -> plainRewritable (prop o k)) ->
  rewriteOAuthMetadataIssuer (VObj o) publicIssuer = Return rewritten ->
  rewriteOAuthMetadataIssuer rewritten publicIssuer = Return rewritten.
Proof.
  intros _ Hall. apply rewrite_twice.
  intros k Hin. apply plainRewritable_rewritable, Hall, Hin.
Qed.

Lemma rewriteOAuthMetadataIssuer_idempotent_witness :
  exists rewritten,
    rewriteOAuthMetadataIssuer (VObj internalDocument) (Some "https://public.example.com/realm")
    = Return rewritten
    /\ rewriteOAuthMetadataIssuer rewritten (Some "https://public.example.com/realm")
       = Return rewritten.
Proof.
  destruct (rewrite_never_throws (VObj internalDocument)
              (Some "https://public.example.com/realm")) as [rewritten Hrun].
  exists rewritten. split; [exact Hrun|].
  apply (rewriteOAuthMetadataIssuer_idempotent internalDocument
           (Some "https://public.example.com/realm") rewritten); [| |exact Hrun].
  - right. right. eexists. split; vm_compute; reflexivity.
  - intros k Hin. unfold endpointKeys in Hin. simpl in Hin.
    repeat (destruct Hin as [<- | Hin];
            [first [exact I
                   | right; eexists; split; [vm_compute; reflexivity|];
                     split; vm_compute; reflexivity]|]).
    contradiction.
Defined.

(** ** Scopes *)

Lemma stringsOf_In (items : list value) (s : string) :
  In s (stringsOf items) <-> In (VStr s) items.
Proof.
  induction items as [|item items IH]; simpl; [tauto|].
  destruct item as [ | | b | n | s' | sub | members]; simpl; rewrite IH;
    try (split; [intros H; right; exact H | intros [H | H]; [discriminate H | exact H]]).
  split.
  - intros [-> | H]; [left; reflexivity | right; exact H].
  - intros [[= ->] | H]; [left; reflexivity | right; exact H].
Qed.

(** X9. [extractScopes] reads the claim scope, and the claim scp only when
    scope is absent or null: a scope claim of any other value hides scp.  From
    a string claim it returns the non-empty space-separated fragments, from a
    list claim exactly its string entries, and from any other value the empty
    list. *)
Theorem extractScopes_claim_choice (payload : gmap string value) :
  (forall v, nullish (prop payload "scope") = false ->
             extractScopes (<["scp" := v]> payload) = extractScopes payload) /\
  (forall str, nullish (prop payload "scope") = true -> prop payload "scp" = VStr str ->
               extractScopes payload = List.filter nonEmpty (split " " str)) /\
  (forall str s, coalesce (prop payload "scope") (prop payload "scp") = VStr str ->
                 (In s (extractScopes payload) <-> s <> "" /\ In s (split " " str))) /\
  (forall items s, coalesce (prop payload "scope") (prop payload "scp") = VArr items ->
                   (In s (extractScopes payload) <-> In (VStr s) items)) /\
  (forall v, coalesce (prop payload "scope") (prop payload "scp") = v ->
             (forall str, v <> VStr str) -> (forall items, v <> VArr items) ->
             extractScopes payload = []).
Proof.
  split; [|split; [|split; [|split]]].
  - intros v Hscope. unfold extractScopes, coalesce, prop.
    rewrite lookup_insert_ne by discriminate.
    unfold prop in Hscope. rewrite Hscope. reflexivity.
  - intros str Hscope Hscp. unfold extractScopes, coalesce. rewrite Hscope, Hscp. reflexivity.
  - intros str s H. unfold extractScopes. rewrite H. rewrite filter_In.
    unfold nonEmpty. rewrite negb_true_iff, String.eqb_neq. tauto.
  - intros items s H. unfold extractScopes. rewrite H. apply stringsOf_In.
  - intros v H Hstr Harr. unfold extractScopes. rewrite H.
    destruct v as [ | | b | n | str | items | members]; try reflexivity.
    + exfalso. exact (Hstr str eq_refl).
    + exfalso. exact (Harr items eq_refl).
Qed.

(** A numeric scope hides a well-formed scp. *)
Lemma extractScopes_claim_choice_witness :
  extractScopes (<["scp" := VArr [VStr "read"]]> (<["scope" := VNum 7]> ∅))
  = extractScopes (<["scope" := VNum 7]> ∅).
Proof.
  apply (proj1 (extractScopes_claim_choice (<["scope" := VNum 7]> ∅))). reflexivity.
Defined.

Lemma join_cons_char (sep : string) (a : ascii) (piece : string) (pieces : list string) :
  join sep (String a piece :: pieces) = String a (join sep (piece :: pieces)).
Proof. destruct pieces; reflexivity. Qed.

Lemma join_split (c : ascii) (s : string) : join (String c "") (split c s) = s.
Proof.
  induction s as [|a rest IH]; [reflexivity|]. simpl split.
  destruct (Ascii.eqb a c) eqn:Ha.
  - apply Ascii.eqb_eq in Ha. subst a.
    destruct (split c rest) as [|piece pieces] eqn:Hsplit;
      [exfalso; exact (split_not_nil _ _ Hsplit)|].
    change (join (String c "") ("" :: piece :: pieces))
      with (String c (join (String c "") (piece :: pieces))).
    rewrite IH. reflexivity.
  - destruct (split c rest) as [|piece pieces] eqn:Hsplit;
      [exfalso; exact (split_not_nil _ _ Hsplit)|].
    rewrite join_cons_char, IH. reflexivity.
Qed.

(** X10. The scopes the introspection verifier reports lose nothing of the
    scope member of the response: joined with single spaces they give the
    member back, character for character. *)
Theorem introspection_scopes_round_trip (cfg : AuthConfig) (endpoint : value)
    (id secret : string) (url : URL) (tok : string) (w : World) (r : Response)
    (o : gmap string value) (s : string) :
  network w (fetchCount w) (introspectionRequest endpoint id secret url tok) = Responded r ->
  ok r = true ->
  json r = Return (VObj o) ->
  prop o "active" = VBool true ->
  audienceMatches (prop o "aud") (MCP_OAUTH_AUDIENCE cfg) = true ->
  prop o "scope" = VStr s ->
  exists res,
    fst (verifyAccessToken (buildIntrospectionVerifier cfg endpoint id secret url) tok w)
    = Return res
    /\ join " " (scopes res) = s.
Proof.
  intros Hnet Hok Hjson Hactive Haud Hscope. eexists.
  rewrite (introspection_verifier_active cfg endpoint id secret url tok w r o
             Hnet Hok Hjson Hactive Haud).
  split; [reflexivity|]. simpl. rewrite Hscope. apply join_split.
Qed.

Lemma introspection_scopes_round_trip_witness :
  exists res,
    fst (verifyAccessToken
           (buildIntrospectionVerifier twoRoundConfig (VStr "https://auth.example.com/introspect")
              "mcp" "s3cret" localhostMcp) "opaque-token" spacedScopeWorld)
    = Return res
    /\ join " " (scopes res) = "read  write ".
Proof.
  apply (introspection_scopes_round_trip twoRoundConfig
           (VStr "https://auth.example.com/introspect") "mcp" "s3cret" localhostMcp
           "opaque-token" spacedScopeWorld
           {| status := 200; json := Return (VObj spacedScopeResponse) |} spacedScopeResponse);
    reflexivity.
Defined.

(** ** config.ts *)

Import ConfigTs.


Lemma parseStringEnv_not_empty (value : option string) : parseStringEnv value <> Some "".
Proof.
  destruct value as [s|]; simpl; [|discriminate].
  destruct (String.eqb s "") eqn:E; [discriminate|].
  intros [= ->]. discriminate.
Qed.

(** X11. Every optional string constant of config.ts is either undefined or
    a non-empty string, whatever the environment: an empty variable counts
    as unset. *)
Theorem loaded_strings_never_empty (env : gmap string string) :
  let cfg := loadConfig env in
  MCP_BEARER_TOKEN cfg <> Some "" /\
  MCP_OAUTH_INTERNAL_ISSUER_URL cfg <> Some "" /\
  MCP_OAUTH_PUBLIC_ISSUER_URL cfg <> Some "" /\
  MCP_OAUTH_CLIENT_ID cfg <> Some "" /\
  MCP_OAUTH_CLIENT_SECRET cfg <> Some "" /\
  MCP_OAUTH_INTROSPECTION_URL cfg <> Some "" /\
  MCP_OAUTH_AUDIENCE cfg <> Some "" /\
  MCP_OAUTH_JWKS_URL cfg <> Some "" /\
  MCP_OAUTH_EXPECTED_ISSUER cfg <> Some "" /\
  MCP_PUBLIC_URL cfg <> "".
Proof.
  cbv zeta. unfold loadConfig; cbn [MCP_BEARER_TOKEN MCP_OAUTH_INTERNAL_ISSUER_URL
    MCP_OAUTH_PUBLIC_ISSUER_URL MCP_OAUTH_CLIENT_ID MCP_OAUTH_CLIENT_SECRET
    MCP_OAUTH_INTROSPECTION_URL MCP_OAUTH_AUDIENCE MCP_OAUTH_JWKS_URL
    MCP_OAUTH_EXPECTED_ISSUER MCP_PUBLIC_URL].
  repeat (split; [apply parseStringEnv_not_empty|]).
  destruct (env !! "MCP_PUBLIC_URL") as [s|]; [|discriminate].
  destruct (String.eqb s "") eqn:E; [discriminate|].
  intros ->. discriminate.
Qed.

Lemma pretty_N_char_digit (m : N) :
  (m < 10)%N -> isDigit (pretty_N_char m) = true /\ digitValue (pretty_N_char m) = Z.of_N m.
Proof.
  intros Hm.
  assert (m = 0 \/ m = 1 \/ m = 2 \/ m = 3 \/ m = 4 \/ m = 5 \/ m = 6 \/ m = 7 \/ m = 8 \/ m = 9)%N
    as Hcases by lia.
  repeat (destruct Hcases as [-> | Hcases]; [split; reflexivity|]).
  subst m. split; reflexivity.
Qed.

Lemma pretty_N_go_append (x : N) (s t : string) :
  pretty_N_go x (s +:+ t) = pretty_N_go x s +:+ t.
Proof.
  revert s. induction (N.lt_wf_0 x) as [x _ IH]. intros s.
  assert (x = 0 \/ 0 < x)%N as [-> | Hpos] by lia.
  - rewrite !pretty_N_go_0. reflexivity.
  - rewrite (pretty_N_go_step x (s +:+ t)), (pretty_N_go_step x s) by exact Hpos.
    exact (IH (x `div` 10)%N (N.div_lt x 10 Hpos eq_refl)
              (String (pretty_N_char (x `mod` 10)) s)).
Qed.

Lemma digitsValue_pretty_N_go (x : N) (s : string) :
  digitsValue 0 (pretty_N_go x s) = digitsValue (Z.of_N x) s.
Proof.
  cut (forall acc, exists p, digitsValue acc (pretty_N_go x s)
                             = digitsValue (acc * p + Z.of_N x) s).
  { intros H. destruct (H 0%Z) as [p Hp]. rewrite Hp. reflexivity. }
  revert s. induction (N.lt_wf_0 x) as [x _ IH]. intros s acc.
  assert (x = 0 \/ 0 < x)%N as [-> | Hpos] by lia.
  - exists 1%Z. rewrite pretty_N_go_0. f_equal. lia.
  - rewrite pretty_N_go_step by exact Hpos.
    destruct (IH (x `div` 10)%N (N.div_lt x 10 Hpos eq_refl)
                 (String (pretty_N_char (x `mod` 10)) s) acc) as [p Hp].
    exists (p * 10)%Z. rewrite Hp. cbn [digitsValue].
    destruct (pretty_N_char_digit (x `mod` 10)%N) as [Hd Hv]; [apply N.mod_lt; lia|].
    rewrite Hd, Hv. f_equal.
    pose proof (N.div_mod' x 10) as Hx.
    assert (Z.of_N x = 10 * Z.of_N (x `div` 10) + Z.of_N (x `mod` 10))%Z by lia.
    lia.
Qed.

Lemma startsWithDigit_pretty_N_go (x : N) (s : string) :
  (0 < x)%N -> startsWithDigit (pretty_N_go x s) = true.
Proof.
  revert s. induction (N.lt_wf_0 x) as [x _ IH]. intros s Hpos.
  rewrite pretty_N_go_step by exact Hpos.
  destruct (N.eq_0_gt_0_cases (x `div` 10)) as [-> | Hdiv].
  - rewrite pretty_N_go_0. simpl.
    apply pretty_N_char_digit, N.mod_lt. lia.
  - apply IH; [apply N.div_lt; lia | exact Hdiv].
Qed.

Lemma digitsValue_stops (acc : Z) (s : string) :
  startsWithDigit s = false -> digitsValue acc s = acc.
Proof. destruct s as [|a r]; simpl; [reflexivity|]. intros ->. reflexivity. Qed.

Lemma parseInt_digits (s : string) :
  startsWithDigit s = true -> parseInt s = Some (digitsValue 0 s).
Proof.
  destruct s as [|a r]; [discriminate|].
  destruct a as [[] [] [] [] [] [] [] []]; try discriminate; intros _; reflexivity.
Qed.

Lemma parseInt_minus_digits (s : string) :
  startsWithDigit s = true -> parseInt (String "-" s) = Some (- digitsValue 0 s)%Z.
Proof.
  intros H. unfold parseInt. cbn [trimStart isAsciiSpace]. simpl.
  rewrite H. reflexivity.
Qed.

Lemma parseInt_pretty (n : Z) (rest : string) :
  startsWithDigit rest = false -> parseInt (pretty n +:+ rest) = Some n.
Proof.
  intros Hrest. destruct n as [|p|p].
  - change (pretty 0%Z) with "0". simpl. rewrite parseInt_digits by reflexivity.
    cbn [digitsValue isDigit]. simpl. rewrite digitsValue_stops by exact Hrest. reflexivity.
  - change (pretty (Z.pos p)) with (pretty_N_go (N.pos p) "").
    rewrite <- pretty_N_go_append. simpl.
    rewrite parseInt_digits by (apply startsWithDigit_pretty_N_go; lia).
    rewrite digitsValue_pretty_N_go, digitsValue_stops by exact Hrest. reflexivity.
  - change (pretty (Z.neg p) +:+ rest)
      with (String "-" (pretty_N_go (N.pos p) "" +:+ rest)).
    rewrite <- pretty_N_go_append. simpl.
    rewrite parseInt_minus_digits by (apply startsWithDigit_pretty_N_go; lia).
    rewrite digitsValue_pretty_N_go, digitsValue_stops by exact Hrest. reflexivity.
Qed.

Lemma trimStart_spaces (k : nat) (s : string) : trimStart (spaces k +:+ s) = trimStart s.
Proof. induction k as [|k IH]; [reflexivity|]. simpl. exact IH. Qed.

(** X12. [parseIntEnv] reads the integer a value starts with and ignores
    what follows it: for every integer [n] between -2^53 and 2^53, where
    the numbers of the source are exact, a value made of leading spaces, the
    decimal form of [n] and a rest that does not start with a digit yields
    [n], not the default. *)
Theorem parseIntEnv_reads_leading_integer (k : nat) (n : Z) (rest : string)
    (defaultValue : Z) :
  (- 2 ^ 53 <= n <= 2 ^ 53)%Z ->
  startsWithDigit rest = false ->
  parseIntEnv (Some (spaces k +:+ pretty n +:+ rest)) defaultValue = n.
Proof.
  intros _ Hrest.
  assert (parseInt (spaces k +:+ pretty n +:+ rest) = Some n) as Hparse.
  { unfold parseInt. rewrite trimStart_spaces.
    exact (parseInt_pretty n rest Hrest). }
  unfold parseIntEnv. rewrite Hparse.
  destruct (String.eqb (spaces k +:+ pretty n +:+ rest) "") eqn:He; [|reflexivity].
  apply String.eqb_eq in He. rewrite He in Hparse. discriminate Hparse.
Qed.

(** A retry count written with a unit. *)
Lemma parseIntEnv_reads_leading_integer_witness :
  parseIntEnv (Some " 30s") 5 = 30%Z.
Proof.
  apply (parseIntEnv_reads_leading_integer 1 30 "s" 5); [lia|reflexivity].
Defined.

(** X13. MCP_BEARER_TOKEN shadows BEARER_TOKEN as soon as it is set: set
    to the empty string it leaves bearer mode without a token, so that
    construction fails whatever BEARER_TOKEN holds; only when it is unset
    does a non-empty BEARER_TOKEN become the token, the one string the
    verifier accepts. *)
Theorem bearer_token_variable_precedence (env : gmap string string) :
  (env !! "MCP_BEARER_TOKEN" = Some "" ->
   exists msg, buildBearerAuthContext (loadConfig env) = Throw (Exn ClsError msg)) /\
  (forall t, env !! "MCP_BEARER_TOKEN" = Some t -> t <> "" ->
             MCP_BEARER_TOKEN (loadConfig env) = Some t) /\
  (forall t, env !! "MCP_BEARER_TOKEN" = None -> env !! "BEARER_TOKEN" = Some t -> t <> "" ->
     exists ctx mw,
       buildBearerAuthContext (loadConfig env) = Return ctx
       /\ middleware ctx = Some mw
       /\ forall presented w,
            (exists res, fst (verifyAccessToken (verifier mw) presented w) = Return res)
            <-> presented = t).
Proof.
  unfold buildBearerAuthContext, loadConfig; cbn [MCP_BEARER_TOKEN].
  split; [|split].
  - intros ->. simpl. eexists. reflexivity.
  - intros t -> Hne. simpl. rewrite (eqb_false_of_ne _ _ Hne). reflexivity.
  - intros t -> -> Hne. simpl. rewrite (eqb_false_of_ne _ _ Hne).
    rewrite (eqb_false_of_ne _ _ Hne).
    do 2 eexists. split; [reflexivity|]. split; [reflexivity|].
    intros presented w. simpl.
    destruct (String.eqb presented t) eqn:Heq.
    + apply String.eqb_eq in Heq. split; [intros _; exact Heq|].
      intros _. simpl. eexists. reflexivity.
    + simpl. split.
      * intros [res Hres]. discriminate Hres.
      * intros ->. rewrite String.eqb_refl in Heq. discriminate Heq.
Qed.

(** X14. Each of the internal and the public issuer URL falls back to
    MCP_OAUTH_ISSUER_URL only when its own variable is unset.  Set to the
    empty string, the internal variable leaves oauth mode without an issuer
    (construction fails before any call) and the public variable switches
    the rewriting of the metadata off, whatever MCP_OAUTH_ISSUER_URL holds. *)
Theorem issuer_variables_fall_back (env : gmap string string) :
  (env !! "MCP_OAUTH_INTERNAL_ISSUER_URL" = None ->
   MCP_OAUTH_INTERNAL_ISSUER_URL (loadConfig env) = MCP_OAUTH_ISSUER_URL env) /\
  (env !! "MCP_OAUTH_PUBLIC_ISSUER_URL" = None ->
   MCP_OAUTH_PUBLIC_ISSUER_URL (loadConfig env) = MCP_OAUTH_ISSUER_URL env) /\
  (env !! "MCP_OAUTH_INTERNAL_ISSUER_URL" = Some "" ->
   forall url w, exists msg,
     buildOAuthAuthContext (loadConfig env) url w = (Throw (Exn ClsError msg), w)
     /\ includes "MCP_OAUTH_INTERNAL_ISSUER_URL" msg = true) /\
  (env !! "MCP_OAUTH_PUBLIC_ISSUER_URL" = Some "" ->
   forall metadata,
     rewriteOAuthMetadataIssuer metadata (MCP_OAUTH_PUBLIC_ISSUER_URL (loadConfig env))
     = Return metadata).
Proof.
  unfold buildOAuthAuthContext, loadConfig, MCP_OAUTH_ISSUER_URL;
    cbn [MCP_OAUTH_INTERNAL_ISSUER_URL MCP_OAUTH_PUBLIC_ISSUER_URL].
  split; [|split; [|split]].
  - intros ->. simpl. destruct (env !! "MCP_OAUTH_ISSUER_URL") as [s|]; [|reflexivity].
    simpl. destruct (String.eqb s "") eqn:E; [reflexivity|]. simpl. rewrite E. reflexivity.
  - intros ->. simpl. destruct (env !! "MCP_OAUTH_ISSUER_URL") as [s|]; [|reflexivity].
    simpl. destruct (String.eqb s "") eqn:E; [reflexivity|]. simpl. rewrite E. reflexivity.
  - intros -> url w. simpl. eexists. split; [reflexivity|vm_compute; reflexivity].
  - intros -> metadata. reflexivity.
Qed.



(** X16. [buildAuthContext] parses the public URL before it looks at the
    mode, and reads the variable MCP_PUBLIC_URL itself: a value without a
    scheme, the empty string included, makes it throw a TypeError in every
    mode, mode none included, without a call, although config.ts replaces
    the empty value by the localhost default. *)
Theorem public_url_variable_must_parse (env : gmap string string) (options : AuthOptions)
    (w : World) (s : string) :
  env !! "MCP_PUBLIC_URL" = Some s -> noScheme s = true ->
  (exists msg,
     buildAuthContext (loadConfig env) options w = (Throw (Exn ClsTypeError msg), w)) /\
  (s = "" ->
   MCP_PUBLIC_URL (loadConfig env) = "http://localhost:" +:+ pretty (MCP_PORT env) +:+ "/mcp").
Proof.
  intros Henv Hs. split.
  - apply buildAuthContext_unparsable_public_url.
    change (env_MCP_PUBLIC_URL (loadConfig env)) with (env !! "MCP_PUBLIC_URL").
    rewrite Henv. apply noScheme_unparsable. exact Hs.
  - intros ->. unfold loadConfig; cbn [MCP_PUBLIC_URL]. rewrite Henv. reflexivity.
Qed.

(** MCP_PUBLIC_URL set to the empty string, mode none. *)
Lemma public_url_variable_must_parse_witness :
  exists msg,
    buildAuthContext (loadConfig (<["MCP_PUBLIC_URL" := ""]> ∅))
      {| enableOauth := None; enableBearer := None; port := None |} notFoundWorld
    = (Throw (Exn ClsTypeError msg), notFoundWorld).
Proof.
  eapply proj1.
  apply (public_url_variable_must_parse (<["MCP_PUBLIC_URL" := ""]> ∅)
           {| enableOauth := None; enableBearer := None; port := None |}
           notFoundWorld ""); [vm_compute; reflexivity | reflexivity].
Defined.

(** ** The introspection-only text of auth.ts *)

Lemma rewrite_nullish (metadata : value) (publicIssuer : option string) :
  nullish metadata = true ->
  rewriteOAuthMetadataIssuer metadata publicIssuer = Return metadata.
Proof.
  intros Hnull. unfold rewriteOAuthMetadataIssuer.
  destruct publicIssuer as [pub|]; [|reflexivity].
  destruct (String.eqb pub ""); [reflexivity|].
  destruct (newURL pub) as [parsed|e]; [|reflexivity].
  unfold mbind at 1, result_bind at 1.
  destruct (ensureTrailingSlash parsed) as [issuerUrl|e]; [|reflexivity].
  destruct metadata; try discriminate Hnull; reflexivity.
Qed.

Lemma member_not_nullish (v : value) (k : string) :
  nullish v = false -> exists x, member v k = Return x.
Proof. destruct v; try discriminate; intros _; eexists; reflexivity. Qed.

Lemma not_missing (o : option string) :
  missing o = false -> exists s, o = Some s /\ s <> "".
Proof.
  destruct o as [s|]; [|discriminate]. simpl. intros H. exists s. split; [reflexivity|].
  intros ->. discriminate H.
Qed.

Lemma introspection_verifiers_agree (cfg : AuthConfig) (endpoint : value) (c secret : string)
    (url : URL) :
  MCP_OAUTH_CLIENT_ID cfg = Some c ->
  MCP_OAUTH_CLIENT_SECRET cfg = Some secret ->
  sameVerdicts (buildIntrospectionVerifier cfg endpoint c secret url)
               (AuthIntrospectionOnly.inlineVerifier cfg endpoint url).
Proof.
  intros Hc Hs token w.
  unfold AuthIntrospectionOnly.inlineVerifier. rewrite Hc, Hs. cbn [default from_option id].
  unfold buildIntrospectionVerifier, verifyAccessToken, introspectionResult, tryCatch,
    throw, lift, mret, M_ret, mbind, M_bind, result_bind.
  destruct (fetch _ w) as [[response|e] w1]; [|reflexivity].
  destruct (negb (ok response)); [reflexivity|].
  destruct (json response) as [data|e]; [|reflexivity].
  destruct (member data "active") as [active|e]; [|reflexivity].
  destruct active as [ | | [|] | | | | ]; try reflexivity.
  destruct (member data "aud") as [aud|e]; [|reflexivity].
  destruct (negb (audienceMatches aud (MCP_OAUTH_AUDIENCE cfg))); [reflexivity|].
  destruct (member data "client_id") as [client_id|e]; [|reflexivity].
  destruct (member data "scope") as [scope|e]; [|reflexivity].
  destruct (member data "exp") as [exp|e]; reflexivity.
Qed.

(** X17. The two texts of [buildOAuthAuthContext] agree wherever the
    introspection-only one succeeds: when it returns a context with a metadata
    document, the text with JWT validation, for a validation method other
    than jwt, returns after the same calls a context with the same metadata,
    the method introspection, and a verifier that answers every token in
    every world as the introspection-only one does. *)
Theorem introspection_only_context_preserved (cfg : AuthConfig) (url : URL) (w w' : World)
    (only : AuthContext) :
  AuthIntrospectionOnly.buildOAuthAuthContext cfg url w = (Return only, w') ->
  MCP_OAUTH_VALIDATION_METHOD cfg <> MethodJwt ->
  (forall m, oauthMetadata only = Some m -> nullish m = false) ->
  exists full mw1 mw2,
    buildOAuthAuthContext cfg url w = (Return full, w')
    /\ validationMethod full = Some Introspection
    /\ mode full = mode only
    /\ oauthMetadata full = oauthMetadata only
    /\ middleware full = Some mw1
    /\ middleware only = Some mw2
    /\ requiredScopes mw1 = requiredScopes mw2
    /\ resourceServer mw1 = resourceServer mw2
    /\ sameVerdicts (verifier mw1) (verifier mw2).
Proof.
  intros Honly Hmethod Hdoc.
  unfold AuthIntrospectionOnly.buildOAuthAuthContext in Honly.
  unfold buildOAuthAuthContext.
  destruct (MCP_OAUTH_INTERNAL_ISSUER_URL cfg) as [s|]; [|discriminate Honly].
  destruct (String.eqb s ""); [discriminate Honly|].
  destruct (missing (MCP_OAUTH_CLIENT_ID cfg)) eqn:Hid; [discriminate Honly|].
  destruct (missing (MCP_OAUTH_CLIENT_SECRET cfg)) eqn:Hsecret; [discriminate Honly|].
  destruct (not_missing _ Hid) as (c & Hc & _).
  destruct (not_missing _ Hsecret) as (secret & Hsec & _).
  unfold mbind, M_bind, lift, mret, M_ret, throw in Honly |- *.
  destruct (newURL s) as [issuer|e]; [|discriminate Honly].
  destruct (discoverOAuthMetadata cfg issuer w) as [[d|e] w1]; [|discriminate Honly].
  assert (exists endpoint,
            match MCP_OAUTH_INTROSPECTION_URL cfg return M value with
            | Some u => fun w0 : World => (Return (VStr u), w0)
            | None => fun w0 : World => (member d "introspection_endpoint", w0)
            end w1 = (Return endpoint, w1)) as [endpoint Hendpoint].
  { destruct (MCP_OAUTH_INTROSPECTION_URL cfg) as [u|]; [eexists; reflexivity|].
    destruct (member d "introspection_endpoint") as [x|e]; [eexists; reflexivity|].
    discriminate Honly. }
  rewrite Hendpoint in Honly.
  destruct (rewriteOAuthMetadataIssuer d (MCP_OAUTH_PUBLIC_ISSUER_URL cfg))
    as [m|e] eqn:Hrewrite; [|discriminate Honly].
  cbv beta iota. rewrite Hendpoint.
  destruct (present endpoint) eqn:Hpresent; [|discriminate Honly].
  cbn [negb] in Honly. injection Honly as <- <-.
  assert (nullish d = false) as Hd.
  { destruct (nullish d) eqn:Hn; [|reflexivity].
    rewrite (rewrite_nullish d _ Hn) in Hrewrite. injection Hrewrite as <-.
    rewrite <- Hn. apply Hdoc. reflexivity. }
  assert (exists jwks,
            match MCP_OAUTH_JWKS_URL cfg return M value with
            | Some u => fun w0 : World => (Return (VStr u), w0)
            | None => fun w0 : World => (member d "jwks_uri", w0)
            end w1 = (Return jwks, w1)) as [jwks Hjwks].
  { destruct (MCP_OAUTH_JWKS_URL cfg) as [u|]; [eexists; reflexivity|].
    destruct (member_not_nullish d "jwks_uri" Hd) as [x ->]. eexists. reflexivity. }
  rewrite Hjwks. cbn [negb andb].
  assert (resolveValidationMethod (MCP_OAUTH_VALIDATION_METHOD cfg) true true (present jwks)
          = Return Introspection) as ->.
  { destruct (MCP_OAUTH_VALIDATION_METHOD cfg); try reflexivity. contradiction. }
  do 3 eexists. split; [reflexivity|]. cbn.
  repeat (split; [reflexivity|]).
  rewrite Hc, Hsec. cbn [default from_option id].
  exact (introspection_verifiers_agree cfg endpoint c secret url Hc Hsec).
Qed.

(** The configuration with credentials, against the provider that answers
    with the sample document at the second request. *)
Lemma introspection_only_context_preserved_witness :
  exists full,
    buildOAuthAuthContext credentialConfig localhostMcp htmlThenJsonWorld
    = (Return full, snd (discoverOAuthMetadata credentialConfig realmIssuer htmlThenJsonWorld))
    /\ validationMethod full = Some Introspection.
Proof.
  destruct (introspection_only_context_preserved credentialConfig localhostMcp
              htmlThenJsonWorld
              (snd (discoverOAuthMetadata credentialConfig realmIssuer htmlThenJsonWorld))
              {| mode := ModeOauth;
                 middleware :=
                   Some {| verifier := AuthIntrospectionOnly.inlineVerifier credentialConfig
                                         (VStr "https://auth.example.com/introspect")
                                         localhostMcp;
                           requiredScopes := [];
                           resourceServer := Some localhostMcp |};
                 oauthMetadata := Some sampleMetadata;
                 validationMethod := None |})
    as (full & mw1 & mw2 & Hfull & Hmethod & _).
  - reflexivity.
  - discriminate.
  - intros m [= <-]. reflexivity.
  - exists full. split; [exact Hfull | exact Hmethod].
Defined.

(** ** auth.ts on openid-client *)

Import OidcClient AuthOidc OidcSpec.

Lemma search_spec (u : URL) :
  wellFormed u = true ->
  parseQueryFragment (search u) = (dropEmpty (query u), None)
  /\ span endsPath (search u) = ("", search u).
Proof.
  intros Hwf. destruct (wellFormed_parts u Hwf) as (_ & _ & _ & _ & _ & Hq).
  unfold search, dropEmpty. destruct (query u) as [q|]; [|split; reflexivity].
  destruct (String.eqb q "") eqn:E; [split; reflexivity|].
  split; [|reflexivity].
  simpl. rewrite (span_clean _ _ Hq). reflexivity.
Qed.

Lemma newURLFrom_path_search (pub u : URL) :
  wellFormed u = true -> startsWithTwoSlashes (path u) = false ->
  newURLFrom (pathname u +:+ search u) pub = Return (remapTarget pub u).
Proof.
  intros Hwf Htwo.
  destruct (wellFormed_parts u Hwf) as (_ & _ & _ & Hslash & Hpath & _).
  destruct (search_spec u Hwf) as [Hqf Hspan].
  unfold newURLFrom, parseRelative, pathname.
  assert (startsWithSlash (path u +:+ search u) = true) as Hslash'.
  { destruct (path u); [discriminate Hslash|exact Hslash]. }
  rewrite (parseURL_leading_slash _ Hslash').
  rewrite (span_append_clean _ _ _ Hpath), Hspan. cbn [fst snd].
  rewrite append_empty_r, Hqf.
  destruct (path u) as [|a p] eqn:Hp; [discriminate Hslash|].
  simpl in Hslash. apply Ascii.eqb_eq in Hslash. subst a.
  unfold remapTarget. rewrite Hp.
  destruct p as [|b p]; [reflexivity|].
  simpl in Htwo. unfold isSlash in Htwo.
  destruct b as [[] [] [] [] [] [] [] []]; try reflexivity. discriminate Htwo.
Qed.

Lemma remap_parsed_oidc (pub s : string) (P u : URL) :
  pub <> "" -> parseURL pub = Some P -> parseURL s = Some u ->
  startsWithTwoSlashes (path u) = false ->
  AuthOidc.remap (Some pub) (VStr s) = VStr (href (remapTarget P u)).
Proof.
  intros Hpub HP Hu Htwo. unfold AuthOidc.remap, truthyString, truthyValue, missing.
  rewrite (eqb_false_of_ne _ _ Hpub).
  assert (s <> "") as Hs by (intros ->; discriminate Hu).
  rewrite (eqb_false_of_ne _ _ Hs). cbn [negb orb toStr default from_option id].
  unfold newURL. rewrite Hu, HP. unfold mbind, result_bind.
  rewrite (newURLFrom_path_search P u (parseURL_wellFormed _ _ Hu) Htwo). reflexivity.
Qed.

Lemma remap_unparsable_oidc (publicIssuer : option string) (s : string) :
  parseURL s = None -> AuthOidc.remap publicIssuer (VStr s) = VStr s.
Proof.
  intros Hs. unfold AuthOidc.remap.
  destruct (negb (truthyValue (VStr s)) || negb (truthyString publicIssuer)); [reflexivity|].
  cbn [toStr]. unfold newURL. rewrite Hs. reflexivity.
Qed.

Lemma toOAuthMetadata_member (metadata : gmap string value) (publicIssuer : option string)
    (k : string) :
  In k remappedKeys ->
  prop (toOAuthMetadata metadata publicIssuer) k
  = if existsb (String.eqb k) requiredKeys
    then coalesce (AuthOidc.remap publicIssuer (prop metadata k)) (VStr "")
    else AuthOidc.remap publicIssuer (prop metadata k).
Proof.
  intros Hin. unfold remappedKeys in Hin. simpl in Hin.
  repeat (destruct Hin as [<- | Hin]; [reflexivity|]). contradiction.
Qed.

(** X18. [toOAuthMetadata] remaps each endpoint member on its own: for a
    public issuer that is an http or https URL in plain form, a member that
    names such a URL, with a path that does not begin with two slashes, is
    moved to the scheme and authority of the public issuer, keeping its path
    and query and losing its fragment, and a member without a scheme, which is no URL, is
    passed on as it is, without effect on the other members.  The issuer of the result is the
    configured string itself, and a missing authorization or token endpoint
    becomes the empty string. *)
Theorem toOAuthMetadata_remaps_each_member (metadata : gmap string value) (pub : string)
    (P : URL) (k : string) :
  pub <> "" -> parseURL pub = Some P -> plain P = true -> In k remappedKeys ->
  let published := toOAuthMetadata metadata (Some pub) in
  (forall s u, prop metadata k = VStr s -> parseURL s = Some u -> plain u = true ->
               startsWithTwoSlashes (path u) = false ->
               prop published k = VStr (href (remapTarget P u))) /\
  (forall s, prop metadata k = VStr s -> noScheme s = true -> prop published k = VStr s) /\
  (prop metadata k = VUndefined ->
   prop published k = if existsb (String.eqb k) requiredKeys then VStr "" else VUndefined) /\
  prop published "issuer" = VStr pub.
Proof.
  intros Hpub HP _ Hin. cbv zeta. rewrite (toOAuthMetadata_member _ _ _ Hin).
  split; [|split; [|split]].
  - intros s u -> Hu _ Htwo. rewrite (remap_parsed_oidc pub s P u Hpub HP Hu Htwo).
    destruct (existsb _ _); reflexivity.
  - intros s -> Hs. rewrite (remap_unparsable_oidc _ s (noScheme_unparsable s Hs)).
    destruct (existsb _ _); reflexivity.
  - intros ->. reflexivity.
  - reflexivity.
Qed.

(** The token endpoint of the internal provider, published under
    https://auth.example.com. *)
Lemma toOAuthMetadata_remaps_each_member_witness :
  prop (toOAuthMetadata internalServerMetadata (Some "https://auth.example.com"))
       "token_endpoint"
  = VStr "https://auth.example.com/realms/main/token?tenant=a".
Proof.
  apply (proj1 (toOAuthMetadata_remaps_each_member internalServerMetadata
                  "https://auth.example.com"
                  {| scheme := "https"; authority := "auth.example.com"; path := "/";
                     query := None; fragment := None |}
                  "token_endpoint" ltac:(discriminate) eq_refl eq_refl
                  ltac:(right; left; reflexivity))
           "http://keycloak:8080/realms/main/token?tenant=a#top"
           {| scheme := "http"; authority := "keycloak:8080"; path := "/realms/main/token";
              query := Some "tenant=a"; fragment := Some "top" |});
    reflexivity.
Defined.

Lemma oidc_after_nil (w : World) : after w [] = w.
Proof. destruct w. unfold after. simpl. rewrite app_nil_r. reflexivity. Qed.

Lemma oidc_after_after (w : World) (a b : list Event) : after (after w a) b = after w (a ++ b).
Proof. unfold after. simpl. rewrite app_assoc. reflexivity. Qed.

Lemma discoveryCount_after (w : World) (events : list Event) :
  discoveryCount (after w events)
  = (discoveryCount w + length (List.filter isDiscovery events))%nat.
Proof.
  unfold discoveryCount, after. simpl. rewrite List.filter_app, length_app. reflexivity.
Qed.

(** One attempt of the loop, as the [try] block and its [catch] leave it. *)
Lemma attempt_outcome (issuerUrl clientId : string) (clientSecret : option string)
    (server : URL) (w : World) :
  parseURL issuerUrl = Some server ->
  tryCatch
    (server ← lift (newURL issuerUrl);
     config ← discovery server clientId clientSecret
                (if truthyString clientSecret then clientSecret else None);
     mret (inr config))
    (fun error => mret (inl error)) w
  = (Return match discoveryOutcome w (discoveryCount w) server clientId clientSecret
                    (if truthyString clientSecret then clientSecret else None) with
            | Return config => inr config
            | Throw e => inl e
            end,
     after w [discoveryCall server clientId clientSecret]).
Proof.
  intros Hparse. unfold tryCatch, mbind, M_bind, lift, newURL, discovery, mret, M_ret.
  rewrite Hparse.
  destruct (discoveryOutcome w _ _ _ _ _); reflexivity.
Qed.

Lemma discoveryAttempts_success (cfg : AuthConfig) (issuerUrl clientId : string)
    (clientSecret : option string) (server : URL) (config : Configuration) :
  parseURL issuerUrl = Some server ->
  forall (k remaining : nat) (attempt : Z) (lastError : option exn) (w : World)
         (errs : nat -> exn),
    (k < remaining)%nat ->
    (attempt + Z.of_nat remaining = MCP_OAUTH_DISCOVERY_RETRIES cfg + 1)%Z ->
    (forall n, (n < k)%nat ->
       discoveryOutcome w (discoveryCount w + n) server clientId clientSecret
         (if truthyString clientSecret then clientSecret else None) = Throw (errs n)) ->
    discoveryOutcome w (discoveryCount w + k) server clientId clientSecret
      (if truthyString clientSecret then clientSecret else None) = Return config ->
    discoveryAttempts cfg issuerUrl clientId clientSecret remaining attempt lastError w
    = (Return config,
       after w (failedAttempts (discoveryCall server clientId clientSecret)
                  (MCP_OAUTH_DISCOVERY_RETRY_DELAY_MS cfg) k
                ++ [discoveryCall server clientId clientSecret])).
Proof.
  intros Hparse k. induction k as [|k IH]; intros remaining attempt lastError w errs Hlt Hatt
    Hfail Hok.
  - destruct remaining as [|remaining]; [lia|].
    cbn [discoveryAttempts]. unfold mbind at 1, M_bind at 1.
    rewrite (attempt_outcome issuerUrl clientId clientSecret server w Hparse).
    rewrite Nat.add_0_r in Hok. rewrite Hok. reflexivity.
  - destruct remaining as [|remaining]; [lia|].
    cbn [discoveryAttempts]. unfold mbind at 1, M_bind at 1.
    rewrite (attempt_outcome issuerUrl clientId clientSecret server w Hparse).
    rewrite <- (Nat.add_0_r (discoveryCount w)), (Hfail 0%nat) by lia.
    assert ((attempt <? MCP_OAUTH_DISCOVERY_RETRIES cfg)%Z = true) as ->
      by (apply Z.ltb_lt; lia).
    unfold mbind at 1, M_bind at 1, sleep at 1.
    change (record (CallSleep ?ms) ?w0) with (after w0 [CallSleep ms]).
    rewrite oidc_after_after.
    rewrite (IH remaining (attempt + 1)%Z _ _ (fun n => errs (S n))).
    + rewrite oidc_after_after. reflexivity.
    + lia.
    + lia.
    + intros n Hn. rewrite discoveryCount_after. cbn [after discoveryOutcome].
      change (length _) with 1%nat.
      replace (discoveryCount w + 1 + n)%nat with (discoveryCount w + S n)%nat by lia.
      apply Hfail. lia.
    + rewrite discoveryCount_after. cbn [after discoveryOutcome].
      change (length _) with 1%nat.
      replace (discoveryCount w + 1 + k)%nat with (discoveryCount w + S k)%nat by lia.
      exact Hok.
Qed.

Lemma discoveryAttempts_all_fail (cfg : AuthConfig) (issuerUrl clientId : string)
    (clientSecret : option string) (server : URL) :
  parseURL issuerUrl = Some server ->
  forall (remaining : nat) (attempt : Z) (lastError : option exn) (w : World)
         (errs : nat -> exn),
    (attempt + Z.of_nat remaining = MCP_OAUTH_DISCOVERY_RETRIES cfg + 1)%Z ->
    (forall n, (n < remaining)%nat ->
       discoveryOutcome w (discoveryCount w + n) server clientId clientSecret
         (if truthyString clientSecret then clientSecret else None) = Throw (errs n)) ->
    discoveryAttempts cfg issuerUrl clientId clientSecret remaining attempt lastError w
    = (Throw (Exn ClsError
                ("Unable to discover OIDC issuer at " +:+ issuerUrl +:+ ": "
                 +:+ lastMessage match remaining with
                                 | O => lastError
                                 | S r => Some (errs r)
                                 end)),
       after w (allFailed (discoveryCall server clientId clientSecret)
                  (MCP_OAUTH_DISCOVERY_RETRY_DELAY_MS cfg) remaining)).
Proof.
  intros Hparse remaining.
  induction remaining as [|remaining IH]; intros attempt lastError w errs Hatt Hfail.
  - cbn [discoveryAttempts allFailed]. rewrite oidc_after_nil. reflexivity.
  - cbn [discoveryAttempts]. unfold mbind at 1, M_bind at 1.
    rewrite (attempt_outcome issuerUrl clientId clientSecret server w Hparse).
    rewrite <- (Nat.add_0_r (discoveryCount w)), (Hfail 0%nat) by lia.
    destruct remaining as [|remaining].
    + assert ((attempt <? MCP_OAUTH_DISCOVERY_RETRIES cfg)%Z = false) as ->
        by (apply Z.ltb_ge; lia).
      unfold mbind at 1, M_bind at 1, mret at 1, M_ret at 1.
      cbn [discoveryAttempts]. reflexivity.
    + assert ((attempt <? MCP_OAUTH_DISCOVERY_RETRIES cfg)%Z = true) as ->
        by (apply Z.ltb_lt; lia).
      unfold mbind at 1, M_bind at 1, sleep at 1.
      change (record (CallSleep ?ms) ?w0) with (after w0 [CallSleep ms]).
      rewrite oidc_after_after.
      rewrite (IH (attempt + 1)%Z _ _ (fun n => errs (S n))).
      * rewrite oidc_after_after. reflexivity.
      * lia.
      * intros n Hn. rewrite discoveryCount_after. cbn [after discoveryOutcome].
        change (length _) with 1%nat.
        replace (discoveryCount w + 1 + n)%nat with (discoveryCount w + S n)%nat by lia.
        apply Hfail. lia.
Qed.

Lemma discoveryAttempts_unparsable (cfg : AuthConfig) (issuerUrl clientId : string)
    (clientSecret : option string) :
  parseURL issuerUrl = None ->
  forall (remaining : nat) (attempt : Z) (lastError : option exn) (w : World),
    (attempt + Z.of_nat remaining = MCP_OAUTH_DISCOVERY_RETRIES cfg + 1)%Z ->
    discoveryAttempts cfg issuerUrl clientId clientSecret remaining attempt lastError w
    = (Throw (Exn ClsError
                ("Unable to discover OIDC issuer at " +:+ issuerUrl +:+ ": "
                 +:+ lastMessage match remaining with
                                 | O => lastError
                                 | S _ => Some (Exn ClsTypeError "Invalid URL")
                                 end)),
       after w (replicate (pred remaining)
                  (CallSleep (MCP_OAUTH_DISCOVERY_RETRY_DELAY_MS cfg)))).
Proof.
  intros Hparse remaining.
  induction remaining as [|remaining IH]; intros attempt lastError w Hatt.
  - cbn [discoveryAttempts pred replicate]. rewrite oidc_after_nil. reflexivity.
  - cbn [discoveryAttempts]. unfold mbind at 1, M_bind at 1.
    unfold tryCatch at 1, mbind at 1, M_bind at 1, lift at 1, newURL at 1.
    rewrite Hparse. unfold invalidUrl. unfold mret at 1, M_ret at 1.
    destruct remaining as [|remaining].
    + assert ((attempt <? MCP_OAUTH_DISCOVERY_RETRIES cfg)%Z = false) as ->
        by (apply Z.ltb_ge; lia).
      unfold mbind at 1, M_bind at 1, mret at 1, M_ret at 1.
      cbn [discoveryAttempts pred replicate]. rewrite oidc_after_nil. reflexivity.
    + assert ((attempt <? MCP_OAUTH_DISCOVERY_RETRIES cfg)%Z = true) as ->
        by (apply Z.ltb_lt; lia).
      unfold mbind at 1, M_bind at 1, sleep at 1.
      change (record (CallSleep ?ms) ?w0) with (after w0 [CallSleep ms]).
      rewrite (IH (attempt + 1)%Z _ _) by lia.
      rewrite oidc_after_after. reflexivity.
Qed.

(** X19. For an issuer string that is an http or https URL in plain form,
    [discoverWithRetry] calls [discovery] once per attempt, with the client
    secret as metadata and as ClientSecretPost when there is one, and
    sleeps for the configured delay after each failed attempt but the last.
    The configuration of the first attempt that succeeds is returned at once;
    when all of the N >= 1 attempts fail, the error names the issuer and
    carries the message of the last failure. *)
Theorem discoverWithRetry_attempts (cfg : AuthConfig) (issuerUrl clientId : string)
    (clientSecret : option string) (server : URL) (w : World) :
  parseURL issuerUrl = Some server -> plain server = true ->
  let attempts := Z.to_nat (MCP_OAUTH_DISCOVERY_RETRIES cfg) in
  let delay := MCP_OAUTH_DISCOVERY_RETRY_DELAY_MS cfg in
  let call := CallDiscovery server clientId clientSecret
                (if truthyString clientSecret then clientSecret else None) in
  let outcome n := discoveryOutcome w (discoveryCount w + n) server clientId clientSecret
                     (if truthyString clientSecret then clientSecret else None) in
  (forall k config errs,
     (k < attempts)%nat ->
     (forall n, (n < k)%nat -> outcome n = Throw (errs n)) ->
     outcome k = Return config ->
     discoverWithRetry cfg issuerUrl clientId clientSecret w
     = (Return config, after w (failedAttempts call delay k ++ [call]))) /\
  (forall errs,
     (0 < attempts)%nat ->
     (forall n, (n < attempts)%nat -> outcome n = Throw (errs n)) ->
     discoverWithRetry cfg issuerUrl clientId clientSecret w
     = (Throw (Exn ClsError ("Unable to discover OIDC issuer at " +:+ issuerUrl +:+ ": "
                             +:+ message (errs (pred attempts)))),
        after w (failedAttempts call delay (pred attempts) ++ [call]))).
Proof.
  intros Hparse _. cbv zeta. unfold discoverWithRetry. split.
  - intros k config errs Hk Hfail Hok.
    apply (discoveryAttempts_success cfg issuerUrl clientId clientSecret server config Hparse
             k _ 1%Z None w errs Hk); [lia | exact Hfail | exact Hok].
  - intros errs Hpos Hfail.
    rewrite (discoveryAttempts_all_fail cfg issuerUrl clientId clientSecret server Hparse
               _ 1%Z None w errs); [|lia|exact Hfail].
    destruct (Z.to_nat (MCP_OAUTH_DISCOVERY_RETRIES cfg)) as [|r]; [lia|]. reflexivity.
Qed.

(** Two attempts against the provider that refuses the first connection. *)
Lemma discoverWithRetry_attempts_witness :
  discoverWithRetry twoRoundConfig "https://auth.example.com/realms/main" "mcp-server" None
    slowProviderWorld
  = (Return internalConfiguration,
     after slowProviderWorld
       [CallDiscovery realmIssuer "mcp-server" None None; CallSleep 2000;
        CallDiscovery realmIssuer "mcp-server" None None]).
Proof.
  apply (proj1 (discoverWithRetry_attempts twoRoundConfig
                  "https://auth.example.com/realms/main" "mcp-server" None realmIssuer
                  slowProviderWorld eq_refl eq_refl)
           1%nat internalConfiguration (fun _ => Exn ClsError "connect ECONNREFUSED")).
  - vm_compute. lia.
  - intros n Hn. assert (n = 0%nat) as -> by lia. reflexivity.
  - reflexivity.
Defined.

(** X20. [discoverWithRetry] can fail without ever calling [discovery]:
    with a retry count of zero or less it throws at once, and the message
    ends in the word undefined; with an issuer string without a scheme,
    which is no URL, every attempt fails in [new URL], the loop still sleeps between the attempts,
    and the message reports the invalid URL. *)
Theorem discoverWithRetry_without_discovery (cfg : AuthConfig) (issuerUrl clientId : string)
    (clientSecret : option string) (w : World) :
  ((MCP_OAUTH_DISCOVERY_RETRIES cfg <= 0)%Z ->
   discoverWithRetry cfg issuerUrl clientId clientSecret w
   = (Throw (Exn ClsError ("Unable to discover OIDC issuer at " +:+ issuerUrl
                           +:+ ": undefined")), w)) /\
  (noScheme issuerUrl = true -> (0 < MCP_OAUTH_DISCOVERY_RETRIES cfg)%Z ->
   discoverWithRetry cfg issuerUrl clientId clientSecret w
   = (Throw (Exn ClsError ("Unable to discover OIDC issuer at " +:+ issuerUrl
                           +:+ ": Invalid URL")),
      after w (replicate (pred (Z.to_nat (MCP_OAUTH_DISCOVERY_RETRIES cfg)))
                 (CallSleep (MCP_OAUTH_DISCOVERY_RETRY_DELAY_MS cfg))))).
Proof.
  unfold discoverWithRetry. split.
  - intros Hle. replace (Z.to_nat (MCP_OAUTH_DISCOVERY_RETRIES cfg)) with 0%nat by lia.
    reflexivity.
  - intros Hparse Hpos. apply noScheme_unparsable in Hparse.
    rewrite (discoveryAttempts_unparsable cfg issuerUrl clientId clientSecret Hparse
               _ 1%Z None w) by lia.
    destruct (Z.to_nat (MCP_OAUTH_DISCOVERY_RETRIES cfg)) as [|r] eqn:E; [lia|]. reflexivity.
Qed.

Lemma classifyError_invalid (error : exn) (w : World) :
  exists msg, classifyError error w = (Throw (Exn ClsInvalidTokenError msg), w).
Proof.
  unfold classifyError, throw, lift.
  destruct (includes "401" (message error) || includes "unauthorized" (message error));
    [eexists; reflexivity|].
  destruct (includes "invalid_token" (message error)); eexists; reflexivity.
Qed.

Lemma verifier_catch_invalid (error : exn) (w : World) :
  exists e,
    match cls error with
    | ClsInvalidTokenError => lift (Throw error)
    | _ => classifyError error
    end w = (Throw e, w)
    /\ cls e = ClsInvalidTokenError.
Proof.
  destruct (classifyError_invalid error w) as [msg Hmsg].
  destruct (cls error) eqn:Hcls;
    try (exists (Exn ClsInvalidTokenError msg); split; [exact Hmsg|reflexivity]).
  exists error. split; [reflexivity|exact Hcls].
Qed.

Lemma introspection_run (config : Configuration) (tok : string) (w : World) :
  let run := verifyAccessToken (buildOidcTokenVerifier config true) tok w in
  snd run = after w [CallTokenIntrospection config tok]
  /\ match introspectionOutcome w config tok with
     | Return r =>
         if truthyValue (prop r "active") then
           fst run = Return {| token := tok;
                               clientId := coalesce (coalesce (prop r "client_id")
                                                              (prop r "sub"))
                                                    (VStr "unknown");
                               scopes := match prop r "scope" with
                                         | VStr s => split " " s
                                         | _ => []
                                         end;
                               expiresAt := prop r "exp" |}
         else fst run = Throw (Exn ClsInvalidTokenError "Token is not active")
     | Throw _ => exists e, fst run = Throw e /\ cls e = ClsInvalidTokenError
     end.
Proof.
  cbv zeta.
  unfold buildOidcTokenVerifier, verifyAccessToken, tryCatch, mbind, M_bind,
    tokenIntrospection.
  change (record ?e w) with (after w [e]).
  destruct (introspectionOutcome w config tok) as [r|e1].
  - destruct (truthyValue (prop r "active")); split; reflexivity.
  - destruct (verifier_catch_invalid e1 (after w [CallTokenIntrospection config tok]))
      as (e & -> & Hcls).
    split; [reflexivity|]. exists e. split; [reflexivity|exact Hcls].
Qed.

Lemma userinfo_run (config : Configuration) (tok : string) (w : World) :
  let run := verifyAccessToken (buildOidcTokenVerifier config false) tok w in
  snd run = after w [CallFetchUserInfo config tok]
  /\ match userInfoOutcome w config tok with
     | Return u =>
         fst run = Return {| token := tok;
                             clientId := coalesce (prop u "sub") (VStr "unknown");
                             scopes := [];
                             expiresAt := VNum (clock w / 1000 + 3600)%Z |}
     | Throw _ => exists e, fst run = Throw e /\ cls e = ClsInvalidTokenError
     end.
Proof.
  cbv zeta.
  unfold buildOidcTokenVerifier, verifyAccessToken, tryCatch, mbind, M_bind, fetchUserInfo.
  change (record ?e w) with (after w [e]).
  destruct (userInfoOutcome w config tok) as [u|e1].
  - split; reflexivity.
  - destruct (verifier_catch_invalid e1 (after w [CallFetchUserInfo config tok]))
      as (e & -> & Hcls).
    split; [reflexivity|]. exists e. split; [reflexivity|exact Hcls].
Qed.

(** X21. The openid-client verifier makes one library call per token:
    token introspection or the userinfo request.  By introspection it accepts
    exactly the tokens whose introspection response has a truthy [active]; by
    userinfo it accepts exactly the tokens for which the request succeeds, and
    then reports no scopes and an expiry one hour after the current time,
    whatever the provider answered.  Every rejection is an
    InvalidTokenError. *)
Theorem oidc_verifier_outcomes (config : Configuration) (tok : string) (w : World) :
  let byIntrospection := verifyAccessToken (buildOidcTokenVerifier config true) tok w in
  let byUserinfo := verifyAccessToken (buildOidcTokenVerifier config false) tok w in
  snd byIntrospection = after w [CallTokenIntrospection config tok] /\
  snd byUserinfo = after w [CallFetchUserInfo config tok] /\
  ((exists res, fst byIntrospection = Return res) <->
   (exists r, introspectionOutcome w config tok = Return r
              /\ truthyValue (prop r "active") = true)) /\
  ((exists res, fst byUserinfo = Return res) <->
   (exists u, userInfoOutcome w config tok = Return u)) /\
  (forall res, fst byUserinfo = Return res ->
     token res = tok /\ scopes res = []
     /\ expiresAt res = VNum (clock w / 1000 + 3600)%Z) /\
  (forall e, fst byIntrospection = Throw e \/ fst byUserinfo = Throw e ->
     cls e = ClsInvalidTokenError).
Proof.
  cbv zeta.
  destruct (introspection_run config tok w) as [Hw1 H1].
  destruct (userinfo_run config tok w) as [Hw2 H2].
  cbv zeta in Hw1, H1, Hw2, H2.
  split; [exact Hw1|]. split; [exact Hw2|].
  split; [|split; [|split]].
  - destruct (introspectionOutcome w config tok) as [r|e1].
    + destruct (truthyValue (prop r "active")) eqn:Hactive.
      * split; [intros _; exists r; split; [reflexivity|exact Hactive]|].
        intros _. eexists. exact H1.
      * split.
        -- intros [res Hres]. rewrite H1 in Hres. discriminate Hres.
        -- intros (r0 & [= <-] & Hr0). rewrite Hactive in Hr0. discriminate Hr0.
    + destruct H1 as (e & He & _). split.
      * intros [res Hres]. rewrite He in Hres. discriminate Hres.
      * intros (r0 & Hr0 & _). discriminate Hr0.
  - destruct (userInfoOutcome w config tok) as [u|e1].
    + split; [intros _; exists u; reflexivity|]. intros _. eexists. exact H2.
    + destruct H2 as (e & He & _). split.
      * intros [res Hres]. rewrite He in Hres. discriminate Hres.
      * intros [u0 Hu0]. discriminate Hu0.
  - intros res Hres. destruct (userInfoOutcome w config tok) as [u|e1].
    + rewrite H2 in Hres. injection Hres as <-. auto.
    + destruct H2 as (e & He & _). rewrite He in Hres. discriminate Hres.
  - intros e [He|He].
    + destruct (introspectionOutcome w config tok) as [r|e1].
      * destruct (truthyValue (prop r "active")); rewrite H1 in He;
          [discriminate He|]. injection He as <-. reflexivity.
      * destruct H1 as (e' & He' & Hcls). rewrite He' in He. injection He as <-.
        exact Hcls.
    + destruct (userInfoOutcome w config tok) as [u|e1].
      * rewrite H2 in He. discriminate He.
      * destruct H2 as (e' & He' & Hcls). rewrite He' in He. injection He as <-.
        exact Hcls.
Qed.

(** X22. On openid-client, [buildOAuthAuthContext] chooses introspection
    exactly when client id, client secret and a discovered introspection
    endpoint are all there, and userinfo otherwise, which needs a discovered
    userinfo endpoint; with neither it fails with a configuration error.  In
    each case the only calls made are those of discovery, which is given the
    client id mcp-server when none is configured. *)
Theorem oidc_validation_method_choice (cfg : AuthConfig) (url : URL) (w w1 : World)
    (s : string) (config : Configuration) :
  MCP_OAUTH_INTERNAL_ISSUER_URL cfg = Some s -> s <> "" ->
  discoverWithRetry cfg s (default "mcp-server" (MCP_OAUTH_CLIENT_ID cfg))
    (MCP_OAUTH_CLIENT_SECRET cfg) w = (Return config, w1) ->
  let useIntrospection :=
    truthyString (MCP_OAUTH_CLIENT_ID cfg) && truthyString (MCP_OAUTH_CLIENT_SECRET cfg)
    && truthyValue (prop (serverMetadata config) "introspection_endpoint") in
  let hasUserinfoEndpoint := truthyValue (prop (serverMetadata config) "userinfo_endpoint") in
  (useIntrospection || hasUserinfoEndpoint = true ->
   buildOAuthAuthContext cfg url w
   = (Return {| mode := Auth.ModeOauth;
                middleware :=
                  Some {| verifier := buildOidcTokenVerifier config useIntrospection;
                          requiredScopes := [];
                          resourceServer := Some url |};
                oauthMetadata := Some (toOAuthMetadata (serverMetadata config)
                                         (MCP_OAUTH_PUBLIC_ISSUER_URL cfg));
                validationMethod := Some (if useIntrospection then Introspection
                                          else Userinfo) |}, w1)) /\
  (useIntrospection || hasUserinfoEndpoint = false ->
   exists msg,
     buildOAuthAuthContext cfg url w = (Throw (Exn ClsError msg), w1)
     /\ includes "No userinfo endpoint" msg = true).
Proof.
  intros Hs Hne Hdiscover. cbv zeta.
  unfold buildOAuthAuthContext. rewrite Hs.
  assert (truthyString (Some s) = true) as ->.
  { unfold truthyString, missing. rewrite (eqb_false_of_ne _ _ Hne). reflexivity. }
  cbn [negb default from_option id]. unfold mbind, M_bind. rewrite Hdiscover.
  split.
  - intros H.
    destruct (truthyString (MCP_OAUTH_CLIENT_ID cfg)
              && truthyString (MCP_OAUTH_CLIENT_SECRET cfg)
              && truthyValue (prop (serverMetadata config) "introspection_endpoint"));
      [reflexivity|].
    cbn [orb] in H. rewrite H. reflexivity.
  - intros H. apply orb_false_elim in H. destruct H as [-> ->].
    eexists. split; [reflexivity|]. vm_compute. reflexivity.
Qed.

(** Without credentials, against the provider whose second answer has a
    userinfo endpoint: the method is userinfo. *)
Lemma oidc_validation_method_choice_witness :
  exists ctx,
    buildOAuthAuthContext twoRoundConfig localhostMcp slowProviderWorld
    = (Return ctx,
       after slowProviderWorld
         [CallDiscovery realmIssuer "mcp-server" None None; CallSleep 2000;
          CallDiscovery realmIssuer "mcp-server" None None])
    /\ validationMethod ctx = Some Userinfo.
Proof.
  eexists. split.
  - apply (proj1 (oidc_validation_method_choice twoRoundConfig localhostMcp slowProviderWorld
                    (after slowProviderWorld
                       [CallDiscovery realmIssuer "mcp-server" None None; CallSleep 2000;
                        CallDiscovery realmIssuer "mcp-server" None None])
                    "https://auth.example.com/realms/main" internalConfiguration
                    eq_refl ltac:(discriminate) eq_refl)).
    reflexivity.
  - reflexivity.
Defined.
